(** * html_to_epub_converter: a shallow embedding of [HTMLtoEPUBConverter]

    The development follows [src/html_to_epub_converter.py].  Python strings
    are sequences of Unicode code points and are modelled as [list N]; the
    parsed markup (BeautifulSoup objects) is a rose tree whose nodes are
    addressed by their child-index path, which plays the role of object
    identity when the code mutates the tree in place; the converter object
    is a record threaded through the methods that mutate it.

    Library behaviour the script relies on ([re], [datetime.strptime],
    [posixpath], [list.sort], BeautifulSoup's tree operations and its
    serialiser) is modelled next to the code that uses it.  The HTML parser
    itself, [BeautifulSoup(text, 'lxml')], is a parameter of the development. *)

From Stdlib Require Import String Ascii.
From Stdlib Require Import List NArith ZArith Arith Bool Lia Sorted Permutation.
From Stdlib Require DecimalString DecimalNat DecimalFacts.
Import ListNotations.

Local Open Scope N_scope.

(* ================================================================== *)
(** * Part I: definitions                                              *)
(* ================================================================== *)

(** ** Python strings *)

Abbreviation str := (list N).

(** An ASCII literal as a Python string. *)
Definition u (s : string) : str :=
  map N_of_ascii (list_ascii_of_string s).

Arguments u s%_string.

Definition quote : str := [34].

Fixpoint str_eqb (a b : str) : bool :=
  match a, b with
  | [], [] => true
  | x :: a', y :: b' => (x =? y) && str_eqb a' b'
  | _, _ => false
  end.

(** [s.startswith(p)] *)
Fixpoint startswith (p s : str) : bool :=
  match p, s with
  | [], _ => true
  | x :: p', y :: s' => (x =? y) && startswith p' s'
  | _ :: _, [] => false
  end.

(** [p in s] *)
Fixpoint contains (p s : str) : bool :=
  startswith p s ||
  match s with
  | [] => false
  | _ :: s' => contains p s'
  end.

(** [sep.join(l)] *)
Fixpoint join (sep : str) (l : list str) : str :=
  match l with
  | [] => []
  | [x] => x
  | x :: l' => x ++ sep ++ join sep l'
  end.

(** [s.replace(old, new)] for a non-empty [old]: occurrences are taken
    leftmost first and do not overlap.  [skip] counts the characters of an
    occurrence just replaced that are still to be passed over. *)
Fixpoint replace_from (skip : nat) (old new s : str) : str :=
  match s with
  | [] => []
  | c :: s' =>
      match skip with
      | S k => replace_from k old new s'
      | O =>
          if startswith old s
          then new ++ replace_from (Nat.pred (length old)) old new s'
          else c :: replace_from O old new s'
      end
  end.

Definition replace (old new s : str) : str := replace_from 0 old new s.

(** Unicode data of the interpreter: the zero of every decimal-digit block
    (general category Nd, Unicode 14; each block is ten consecutive code
    points) and the white-space characters of [str.isspace]. *)
Definition unicode_zero_digits : list N :=
  [48; 1632; 1776; 1984; 2406; 2534; 2662; 2790; 2918; 3046; 3174; 3302;
   3430; 3558; 3664; 3792; 3872; 4160; 4240; 6112; 6160; 6470; 6608; 6784;
   6800; 6992; 7088; 7232; 7248; 42528; 43216; 43264; 43472; 43504; 43600;
   44016; 65296; 66720; 68912; 69734; 69872; 69942; 70096; 70384; 70736;
   70864; 71248; 71360; 71472; 71904; 72016; 72784; 73040; 73120; 92768;
   92864; 93008; 120782; 120792; 120802; 120812; 120822; 123200; 123632;
   125264; 130032].

Definition unicode_whitespace : list N :=
  [9; 10; 11; 12; 13; 28; 29; 30; 31; 32; 133; 160; 5760; 8192; 8193; 8194;
   8195; 8196; 8197; 8198; 8199; 8200; 8201; 8202; 8232; 8233; 8239; 8287;
   12288].

(** The digit a character stands for, as [int()] and the regex class
    [\d] see it. *)
Definition decimal_value (c : N) : option N :=
  match find (fun z => (z <=? c) && (c <? z + 10)) unicode_zero_digits with
  | Some z => Some (c - z)
  | None => None
  end.

Definition isdigit (c : N) : bool :=
  match decimal_value c with Some _ => true | None => false end.

Definition isspace (c : N) : bool := existsb (N.eqb c) unicode_whitespace.

Definition in_range (lo hi c : N) : bool := (lo <=? c) && (c <=? hi).

Fixpoint lstrip (s : str) : str :=
  match s with
  | c :: s' => if isspace c then lstrip s' else s
  | [] => []
  end.

(** [s.strip()] *)
Definition strip (s : str) : str := rev (lstrip (rev (lstrip s))).

(** [int(s)] on a string of decimal digits; [None] stands for ValueError. *)
Definition int_of_digits (s : str) : option N :=
  fold_left
    (fun acc c =>
       match acc, decimal_value c with
       | Some a, Some v => Some (10 * a + v)
       | _, _ => None
       end)
    s (Some 0).

(** [str(n)] for a natural number. *)
Definition str_of_nat (n : nat) : str :=
  u (DecimalString.NilZero.string_of_uint (Nat.to_uint n)).

(** ** Dates *)

(** A [datetime.datetime] whose time of day is midnight. *)
Record datetime := mkdate { year : N; month : N; day : N }.

Definition is_leap (y : N) : bool :=
  (y mod 4 =? 0) && (negb (y mod 100 =? 0) || (y mod 400 =? 0)).

Definition days_in_month (y m : N) : N :=
  if m =? 2 then (if is_leap y then 29 else 28)
  else if (m =? 4) || (m =? 6) || (m =? 9) || (m =? 11) then 30
  else 31.

(** The constructor [datetime(y, m, d)]: [None] stands for ValueError. *)
Definition make_datetime (y m d : N) : option datetime :=
  if in_range 1 9999 y && in_range 1 12 m && in_range 1 (days_in_month y m) d
  then Some (mkdate y m d)
  else None.

(** One alternative of a regex group: the text it consumes and the rest. *)
Definition alt := str -> option (str * str).

Definition two_chars (p1 p2 : N -> bool) : alt := fun s =>
  match s with
  | a :: b :: r => if p1 a && p2 b then Some ([a; b], r) else None
  | _ => None
  end.

Definition one_char (p : N -> bool) : alt := fun s =>
  match s with
  | a :: r => if p a then Some ([a], r) else None
  | _ => None
  end.

(** [%m] is [1[0-2]|0[1-9]|[1-9]] *)
Definition month_alts : list alt :=
  [ two_chars (N.eqb 49) (in_range 48 50);
    two_chars (N.eqb 48) (in_range 49 57);
    one_char (in_range 49 57) ].

(** [%d] is [3[0-1]|[1-2]\d|0[1-9]|[1-9]| [1-9]] *)
Definition day_alts : list alt :=
  [ two_chars (N.eqb 51) (in_range 48 49);
    two_chars (in_range 49 50) isdigit;
    two_chars (N.eqb 48) (in_range 49 57);
    one_char (in_range 49 57);
    two_chars (N.eqb 32) (in_range 49 57) ].

(** The first alternative, in order, after which the continuation succeeds. *)
Fixpoint first_alt {A} (alts : list alt) (k : str -> str -> option A)
    (s : str) : option A :=
  match alts with
  | [] => None
  | a :: alts' =>
      match a s with
      | Some (txt, r) =>
          match k txt r with
          | Some x => Some x
          | None => first_alt alts' k s
          end
      | None => first_alt alts' k s
      end
  end.

(** The match of the compiled format
    [(?P<Y>\d\d\d\d)-(?P<m>...)-(?P<d>...)] at the start of [s]:
    the three groups and the unconsumed rest. *)
Definition format_match (s : str) : option (str * str * str * str) :=
  match s with
  | y1 :: y2 :: y3 :: y4 :: 45 :: r =>
      if isdigit y1 && isdigit y2 && isdigit y3 && isdigit y4
      then
        first_alt month_alts
          (fun m r1 =>
             match r1 with
             | 45 :: r2 =>
                 first_alt day_alts
                   (fun d r3 => Some ([y1; y2; y3; y4], m, d, r3)) r2
             | _ => None
             end) r
      else None
  | _ => None
  end.

(** [datetime.datetime.strptime(s, '%Y-%m-%d')]; [None] stands for the
    ValueError raised when the text does not match the format, when
    unconverted data remains, or when the fields are not a calendar date. *)
Definition strptime_ymd (s : str) : option datetime :=
  match format_match s with
  | Some (y, m, d, []) =>
      match int_of_digits y, int_of_digits m, int_of_digits (lstrip d) with
      | Some yv, Some mv, Some dv => make_datetime yv mv dv
      | _, _, _ => None
      end
  | _ => None
  end.

(** [\d{4}-\d{2}-\d{2}] against a whole string *)
Definition date_pattern (w : str) : bool :=
  match w with
  | [y1; y2; y3; y4; h1; m1; m2; h2; d1; d2] =>
      isdigit y1 && isdigit y2 && isdigit y3 && isdigit y4 && (h1 =? 45)
      && isdigit m1 && isdigit m2 && (h2 =? 45) && isdigit d1 && isdigit d2
  | _ => false
  end.

(** [re.search(r'(\d{4}-\d{2}-\d{2})', s)]: group 1 of the leftmost match. *)
Fixpoint search_date (s : str) : option str :=
  if date_pattern (firstn 10 s) then Some (firstn 10 s)
  else
    match s with
    | [] => None
    | _ :: s' => search_date s'
    end.

Definition default_date : datetime := mkdate 2000 1 1.

(** [HTMLtoEPUBConverter.extract_date_from_dirname] *)
Definition extract_date_from_dirname (dirname : str) : datetime :=
  match search_date dirname with
  | Some g =>
      match strptime_ymd g with
      | Some d => d
      | None => default_date
      end
  | None => default_date
  end.

(** Comparison of [datetime] values ([<=]). *)
Definition date_leb (a b : datetime) : bool :=
  (year a <? year b)
  || ((year a =? year b)
      && ((month a <? month b)
          || ((month a =? month b) && (day a <=? day b)))).

(** ** [list.sort(key=...)] and the operating system

    Paths are POSIX paths: [os.path] is [posixpath]. *)

(** [list.sort(key=key)] is a stable sort; insertion from the right keeps
    an element in front of the later elements it ties with. *)
Section Sort.
Context {A K : Type} (leb : K -> K -> bool) (key : A -> K).

Fixpoint insert_by (x : A) (l : list A) : list A :=
  match l with
  | [] => [x]
  | y :: l' =>
      if leb (key x) (key y) then x :: l else y :: insert_by x l'
  end.

Fixpoint sort_by (l : list A) : list A :=
  match l with
  | [] => []
  | x :: l' => insert_by x (sort_by l')
  end.
End Sort.

Definition slash : N := 47.
Definition dot : N := 46.

Definition endswith (p s : str) : bool := startswith (rev p) (rev s).

(** [posixpath.join(a, b)] *)
Definition path_join (a b : str) : str :=
  if startswith [slash] b then b
  else
    match a with
    | [] => b
    | _ => if endswith [slash] a then a ++ b else a ++ [slash] ++ b
    end.

(** The text after the last occurrence of [c], or all of [s]. *)
Fixpoint after_last (c : N) (s : str) : str :=
  match s with
  | [] => []
  | x :: s' =>
      if existsb (N.eqb c) s then
        (if existsb (N.eqb c) s' then after_last c s' else s')
      else s
  end.

(** [posixpath.basename(p)] *)
Definition basename (p : str) : str := after_last slash p.

(** [posixpath.splitext(p)[1]]: the text from the last dot of the last
    path component, unless only dots precede it there. *)
Definition splitext_ext (p : str) : str :=
  let name := basename p in
  if existsb (N.eqb dot) name then
    let ext := dot :: after_last dot name in
    let stem := firstn (length name - length ext) name in
    if forallb (N.eqb dot) stem then [] else ext
  else [].

(** [s.lower()] on the letters A-Z; the extensions it is compared with
    have no letter that a character outside A-Z lowers to. *)
Definition lower (s : str) : str :=
  map (fun c => if in_range 65 90 c then c + 32 else c) s.

(** What the script reads from the machine it runs on. *)
Record os_env := {
  listdir : str -> list str;              (* os.listdir *)
  isdir : str -> bool;                    (* os.path.isdir *)
  path_exists : str -> bool;              (* os.path.exists *)
  read_text : str -> str;                 (* open(p, 'r').read() *)
  read_bytes : str -> list Byte.byte;     (* open(p, 'rb').read() *)
  today : str                             (* now().strftime('%Y-%m-%d') *)
}.

Definition index_html : str := u "index.html".

(** The loop of [process_directory] that collects the article directories. *)
Definition article_dirs (os : os_env) (source_dir : str) : list (str * str) :=
  flat_map
    (fun item =>
       let item_path := path_join source_dir item in
       if isdir os item_path && negb (startswith [dot] item)
       then
         if path_exists os (path_join item_path index_html)
         then [(item, item_path)]
         else []
       else [])
    (listdir os source_dir).

(** [HTMLtoEPUBConverter.process_directory] *)
Definition process_directory (os : os_env) (source_dir : str)
  : list (str * str) :=
  sort_by date_leb (fun x => extract_date_from_dirname (fst x))
    (article_dirs os source_dir).

(** ** BeautifulSoup trees *)

(** The string classes of the tree: [NavigableString] and its subclasses. *)
Inductive string_kind :=
| KText | KComment | KCData | KDoctype | KProcessingInstruction | KDeclaration.

Definition attributes := list (str * str).

(** A page element.  A multi-valued attribute ([class]) holds its tokens
    joined by single spaces.  The [BeautifulSoup] object is the tag named
    [[document]]. *)
#[local] Unset Elimination Schemes.
Inductive node :=
| Tag (name : str) (attrs : attributes) (children : list node)
| Str (kind : string_kind) (text : str).
#[local] Set Elimination Schemes.

Definition NavigableString : str -> node := Str KText.
Definition Comment : str -> node := Str KComment.

Definition document_name : str := u "[document]".
Definition soup_of (children : list node) : node :=
  Tag document_name [] children.

(** [tag.attrs] is a dictionary: [tag.get(k, default)], [tag[k] = v] and
    [del tag[k]]. *)
Fixpoint attr_get (k : str) (a : attributes) : option str :=
  match a with
  | [] => None
  | (k', v) :: a' => if str_eqb k k' then Some v else attr_get k a'
  end.

Definition get (k default : str) (a : attributes) : str :=
  match attr_get k a with Some v => v | None => default end.

Fixpoint attr_set (k v : str) (a : attributes) : attributes :=
  match a with
  | [] => [(k, v)]
  | (k', v') :: a' =>
      if str_eqb k k' then (k, v) :: a' else (k', v') :: attr_set k v a'
  end.

Definition attr_del (k : str) (a : attributes) : attributes :=
  filter (fun kv => negb (str_eqb k (fst kv))) a.

(** An element is addressed by the child indices that lead to it. *)
Definition path := list nat.

Fixpoint lookup (q : path) (t : node) : option node :=
  match q with
  | [] => Some t
  | i :: q' =>
      match t with
      | Tag _ _ cs =>
          match nth_error cs i with
          | Some c => lookup q' c
          | None => None
          end
      | Str _ _ => None
      end
  end.

(** Document order. *)
Fixpoint self_and_descendants (t : node) : list node :=
  t :: match t with
       | Tag _ _ cs => flat_map self_and_descendants cs
       | Str _ _ => []
       end.

Definition descendants (t : node) : list node :=
  match t with
  | Tag _ _ cs => flat_map self_and_descendants cs
  | Str _ _ => []
  end.

Definition named (names : list str) (t : node) : bool :=
  match t with
  | Tag n _ _ => existsb (str_eqb n) names
  | Str _ _ => false
  end.

(** [t.find_all(...)] and [t.find(...)] with a selection [sel]. *)
Definition find_all (sel : node -> bool) (t : node) : list node :=
  filter sel (descendants t).

Definition find (sel : node -> bool) (t : node) : option node :=
  List.find sel (descendants t).

(** The same search, giving the elements' addresses. *)
Definition children_paths (f : node -> list path)
  : nat -> list node -> list path :=
  fix go (i : nat) (l : list node) : list path :=
    match l with
    | [] => []
    | c :: l' => map (cons i) (f c) ++ go (S i) l'
    end.

Fixpoint self_paths (sel : node -> bool) (t : node) : list path :=
  (if sel t then [[]] else [])
  ++ match t with
     | Tag _ _ cs => children_paths (self_paths sel) 0%nat cs
     | Str _ _ => []
     end.

Definition find_all_paths (sel : node -> bool) (t : node) : list path :=
  match t with
  | Tag _ _ cs => children_paths (self_paths sel) 0%nat cs
  | Str _ _ => []
  end.

(** [tag.get_text()]: the text strings below the tag, concatenated. *)
Fixpoint get_text (t : node) : str :=
  match t with
  | Tag _ _ cs => flat_map get_text cs
  | Str KText s => s
  | Str KCData s => s
  | Str _ _ => []
  end.

(** [element.decompose()] / [element.extract()] for the element at [q]. *)
Fixpoint remove_nth {A} (i : nat) (l : list A) : list A :=
  match l, i with
  | [], _ => []
  | _ :: l', O => l'
  | x :: l', S j => x :: remove_nth j l'
  end.

Fixpoint update_nth {A} (i : nat) (f : A -> A) (l : list A) : list A :=
  match l, i with
  | [], _ => []
  | x :: l', O => f x :: l'
  | x :: l', S j => x :: update_nth j f l'
  end.

Fixpoint remove_at (q : path) (t : node) {struct q} : node :=
  match q, t with
  | i :: q', Tag n a cs =>
      match q' with
      | [] => Tag n a (remove_nth i cs)
      | _ :: _ => Tag n a (update_nth i (remove_at q') cs)
      end
  | _, _ => t
  end.

(** Removing every selected node of the tree, with what it holds. *)
Fixpoint prune (sel : node -> bool) (t : node) : node :=
  match t with
  | Tag n a cs =>
      Tag n a (flat_map (fun c => if sel c then [] else [prune sel c]) cs)
  | Str _ _ => t
  end.

(** A loop [for tag in t.find_all(..): <change tag.attrs>]. *)
Fixpoint map_attrs (f : str -> attributes -> attributes) (t : node) : node :=
  match t with
  | Tag n a cs => Tag n (f n a) (map (map_attrs f) cs)
  | Str _ _ => t
  end.

Definition map_descendant_attrs (f : str -> attributes -> attributes)
    (t : node) : node :=
  match t with
  | Tag n a cs => Tag n a (map (map_attrs f) cs)
  | Str _ _ => t
  end.

(** *** The serialiser, [str(tag)] with the formatter "minimal" *)

Definition escape (s : str) : str :=
  flat_map
    (fun c =>
       if c =? 38 then u "&amp;"
       else if c =? 60 then u "&lt;"
       else if c =? 62 then u "&gt;"
       else [c])
    s.

Definition quoted_attribute_value (v : str) : str :=
  if existsb (N.eqb 34) v then
    if existsb (N.eqb 39) v
    then quote ++ replace quote (u "&quot;") v ++ quote
    else [39] ++ v ++ [39]
  else quote ++ v ++ quote.

Fixpoint str_leb (a b : str) : bool :=
  match a, b with
  | [], _ => true
  | _ :: _, [] => false
  | x :: a', y :: b' => (x <? y) || ((x =? y) && str_leb a' b')
  end.

(** Attributes are written in the order of their names. *)
Definition decode_attrs (a : attributes) : str :=
  flat_map
    (fun kv =>
       [32] ++ fst kv ++ [61] ++ quoted_attribute_value (escape (snd kv)))
    (sort_by str_leb fst a).

Definition void_elements : list str :=
  map u ["area"; "base"; "br"; "col"; "embed"; "hr"; "img"; "input";
         "keygen"; "link"; "menuitem"; "meta"; "param"; "source"; "track";
         "wbr"; "basefont"; "bgsound"; "command"; "frame"; "image";
         "isindex"; "nextid"; "spacer"]%string.

Definition cdata_containing_tags : list str := map u ["script"; "style"]%string.

Definition decode_string (parent : str) (k : string_kind) (s : str) : str :=
  match k with
  | KText =>
      if existsb (str_eqb parent) cdata_containing_tags then s else escape s
  | KComment => u "<!--" ++ s ++ u "-->"
  | KCData => u "<![CDATA[" ++ s ++ u "]]>"
  | KDoctype => u "<!DOCTYPE " ++ s ++ [62; 10]
  | KProcessingInstruction => u "<?" ++ s ++ u ">"
  | KDeclaration => u "<?" ++ s ++ u "?>"
  end.

Fixpoint decode_in (parent : str) (t : node) : str :=
  match t with
  | Str k s => decode_string parent k s
  | Tag n a cs =>
      let inner := flat_map (decode_in n) cs in
      if str_eqb n document_name then inner
      else
        match cs with
        | [] =>
            if existsb (str_eqb n) void_elements
            then u "<" ++ n ++ decode_attrs a ++ u "/>"
            else u "<" ++ n ++ decode_attrs a ++ u "></" ++ n ++ u ">"
        | _ =>
            u "<" ++ n ++ decode_attrs a ++ u ">" ++ inner
            ++ u "</" ++ n ++ u ">"
        end
  end.

(** [str(t)] *)
Definition decode (t : node) : str := decode_in [] t.

(** ** [_remove_footer_elements] *)

(** [re.search(r'\[email[^\]]*\]', s)]: some "[email" with a closing
    bracket anywhere after it. *)
Fixpoint search_email_bracket (s : str) : bool :=
  (startswith (u "[email") s && existsb (N.eqb 93) (skipn 6 s))
  || match s with
     | [] => false
     | _ :: s' => search_email_bracket s'
     end.

(** The four [email_patterns], searched in the markup of the paragraph. *)
Definition email_patterns : list (str -> bool) :=
  [ search_email_bracket;
    contains [37038; 31665];
    contains (u "@");
    contains (u "__cf_email__") ].

Definition author_patterns : list str :=
  [ u "Buddhavamsa";
    [24067; 36798; 25991; 33832];
    [20844; 20247; 21495];
    [20851; 27880] ].

Definition is_img (t : node) : bool := named [u "img"] t.
Definition is_p (t : node) : bool := named [u "p"] t.

(** The body of the scanning loop: the value of [is_footer] for [p]. *)
Definition is_footer (p : node) : bool :=
  let p_text := strip (get_text p) in
  let markup := decode p in
  existsb (fun pattern => pattern markup) email_patterns
  || existsb (fun pattern => contains pattern p_text) author_patterns
  || (match find is_img p with Some _ => true | None => false end
      && (length (strip p_text) <? 3)%nat)
  || ((contains (u "color: rgb(34, 34, 34)") markup
       || contains (u "Helvetica Neue") markup)
      && (length (strip p_text) <? 30)%nat).

Definition is_footer_at (t : node) (q : path) : bool :=
  match lookup q t with
  | Some p => is_footer p
  | None => false
  end.

(** The loop [for i in range(min(5, len(paragraphs)))]: [rest] is the
    paragraph list read from its end, [budget] the iterations left. *)
Fixpoint scan_footer (t : node) (budget : nat) (rest : list path) : list path :=
  match budget, rest with
  | S b, p :: rest' =>
      if is_footer_at t p then p :: scan_footer t b rest' else []
  | _, _ => []
  end.

Definition footer_elements (t : node) : list path :=
  scan_footer t 5 (rev (find_all_paths is_p t)).

(** [HTMLtoEPUBConverter._remove_footer_elements] *)
Definition remove_footer_elements (content_div : node) : node :=
  let paragraphs := find_all_paths is_p content_div in
  if (length paragraphs <? 3)%nat then content_div
  else fold_left (fun t q => remove_at q t) (footer_elements content_div)
                 content_div.

(** ** [_preserve_formatting] *)

Definition semicolon : N := 59.

Fixpoint take_while {A} (f : A -> bool) (l : list A) : list A :=
  match l with
  | x :: l' => if f x then x :: take_while f l' else []
  | [] => []
  end.

(** [\s*([^;]+)] at the start of [s]: the group.  The white space is taken
    greedily; when nothing but a semicolon or the end follows it, its last
    character is given back to the group. *)
Definition value_group (s : str) : option str :=
  let ws := take_while isspace s in
  let r := skipn (length ws) s in
  match take_while (fun c => negb (c =? semicolon)) r with
  | (_ :: _) as v => Some v
  | [] =>
      match rev ws with
      | c :: _ => Some [c]
      | [] => None
      end
  end.

(** [re.search(lit + r'\s*([^;]+)', s)]: group 1 of the leftmost match. *)
Fixpoint search_property (lit s : str) : option str :=
  match (if startswith lit s then value_group (skipn (length lit) s)
         else None) with
  | Some v => Some v
  | None =>
      match s with
      | [] => None
      | _ :: s' => search_property lit s'
      end
  end.

(** The list [new_style] built for a paragraph whose style is [style]. *)
Definition new_style (style : str) : list str :=
  (if contains (u "text-align") style then
     match search_property (u "text-align:") style with
     | Some v => [u "text-align: " ++ v]
     | None => []
     end
   else [])
  ++ (if contains (u "font-weight") style && contains (u "bold") style
      then [u "font-weight: bold"] else [])
  ++ (if contains (u "text-indent") style then
        match search_property (u "text-indent:") style with
        | Some v => [u "text-indent: " ++ v]
        | None => []
        end
      else []).

Definition style_key : str := u "style".

Definition paragraph_attrs (a : attributes) : attributes :=
  match new_style (get style_key [] a) with
  | [] => attr_del style_key a
  | ns => attr_set style_key (join (u "; ") ns) a
  end.

Definition heading_style : str := u "text-align: center; font-weight: bold;".

Definition heading_names : list str :=
  map u ["h1"; "h2"; "h3"; "h4"; "h5"; "h6"]%string.

Definition heading_attrs (a : attributes) : attributes :=
  attr_set style_key heading_style a.

(** The bodies of the two loops of [_preserve_formatting], as they act on
    the attributes of a tag named [n]. *)
Definition restyle_paragraph (n : str) (a : attributes) : attributes :=
  if str_eqb n (u "p") then paragraph_attrs a else a.

Definition restyle_heading (n : str) (a : attributes) : attributes :=
  if existsb (str_eqb n) heading_names then heading_attrs a else a.

(** The two loops of [_preserve_formatting] over the parsed markup. *)
Definition normalize_styles (soup : node) : node :=
  map_descendant_attrs restyle_heading
    (map_descendant_attrs restyle_paragraph soup).

(** ** [clean_html_content]: the loop over the images *)

Definition assets_prefix : str := u "./assets/".
Definition src_key : str := u "src".
Definition alt_key : str := u "alt".

Definition image_attrs (a : attributes) : attributes :=
  let src := get src_key [] a in
  let a1 :=
    if startswith assets_prefix src then attr_set src_key (basename src) a
    else a in
  filter (fun kv => str_eqb (fst kv) src_key || str_eqb (fst kv) alt_key) a1.

(** What the loop appends to [image_files_to_process]. *)
Definition recorded_images (soup : node) : list str :=
  filter (startswith assets_prefix)
    (map (fun t => match t with
                   | Tag _ a _ => get src_key [] a
                   | Str _ _ => []
                   end)
         (find_all is_img soup)).

Definition clean_image (n : str) (a : attributes) : attributes :=
  if str_eqb n (u "img") then image_attrs a else a.

Definition process_images (soup : node) : node :=
  map_descendant_attrs clean_image soup.

(** ** [clean_html_content] *)

Definition unwanted_tags : list str :=
  map u ["script"; "style"; "meta"; "link"; "noscript"; "iframe"]%string.

(** The filter given to [find_all(string=...)]: it is applied to every
    string of the tree, whose text carries no delimiters. *)
Definition starts_like_comment (t : node) : bool :=
  match t with
  | Str _ s => startswith (u "<!--") (strip s)
  | Tag _ _ _ => false
  end.

(** [\S+] tokens of an attribute value. *)
Fixpoint tokens_from (cur : str) (s : str) : list str :=
  match s with
  | [] => match cur with [] => [] | _ => [rev cur] end
  | c :: s' =>
      if isspace c
      then match cur with
           | [] => tokens_from [] s'
           | _ => rev cur :: tokens_from [] s'
           end
      else tokens_from (c :: cur) s'
  end.

Definition tokens (s : str) : list str := tokens_from [] s.

(** The keyword arguments [id=...] and [class_=...] of a search. *)
Definition has_id (id : str) (t : node) : bool :=
  match t with
  | Tag _ a _ =>
      match attr_get (u "id") a with
      | Some v => str_eqb v id
      | None => false
      end
  | Str _ _ => false
  end.

Definition has_class (c : str) (t : node) : bool :=
  match t with
  | Tag _ a _ =>
      match attr_get (u "class") a with
      | Some v => existsb (str_eqb c) (tokens v)
      | None => false
      end
  | Str _ _ => false
  end.

Definition is_div_with_id (id : str) (t : node) : bool :=
  named [u "div"] t && has_id id t.

Definition is_div_with_class (c : str) (t : node) : bool :=
  named [u "div"] t && has_class c t.

Definition js_content : str := u "js_content".
Definition rich_media_content : str := u "rich_media_content".
Definition content_not_found : str := u "<p>Content not found</p>".

(** Lines 90-102: the tree after the two removal loops, and the title. *)
Definition remove_unwanted (soup : node) : node :=
  prune starts_like_comment (prune (named unwanted_tags) soup).

Definition extract_title (soup : node) : str :=
  match find (named [u "h1"]) soup with
  | Some title_tag => strip (get_text title_tag)
  | None => []
  end.

(** Lines 105-107 *)
Definition find_content_div (soup : node) : option node :=
  match find (is_div_with_id js_content) soup with
  | Some d => Some d
  | None => find (is_div_with_class rich_media_content) soup
  end.

(** [str(x)] where [x] is the result of [find]. *)
Definition str_of_found (x : option node) : str :=
  match x with
  | Some t => decode t
  | None => u "None"
  end.

Section Converter.

(** [BeautifulSoup(text, 'lxml')] *)
Variable parse : str -> node.

Variable os : os_env.

(** [HTMLtoEPUBConverter._preserve_formatting] *)
Definition preserve_formatting (html_content : str) : str :=
  let soup := normalize_styles (parse html_content) in
  replace (u "</p><p") (u "</p>" ++ [10] ++ u "<p") (decode soup).

(** The parsed markup of line 125, on which the image loop runs. *)
Definition soup_content_of (content_div : node) : node :=
  let content_copy := remove_footer_elements (parse (decode content_div)) in
  let processed_content :=
    str_of_found (find (named [u "div"]) content_copy) in
  parse (preserve_formatting processed_content).

(** [HTMLtoEPUBConverter.clean_html_content]: the title, the markup and
    the new value of [self.image_files_to_process]. *)
Definition clean_html_content (image_files_to_process : list str)
    (html_content : str) : str * str * list str :=
  let soup := remove_unwanted (parse html_content) in
  let title := extract_title soup in
  match find_content_div soup with
  | None => (title, content_not_found, image_files_to_process)
  | Some content_div =>
      let soup_content := soup_content_of content_div in
      (title,
       decode (process_images soup_content),
       image_files_to_process ++ recorded_images soup_content)
  end.

(** ** The book *)

Inductive payload :=
| Text (s : str)
| Bytes (b : list Byte.byte).

Record EpubItem := {
  uid : str; file_name : str; media_type : str; content : payload }.

Record EpubHtml := {
  html_title : str; html_file_name : str; html_lang : str;
  html_content : str; html_links : list str }.

Inductive book_item :=
| Item (i : EpubItem)
| Html (h : EpubHtml)
| EpubNcx
| EpubNav.

(** An entry of the spine: the string ['nav'] or a document. *)
Inductive spine_entry :=
| SpineNav
| SpineDoc (h : EpubHtml).

Record Link := { href : str; link_title : str; link_uid : str }.

Record EpubBook := {
  identifier : str; book_title : str; language : str; authors : list str;
  items : list book_item; book_spine : list spine_entry;
  book_toc : list Link }.

Record converter := {
  source_dir : str; output_file : str; book : EpubBook;
  chapters : list EpubHtml; spine : list spine_entry; toc : list Link;
  image_files_to_process : list str }.

Definition collection_title : str :=
  [24067; 36798; 25991; 33832; 25991; 38598].

Definition nl : str := [10].
Definition indent : str := u "        ".

Definition style_lines : list str :=
  [ [];
    u "@namespace epub " ++ quote ++ u "http://www.idpf.org/2007/ops"
      ++ quote ++ u ";";
    u "body {";
    u "    font-family: " ++ quote ++ u "Noto Sans CJK SC" ++ quote
      ++ u ", " ++ quote ++ u "Noto Sans SC" ++ quote ++ u ", " ++ quote
      ++ u "Source Han Sans CN" ++ quote ++ u ", serif;";
    u "    margin: 5%;";
    u "    text-align: justify;";
    u "}";
    u "h1, h2 {";
    u "    text-align: center;";
    u "    font-weight: bold;";
    u "    margin-top: 1em;";
    u "    margin-bottom: 1em;";
    u "}";
    u "p {";
    u "    margin: 1em 0;";
    u "    line-height: 1.5em;";
    u "}";
    u ".center {";
    u "    text-align: center;";
    u "}";
    u ".strong {";
    u "    font-weight: bold;";
    u "}";
    u "img {";
    u "    max-width: 100%;";
    u "    height: auto;";
    u "}";
    [] ].

Definition style : str := join (nl ++ indent) style_lines.

Definition css_file : EpubItem :=
  {| uid := u "style_default"; file_name := u "style/default.css";
     media_type := u "text/css"; content := Text style |}.

Definition add_item (x : book_item) (b : EpubBook) : EpubBook :=
  {| identifier := identifier b; book_title := book_title b;
     language := language b; authors := authors b;
     items := items b ++ [x]; book_spine := book_spine b;
     book_toc := book_toc b |}.

(** [HTMLtoEPUBConverter.__init__] *)
Definition init (source_dir output_file : str) : converter :=
  {| source_dir := source_dir; output_file := output_file;
     book := {| identifier := u "id123456789";
                book_title := collection_title;
                language := u "zh-CN"; authors := [u "Buddhavamsa"];
                items := [Item css_file]; book_spine := [];
                book_toc := [] |};
     chapters := []; spine := [SpineNav]; toc := [];
     image_files_to_process := [] |}.

(** Lines 319-329 *)
Definition media_type_of (full_img_path : str) : str :=
  let img_ext := lower (splitext_ext full_img_path) in
  if str_eqb img_ext (u ".jpg") || str_eqb img_ext (u ".jpeg")
  then u "image/jpeg"
  else if str_eqb img_ext (u ".png") then u "image/png"
  else if str_eqb img_ext (u ".gif") then u "image/gif"
  else if str_eqb img_ext (u ".svg") then u "image/svg+xml"
  else u "image/jpeg".

Definition src_attr (value : str) : str :=
  u "src=" ++ quote ++ value ++ quote.

(** The resource made for [img_path] in lines 319-342, and the body of
    the loop of lines 315-349: the book and the chapter content after
    [img_path] has been handled. *)
Definition image_item (dir_path : str) (chapter_id : nat) (img_path : str)
  : EpubItem :=
  let full_img_path := path_join dir_path img_path in
  let img_name := basename img_path in
  {| uid := u "image_" ++ str_of_nat chapter_id ++ u "_" ++ img_name;
     file_name := u "images/" ++ img_name;
     media_type := media_type_of full_img_path;
     content := Bytes (read_bytes os full_img_path) |}.

Definition embed_image (dir_path : str) (chapter_id : nat)
    (st : EpubBook * str) (img_path : str) : EpubBook * str :=
  let full_img_path := path_join dir_path img_path in
  if path_exists os full_img_path then
    let img_name := basename img_path in
    let img_item := image_item dir_path chapter_id img_path in
    (add_item (Item img_item) (fst st),
     replace (src_attr img_name) (src_attr (u "images/" ++ img_name))
       (snd st))
  else st.

Definition with_book (b : EpubBook) (pending : list str) (c : converter)
  : converter :=
  {| source_dir := source_dir c; output_file := output_file c; book := b;
     chapters := chapters c; spine := spine c; toc := toc c;
     image_files_to_process := pending |}.

Definition date_str_of (dir_name : str) : str :=
  match search_date dir_name with
  | Some g => g
  | None => []
  end.

Definition chapter_file_name (chapter_id : nat) : str :=
  u "chapter_" ++ str_of_nat chapter_id ++ u ".xhtml".

(** The f-string of lines 304-308. *)
Definition chapter_markup (title date_str clean_content : str) : str :=
  nl ++ indent ++ u "<h1>" ++ title ++ u "</h1>"
  ++ nl ++ indent ++ u "<p class=" ++ quote ++ u "center" ++ quote
  ++ u "><strong>" ++ date_str ++ u "</strong></p>"
  ++ nl ++ indent ++ clean_content ++ nl ++ indent.

(** [HTMLtoEPUBConverter.process_html_file] *)
Definition process_html_file (self : converter) (dir_info : str * str)
    (chapter_id : nat) : converter * option (EpubHtml * str) :=
  let dir_name := fst dir_info in
  let dir_path := snd dir_info in
  let html_path := path_join dir_path index_html in
  if negb (path_exists os html_path) then (self, None)
  else
    let html_content := read_text os html_path in
    let '(title0, clean_content, pending) :=
      clean_html_content [] html_content in
    let title := match title0 with [] => dir_name | _ => title0 end in
    let date_str := date_str_of dir_name in
    let chapter_content := chapter_markup title date_str clean_content in
    let assets_dir := path_join dir_path (u "assets") in
    let '(book', content') :=
      if path_exists os assets_dir
      then fold_left (embed_image dir_path chapter_id) pending
             (book self, chapter_content)
      else (book self, chapter_content) in
    let chapter :=
      {| html_title := title;
         html_file_name := chapter_file_name chapter_id;
         html_lang := u "zh-CN"; html_content := content';
         html_links := [file_name css_file] |} in
    (with_book book' pending self, Some (chapter, title)).

Definition cover_content (count : nat) : str :=
  let i4 := indent ++ u "    " in
  nl ++ indent ++ u "<html>"
  ++ nl ++ indent ++ u "<head>"
  ++ nl ++ i4 ++ u "<title>" ++ collection_title ++ u "</title>"
  ++ nl ++ indent ++ u "</head>"
  ++ nl ++ indent ++ u "<body>"
  ++ nl ++ i4 ++ u "<div style=" ++ quote
  ++ u "text-align: center; padding-top: 20%;" ++ quote ++ u ">"
  ++ nl ++ i4 ++ u "    <h1>" ++ collection_title ++ u "</h1>"
  ++ nl ++ i4 ++ u "    <p>" ++ [20849; 25910; 24405; 32]
  ++ str_of_nat count ++ [32; 31687; 25991; 31456] ++ u "</p>"
  ++ nl ++ i4 ++ u "    <p>" ++ [29983; 25104; 26085; 26399; 58; 32]
  ++ today os ++ u "</p>"
  ++ nl ++ i4 ++ u "</div>"
  ++ nl ++ indent ++ u "</body>"
  ++ nl ++ indent ++ u "</html>"
  ++ nl ++ indent.

Definition cover_page (count : nat) : EpubHtml :=
  {| html_title := [23553; 38754]; html_file_name := u "cover.xhtml";
     html_lang := u "zh-CN"; html_content := cover_content count;
     html_links := [file_name css_file] |}.

Definition toc_page (toc_content : str) : EpubHtml :=
  {| html_title := [30446; 24405]; html_file_name := u "toc.xhtml";
     html_lang := u "zh-CN"; html_content := toc_content;
     html_links := [file_name css_file] |}.

Definition toc_link : Link :=
  {| href := u "toc.xhtml"; link_title := [30446; 24405];
     link_uid := u "toc" |}.

Definition chapter_link (chapter : EpubHtml) (title : str) (chapter_id : nat)
  : Link :=
  {| href := html_file_name chapter; link_title := title;
     link_uid := u "chapter_" ++ str_of_nat chapter_id |}.

Definition toc_entry (chapter : EpubHtml) (dir_name title : str) : str :=
  u "<li><a href=" ++ quote ++ html_file_name chapter ++ quote ++ u ">"
  ++ date_str_of dir_name ++ u " - " ++ title ++ u "</a></li>".

(** [list.insert(i, x)] *)
Definition list_insert {A} (i : nat) (x : A) (l : list A) : list A :=
  firstn i l ++ x :: skipn i l.

(** The body of the loop of lines 383-395, for the directory at index [i]. *)
Definition add_chapter (st : converter * str) (entry : nat * (str * str))
  : converter * str :=
  let '(self, toc_content) := st in
  let '(i, dir_info) := entry in
  match process_html_file self dir_info (i + 1) with
  | (self1, Some (chapter, title)) =>
      ({| source_dir := source_dir self1; output_file := output_file self1;
          book := add_item (Html chapter) (book self1);
          chapters := chapters self1 ++ [chapter];
          spine := spine self1 ++ [SpineDoc chapter];
          toc := toc self1 ++ [chapter_link chapter title (i + 1)];
          image_files_to_process := image_files_to_process self1 |},
       toc_content ++ toc_entry chapter (fst dir_info) title)
  | (self1, None) => (self1, toc_content)
  end.

Definition enumerate {A} (l : list A) : list (nat * A) :=
  combine (seq 0 (length l)) l.

(** [HTMLtoEPUBConverter.create_epub]: the converter when the book is
    handed to [epub.write_epub]. *)
Definition create_epub (self : converter) : converter :=
  let all_dirs := process_directory os (source_dir self) in
  let cover := cover_page (length all_dirs) in
  let self1 :=
    {| source_dir := source_dir self; output_file := output_file self;
       book := add_item (Html cover) (book self);
       chapters := chapters self; spine := spine self ++ [SpineDoc cover];
       toc := toc self;
       image_files_to_process := image_files_to_process self |} in
  let '(self2, toc_content) :=
    fold_left add_chapter (enumerate all_dirs)
      (self1, u "<h1>" ++ [30446; 24405] ++ u "</h1><ul>") in
  let page := toc_page (toc_content ++ u "</ul>") in
  let spine' := list_insert 1 (SpineDoc page) (spine self2) in
  let toc' := list_insert 0 toc_link (toc self2) in
  let b := add_item (Html page) (book self2) in
  {| source_dir := source_dir self2; output_file := output_file self2;
     book :=
       add_item EpubNav
         (add_item EpubNcx
            {| identifier := identifier b; book_title := book_title b;
               language := language b; authors := authors b;
               items := items b; book_spine := spine';
               book_toc := toc' |});
     chapters := chapters self2; spine := spine'; toc := toc';
     image_files_to_process := image_files_to_process self2 |}.

End Converter.

(** ** Vocabulary of the specification *)

(** [w] has the form four digits, hyphen, two digits, hyphen, two digits. *)
Definition date_shape (w : str) : Prop :=
  exists y1 y2 y3 y4 m1 m2 d1 d2,
    w = [y1; y2; y3; y4; 45; m1; m2; 45; d1; d2]
    /\ Forall (fun c => isdigit c = true) [y1; y2; y3; y4; m1; m2; d1; d2].

(** [w] is the substring of [s] that starts at index [i]. *)
Definition occurs_at (w s : str) (i : nat) : Prop :=
  exists pre post, s = pre ++ w ++ post /\ length pre = i.

(** [w] is the leftmost substring of [s] of that form. *)
Definition leftmost_date (s w : str) : Prop :=
  exists i, occurs_at w s i /\ date_shape w
            /\ forall j w', occurs_at w' s j -> date_shape w' -> (i <= j)%nat.

Definition no_date (s : str) : Prop :=
  forall i w, occurs_at w s i -> ~ date_shape w.

(** The date a matched substring stands for in the result. *)
Definition date_or_default (w : str) : datetime :=
  match strptime_ymd w with
  | Some d => d
  | None => default_date
  end.

(** The ten characters that write [y]-[m]-[d] with ASCII digits. *)
Definition iso_text (y m d : N) : str :=
  [48 + y / 1000 mod 10; 48 + y / 100 mod 10; 48 + y / 10 mod 10;
   48 + y mod 10; 45; 48 + m / 10 mod 10; 48 + m mod 10; 45;
   48 + d / 10 mod 10; 48 + d mod 10].

Definition date_eqb (a b : datetime) : bool :=
  (year a =? year b) && (month a =? month b) && (day a =? day b).

(** The sort key of [process_directory]. *)
Definition dir_date (x : str * str) : datetime :=
  extract_date_from_dirname (fst x).

(** The test an entry of the source root passes to be an article. *)
Definition is_article (os : os_env) (source_dir item : str) : bool :=
  isdir os (path_join source_dir item)
  && negb (startswith [dot] item)
  && path_exists os (path_join (path_join source_dir item) index_html).

(** The chapter and title [process_html_file] makes for the directory at
    index [fst entry] of the sorted list; they do not depend on the state
    of the converter. *)
Definition chapter_of (parse : str -> node) (os : os_env)
    (entry : nat * (str * str)) : option (EpubHtml * str) :=
  snd (process_html_file parse os (init [] []) (snd entry) (fst entry + 1)).

Definition link_of (e : nat * (EpubHtml * str)) : Link :=
  chapter_link (fst (snd e)) (snd (snd e)) (fst e + 1).

(** The file a spine entry stands for. *)
Definition spine_file (e : spine_entry) : str :=
  match e with
  | SpineNav => u "nav"
  | SpineDoc h => html_file_name h
  end.

(** [q] addresses [r] or an element that holds it. *)
Definition is_prefix (q r : path) : Prop := exists x, r = q ++ x.

(** The paragraphs [_remove_footer_elements] takes out of the tree. *)
Definition removed_paragraphs (content_div : node) : list path :=
  if (length (find_all_paths is_p content_div) <? 3)%nat then []
  else footer_elements content_div.

(** [remove_at] below a tag, on its list of children. *)
Definition remove_in_children (r : path) (cs : list node) : list node :=
  match r with
  | [] => cs
  | [j] => remove_nth j cs
  | j :: r' => update_nth j (remove_at r') cs
  end.

Definition shift_path (q : path) : path :=
  match q with
  | [] => []
  | j :: q' => S j :: q'
  end.

(** [lookup] below a tag, on its list of children. *)
Definition lookup_in_children (q : path) (cs : list node) : option node :=
  match q with
  | [] => None
  | j :: q' =>
      match nth_error cs j with
      | Some c => lookup q' c
      | None => None
      end
  end.

(** ** Sample documents *)

Definition text_p (s : str) : node := Tag (u "p") [] [NavigableString s].

(** What the parser makes of the markup of a content container: the
    container below [html] and [body]. *)
Definition wrapped (content_div : node) : node :=
  soup_of [Tag (u "html") [] [Tag (u "body") [] [content_div]]].

Definition content_container (children : list node) : node :=
  Tag (u "div") [(u "id", js_content)] children.

(** Two paragraphs, the second of which holds an address. *)
Definition two_paragraphs : node :=
  wrapped (content_container [text_p (u "Hello"); text_p (u "me@example.org")]).

(** Four paragraphs; the last two are a signature and an address. *)
Definition four_paragraphs : node :=
  wrapped
    (content_container
       [text_p (u "One"); text_p (u "Two, at some length");
        text_p (u "Buddhavamsa"); text_p (u "me@example.org")]).

(** ** Vocabulary for the styles and the images *)

Definition allowed_properties : list str :=
  [u "text-align"; u "text-indent"; u "font-weight"].

(** A declaration [property: value] of an allowed property; the value
    holds no semicolon, so that it is the whole of a declaration. *)
Definition allowed_declaration (d : str) : Prop :=
  exists property value,
    d = property ++ u ": " ++ value
    /\ In property allowed_properties
    /\ ~ In semicolon value.

(** No element carries the identifier or the class of the content
    container. *)
Definition no_content_container (soup : node) : Prop :=
  forall t, In t (descendants soup) ->
    has_id js_content t = false /\ has_class rich_media_content t = false.

(** The parser of the samples: the trees the parser returns on the strings
    a run hands to it; an empty document on any other string. *)
Definition table_parse (table : list (str * node)) (s : str) : node :=
  match List.find (fun e => str_eqb (fst e) s) table with
  | Some e => snd e
  | None => soup_of []
  end.

(** A paragraph with a style, a heading and a paragraph with two images,
    one local and one remote. *)
Definition styled_document : node :=
  wrapped
    (content_container
       [Tag (u "p")
          [(u "style", u "color: red; text-align: center; font-weight: bold")]
          [NavigableString (u "Text")];
        Tag (u "h2") [(u "style", u "color: blue")]
          [NavigableString (u "Heading")];
        Tag (u "p") [(u "style", u "color: red")]
          [Tag (u "img")
             [(u "src", u "./assets/x.png"); (u "data-w", u "640");
              (u "alt", u "x")] [];
           Tag (u "img")
             [(u "src", u "http://example.org/y.png"); (u "width", u "10")]
             []]]).

(** ** A sample source tree

    The root [/books] lists two article directories, a hidden directory
    and a file.  The article [2024-03-01-a] has a heading, a content
    container with a comment and three images, of which [assets/x.png] is
    missing on disk while [assets/sub/x.png] and [assets/y.png] exist, and
    after the container a paragraph with the image [assets/z.png], which
    exists; the article [no-date-dir] has neither a heading nor a content
    container. *)

(** Whether the book holds a resource with the given file name. *)
Definition has_resource (b : EpubBook) (name : str) : bool :=
  existsb
    (fun x => match x with
              | Item it => str_eqb (file_name it) name
              | _ => false
              end)
    (items b).

Definition img_of (src : str) : node := Tag (u "img") [(src_key, src)] [].

Definition source_a : str :=
  u "<html><head><title>A</title><meta charset='utf-8'></head><body><h1>Title A</h1><div id='js_content'><p>One</p><!-- note --><p><img src='./assets/x.png'></p><p><img src='./assets/sub/x.png'></p><p><img src='./assets/y.png'></p><p>Last words of the article.</p></div><p><img src='./assets/z.png'></p><script>track()</script></body></html>".

Definition container_a (between : list node) : node :=
  content_container
    ([text_p (u "One"); Comment (u " note ");
      Tag (u "p") [] [img_of (u "./assets/x.png")]] ++ between
     ++ [Tag (u "p") [] [img_of (u "./assets/sub/x.png")]] ++ between
     ++ [Tag (u "p") [] [img_of (u "./assets/y.png")]] ++ between
     ++ [text_p (u "Last words of the article.")]).

Definition document_a : node :=
  soup_of
    [Tag (u "html") []
       [Tag (u "head") []
          [Tag (u "title") [] [NavigableString (u "A")];
           Tag (u "meta") [(u "charset", u "utf-8")] []];
        Tag (u "body") []
          [Tag (u "h1") [] [NavigableString (u "Title A")];
           container_a [];
           Tag (u "p") [] [img_of (u "./assets/z.png")];
           Tag (u "script") [] [NavigableString (u "track()")]]]].

Definition source_b : str :=
  u "<html><body><p>Just text</p></body></html>".

Definition document_b : node :=
  soup_of [Tag (u "html") [] [Tag (u "body") [] [text_p (u "Just text")]]].

(** The parser on the four strings of a run over the sample: the two
    sources; the markup of the container of [2024-03-01-a], read back
    below [html] and [body]; and the normalised markup, in which the line
    breaks put between adjacent paragraphs are read back as text. *)
Definition sample_parse : str -> node :=
  table_parse
    [(source_a, document_a);
     (source_b, document_b);
     (decode (container_a []), wrapped (container_a []));
     (decode (wrapped (container_a [NavigableString [10]])),
      wrapped (container_a [NavigableString [10]]))].

Definition dir_a : str := u "/books/2024-03-01-a".
Definition dir_b : str := u "/books/no-date-dir".

Definition one_of (l : list str) (p : str) : bool := existsb (str_eqb p) l.

Definition sample_os : os_env :=
  {| listdir := fun p =>
       if str_eqb p (u "/books")
       then [u "2024-03-01-a"; u ".git"; u "notes.txt"; u "no-date-dir"]
       else [];
     isdir := one_of [dir_a; dir_b; u "/books/.git"];
     path_exists :=
       one_of [dir_a; dir_b; u "/books/.git"; u "/books/notes.txt";
               dir_a ++ u "/index.html"; dir_b ++ u "/index.html";
               dir_a ++ u "/assets"; dir_a ++ u "/assets/sub";
               dir_a ++ u "/./assets/sub/x.png";
               dir_a ++ u "/./assets/y.png";
               dir_a ++ u "/./assets/z.png"];
     read_text := fun p =>
       if str_eqb p (dir_a ++ u "/index.html") then source_a
       else if str_eqb p (dir_b ++ u "/index.html") then source_b
       else [];
     read_bytes := fun p =>
       if str_eqb p (dir_a ++ u "/./assets/sub/x.png")
       then [Byte.x89; Byte.x50; Byte.x4e; Byte.x47; Byte.x01]
       else if str_eqb p (dir_a ++ u "/./assets/y.png")
       then [Byte.x89; Byte.x50; Byte.x4e; Byte.x47; Byte.x02]
       else [];
     today := u "2026-11-04" |}.

Definition sample_book : converter :=
  create_epub sample_parse sample_os (init (u "/books") (u "/books/out.epub")).

(** ** Vocabulary for the images *)

(** Letters, digits, underscore and hyphen. *)
Definition is_word (c : N) : bool :=
  in_range 48 57 c || in_range 65 90 c || in_range 97 122 c
  || (c =? 95) || (c =? 45).

(** A non-empty file name stem made of such characters. *)
Definition simple_stem (stem : str) : Prop :=
  stem <> [] /\ forallb is_word stem = true.

(** The characters of a file name with such a stem: those and the dot. *)
Definition is_name_char (c : N) : bool := is_word c || (c =? dot).

(** The markup of an image element whose only attribute is [src]. *)
Definition img_markup (src : str) : str :=
  u "<img " ++ src_attr src ++ u "/>".

Definition images_dir : str := u "images/".

(** The text of [src_attr] before the value. *)
Definition src_open : str := u "src=" ++ quote.

(** [s] is [old] with [ins] put in at places that come right after a [p]
    and right before a [q]; this is what replacing [p ++ q] by
    [p ++ ins ++ q] does to a string. *)
Inductive inserted (p ins q : str) : str -> str -> Prop :=
| inserted_none (s : str) : inserted p ins q s s
| inserted_here (x y out : str) :
    endswith p x = true -> startswith q y = true ->
    inserted p ins q y out ->
    inserted p ins q (x ++ y) (x ++ ins ++ out).

(** ** Vocabulary for the further properties *)

(** A date of the calendar, in the range of [datetime]. *)
Definition valid_date (d : datetime) : Prop :=
  1 <= year d <= 9999 /\ 1 <= month d <= 12
  /\ 1 <= day d <= days_in_month (year d) (month d).

(** The order in which [process_directory] sorts. *)
Definition date_ordered (l : list (str * str)) : Prop :=
  StronglySorted (fun a b => date_leb (dir_date a) (dir_date b) = true) l.

(** A source root whose listing is in the order of the dates. *)
Definition ordered_os : os_env :=
  {| listdir := fun _ => [u "2023-12-31-b"; u "notes"; u "2024-03-01-a"];
     isdir := fun p => negb (endswith (u "notes") p);
     path_exists := fun _ => true;
     read_text := fun _ => [];
     read_bytes := fun _ => [];
     today := u "2026-11-04" |}.

(** [s] neither starts nor ends with white space. *)
Definition stripped (s : str) : Prop :=
  forall c, hd_error s = Some c \/ hd_error (rev s) = Some c ->
            isspace c = false.

(** What the two removal loops of [clean_html_content] look for. *)
Definition unwanted (d : node) : bool :=
  named unwanted_tags d || starts_like_comment d.

(** The value of [tag.get('src', '')] for a node. *)
Definition src_of (t : node) : str :=
  match t with
  | Tag _ a _ => get src_key [] a
  | Str _ _ => []
  end.

(** The end of a paragraph right before the start of another, and the
    same with a line feed between the two. *)
Definition adjacent_paragraphs : str := u "</p><p".
Definition separated_paragraphs : str := u "</p>" ++ [10] ++ u "<p".

Definition not_line_feed (c : N) : bool := negb (c =? 10).

(** Three paragraphs, of which the second holds an address. *)
Definition address_inside : node :=
  wrapped
    (content_container
       [text_p (u "One"); text_p (u "me@example.org");
        text_p (u "Three, the end of it")]).

(** The value [process_html_file] leaves in [self.image_files_to_process]
    for the article in [dir_path], and the resources it adds to the book
    for it. *)
Definition pending_images (parse : str -> node) (os : os_env)
    (dir_path : str) : list str :=
  snd (clean_html_content parse []
         (read_text os (path_join dir_path index_html))).

Definition chapter_resources (parse : str -> node) (os : os_env)
    (dir_path : str) (chapter_id : nat) : list book_item :=
  if path_exists os (path_join dir_path (u "assets")) then
    map (fun p => Item (image_item os dir_path chapter_id p))
      (filter (fun p => path_exists os (path_join dir_path p))
         (pending_images parse os dir_path))
  else [].

(** The media types the script knows, by extension. *)
Definition media_types : list (str * str) :=
  [(u "jpg", u "image/jpeg"); (u "jpeg", u "image/jpeg");
   (u "png", u "image/png"); (u "gif", u "image/gif");
   (u "svg", u "image/svg+xml")].

Definition media_type_by_extension (ext : str) : str :=
  match List.find (fun e => str_eqb (lower ext) (fst e)) media_types with
  | Some e => snd e
  | None => u "image/jpeg"
  end.

(** An image resource of the chapter [chapter_id]: a file directly below
    [images/], named after the file it was read from. *)
Definition image_resource (os : os_env) (dir_path : str) (chapter_id : nat)
    (pending : list str) (x : book_item) : Prop :=
  exists it p,
    x = Item it
    /\ In p pending
    /\ startswith assets_prefix p = true
    /\ path_exists os (path_join dir_path p) = true
    /\ file_name it = images_dir ++ basename p
    /\ existsb (N.eqb slash) (basename p) = false
    /\ uid it = u "image_" ++ str_of_nat chapter_id ++ u "_" ++ basename p
    /\ In (media_type it) (map snd media_types)
    /\ content it = Bytes (read_bytes os (path_join dir_path p)).

(** A chapter of a run: its number, the directory it is made from, and
    what [process_html_file] returns for it. *)
Record made := {
  made_index : nat; made_dir : str * str;
  made_chapter : EpubHtml; made_title : str }.

Definition made_of (parse : str -> node) (os : os_env)
    (es : list (nat * (str * str))) : list made :=
  flat_map
    (fun e =>
       match chapter_of parse os e with
       | Some (c, t) =>
           [{| made_index := fst e + 1; made_dir := snd e;
               made_chapter := c; made_title := t |}]
       | None => []
       end)
    es.

(** The chapters of a run over the sorted directories [dirs]. *)
Definition made_chapters (parse : str -> node) (os : os_env)
    (dirs : list (str * str)) : list made :=
  made_of parse os (enumerate dirs).

(** What a run adds to the book for a chapter: its images, then the
    chapter. *)
Definition chapter_items (parse : str -> node) (os : os_env) (m : made)
  : list book_item :=
  chapter_resources parse os (snd (made_dir m)) (made_index m)
  ++ [Html (made_chapter m)].

(** The entry of the TOC page and the link of the navigation list for a
    chapter. *)
Definition toc_line (m : made) : str :=
  u "<li><a href=" ++ quote ++ chapter_file_name (made_index m) ++ quote
  ++ u ">" ++ date_str_of (fst (made_dir m)) ++ u " - " ++ made_title m
  ++ u "</a></li>".

Definition made_link (m : made) : Link :=
  {| href := chapter_file_name (made_index m); link_title := made_title m;
     link_uid := u "chapter_" ++ str_of_nat (made_index m) |}.

Definition toc_header : str := u "<h1>" ++ [30446; 24405] ++ u "</h1><ul>".

(** The content of the TOC page of a run over [dirs]. *)
Definition toc_text (parse : str -> node) (os : os_env)
    (dirs : list (str * str)) : str :=
  toc_header ++ flat_map toc_line (made_chapters parse os dirs) ++ u "</ul>".

(** The documents of a spine. *)
Definition spine_documents (l : list spine_entry) : list EpubHtml :=
  flat_map (fun e => match e with SpineNav => [] | SpineDoc h => [h] end) l.

(** The metadata of a book: identifier, title, language and authors. *)
Definition metadata (b : EpubBook) : str * str * str * list str :=
  (identifier b, book_title b, language b, authors b).

(** The sample source root with its listing in the opposite order. *)
Definition reversed_os : os_env :=
  {| listdir := fun p => rev (listdir sample_os p);
     isdir := isdir sample_os; path_exists := path_exists sample_os;
     read_text := read_text sample_os; read_bytes := read_bytes sample_os;
     today := today sample_os |}.

(** A label for an item of the book: the file name the script gives it,
    or the class of a navigation file. *)
Definition item_label (x : book_item) : str :=
  match x with
  | Item it => file_name it
  | Html h => html_file_name h
  | EpubNcx => u "EpubNcx"
  | EpubNav => u "EpubNav"
  end.

(** The value of a declaration as the style normaliser reads it: it is not
    empty, holds no semicolon and does not start with white space. *)
Definition plain_value (v : str) : Prop :=
  ~ In semicolon v
  /\ exists c v', v = c :: v' /\ isspace c = false.

(** The title of the chapter made from the directory [dir_name] for a
    document whose tree, after the removal loops, is [soup]. *)
Definition chapter_title (dir_name : str) (soup : node) : str :=
  match find (named [u "h1"]) soup with
  | Some h =>
      if forallb isspace (get_text h) then dir_name else strip (get_text h)
  | None => dir_name
  end.

(** ** Vocabulary and samples for the image references *)

(** The characters the serialiser writes as they are between double
    quotes: all but the quotation mark, the ampersand and the two angle
    brackets. *)
Definition plain_char (c : N) : bool :=
  negb ((c =? 34) || (c =? 38) || (c =? 60) || (c =? 62)).

Definition plain_name (name : str) : Prop := forallb plain_char name = true.

(** What [splitext] asks of the part of a file name before the extension:
    it is not empty and not made of dots only. *)
Definition file_stem (stem : str) : Prop := forallb (N.eqb dot) stem = false.

(** [tag.attrs] is a dictionary: it has every key once. *)
Definition dictionary (a : attributes) : Prop := NoDup (map fst a).


(** An article with three images: one with a further attribute, one
    whose name holds an ampersand and one whose name is an extension
    only.  The three files exist. *)
Definition source_c : str :=
  u "<html><body><h1>Title C</h1><div id='js_content'><p>Intro</p><p><img data-w='640' src='./assets/y.png'></p><p><img src='./assets/a&amp;b.png'></p><p><img src='./assets/.png'></p><p>Closing words of the article.</p></div></body></html>".

Definition wide_image : node :=
  Tag (u "img") [(u "data-w", u "640"); (src_key, u "./assets/y.png")] [].

Definition container_c (between : list node) : node :=
  content_container
    ([text_p (u "Intro")] ++ between
     ++ [Tag (u "p") [] [wide_image]] ++ between
     ++ [Tag (u "p") [] [img_of (u "./assets/a&b.png")]] ++ between
     ++ [Tag (u "p") [] [img_of (u "./assets/.png")]] ++ between
     ++ [text_p (u "Closing words of the article.")]).

Definition document_c : node :=
  soup_of
    [Tag (u "html") []
       [Tag (u "body") []
          [Tag (u "h1") [] [NavigableString (u "Title C")];
           container_c []]]].

Definition gallery_parse : str -> node :=
  table_parse
    [(source_c, document_c);
     (decode (container_c []), wrapped (container_c []));
     (decode (wrapped (container_c [NavigableString [10]])),
      wrapped (container_c [NavigableString [10]]))].

Definition dir_c : str := u "/books/2024-05-01-c".

Definition gallery_os : os_env :=
  {| listdir := fun _ => [];
     isdir := one_of [dir_c];
     path_exists :=
       one_of [dir_c; dir_c ++ u "/index.html"; dir_c ++ u "/assets";
               dir_c ++ u "/./assets/y.png"; dir_c ++ u "/./assets/a&b.png";
               dir_c ++ u "/./assets/.png"];
     read_text := fun p =>
       if str_eqb p (dir_c ++ u "/index.html") then source_c else [];
     read_bytes := fun p =>
       if str_eqb p (dir_c ++ u "/./assets/y.png")
       then [Byte.x89; Byte.x50; Byte.x4e; Byte.x47; Byte.x03]
       else if str_eqb p (dir_c ++ u "/./assets/a&b.png")
       then [Byte.x89; Byte.x50; Byte.x4e; Byte.x47; Byte.x04]
       else if str_eqb p (dir_c ++ u "/./assets/.png")
       then [Byte.x89; Byte.x50; Byte.x4e; Byte.x47; Byte.x05]
       else [];
     today := u "2026-11-04" |}.

(** The media types of the resources of the book with the file name
    [name]. *)
Definition resource_types (b : EpubBook) (name : str) : list str :=
  flat_map
    (fun x => match x with
              | Item it =>
                  if str_eqb (file_name it) name then [media_type it] else []
              | _ => []
              end)
    (items b).

(** The attributes that the image loop keeps. *)
Definition keeps_key (kv : str * str) : bool :=
  str_eqb (fst kv) src_key || str_eqb (fst kv) alt_key.

(* ================================================================== *)
(** * Part II: properties                                              *)
(* ================================================================== *)

(** ** Strings *)

Lemma str_eqb_eq (a b : str) : str_eqb a b = true <-> a = b.
Proof.
  revert b; induction a as [|x a IH]; intros [|y b]; simpl;
    try (split; [discriminate | congruence]); try tauto.
  rewrite andb_true_iff, N.eqb_eq, IH. split.
  - intros [-> ->]; reflexivity.
  - intros H; injection H; auto.
Qed.

Lemma str_eqb_refl (a : str) : str_eqb a a = true.
Proof. apply str_eqb_eq; reflexivity. Qed.

Lemma startswith_iff (p s : str) :
  startswith p s = true <-> exists r, s = p ++ r.
Proof.
  revert s; induction p as [|x p IH]; intros s; simpl.
  - split; eauto.
  - destruct s as [|y s].
    + split; [discriminate | intros [r H]; discriminate].
    + rewrite andb_true_iff, N.eqb_eq, IH. split.
      * intros [-> [r ->]]. eauto.
      * intros [r H]. injection H as -> ->. eauto.
Qed.

Lemma startswith_app (p r : str) : startswith p (p ++ r) = true.
Proof. apply startswith_iff; eauto. Qed.

Lemma contains_iff (p s : str) :
  contains p s = true <-> exists a b, s = a ++ p ++ b.
Proof.
  induction s as [|c s IH].
  - simpl. rewrite orb_false_r, startswith_iff. split.
    + intros [r H]. exists [], r. exact H.
    + intros [a [b H]]. destruct a; [|discriminate]. eauto.
  - cbn [contains]. rewrite orb_true_iff, startswith_iff, IH. split.
    + intros [[r H] | [a [b H]]].
      * exists [], r. exact H.
      * exists (c :: a), b. rewrite H. reflexivity.
    + intros [[|x a] [b H]].
      * left. eauto.
      * right. injection H as _ H. eauto.
Qed.

(** ** The date extractor *)

Lemma date_pattern_shape (w : str) : date_pattern w = true <-> date_shape w.
Proof.
  split.
  - intros H.
    do 10 (destruct w as [|? w]; [discriminate H|]).
    destruct w; [|discriminate H].
    cbn [date_pattern] in H.
    repeat (apply andb_prop in H; destruct H as [H ?]).
    repeat match goal with E : (_ =? _) = true |- _ =>
             apply N.eqb_eq in E; subst end.
    unfold date_shape. do 8 eexists. split; [reflexivity|].
    repeat constructor; assumption.
  - intros (y1 & y2 & y3 & y4 & m1 & m2 & d1 & d2 & -> & F).
    repeat match goal with F : Forall _ (_ :: _) |- _ =>
             apply Forall_cons_iff in F; destruct F as [? F] end.
    cbn [date_pattern].
    repeat match goal with E : isdigit _ = true |- _ => rewrite E; clear E end.
    reflexivity.
Qed.

Lemma date_shape_length (w : str) : date_shape w -> length w = 10%nat.
Proof.
  intros (? & ? & ? & ? & ? & ? & ? & ? & -> & _). reflexivity.
Qed.

Lemma occurs_at_zero (w s : str) :
  occurs_at w s 0 -> w = firstn (length w) s.
Proof.
  intros (pre & post & -> & Hl). destruct pre; [|discriminate].
  simpl. rewrite firstn_app, Nat.sub_diag, firstn_all. simpl.
  rewrite app_nil_r. reflexivity.
Qed.

Lemma occurs_at_cons (w s : str) (c : N) (i : nat) :
  occurs_at w (c :: s) (S i) <-> occurs_at w s i.
Proof.
  split.
  - intros (pre & post & E & Hl). destruct pre as [|x pre]; [discriminate|].
    injection E as _ E. injection Hl as Hl. exists pre, post. auto.
  - intros (pre & post & -> & Hl). exists (c :: pre), post. simpl. auto.
Qed.

Lemma search_date_spec (s : str) :
  match search_date s with
  | Some w => leftmost_date s w
  | None => no_date s
  end.
Proof.
  induction s as [|c s IH].
  - simpl. intros i w (pre & post & E & _) Hs.
    apply date_shape_length in Hs.
    destruct pre; [|discriminate]. destruct w; discriminate.
  - cbn [search_date].
    destruct (date_pattern (firstn 10 (c :: s))) eqn:P.
    + exists 0%nat. split; [|split].
      * exists [], (skipn 10 (c :: s)). split; [|reflexivity].
        symmetry. exact (firstn_skipn 10 (c :: s)).
      * apply date_pattern_shape. exact P.
      * intros; lia.
    + assert (N0 : forall w, occurs_at w (c :: s) 0 -> ~ date_shape w).
      { intros w Ho Hs. pose proof (date_shape_length _ Hs) as L.
        apply occurs_at_zero in Ho. rewrite L in Ho. subst w.
        apply date_pattern_shape in Hs. congruence. }
      destruct (search_date s) as [w|].
      * destruct IH as (i & Ho & Hs & Hmin).
        exists (S i). split; [|split]; auto.
        -- apply occurs_at_cons. exact Ho.
        -- intros [|j] w' Ho' Hs'.
           ++ exfalso. eapply N0; eauto.
           ++ apply occurs_at_cons in Ho'. specialize (Hmin j w' Ho' Hs'). lia.
      * intros [|j] w Ho Hs.
        -- eapply N0; eauto.
        -- apply occurs_at_cons in Ho. eapply IH; eauto.
Qed.

(** C2 (as amended): the leftmost substring of the form four digits,
    hyphen, two digits, hyphen, two digits decides the result.  When it
    parses as a year-month-day the function returns that date; when it does
    not parse, or when the name has no such substring, the function returns
    2000-01-01.  The function is total: no error reaches the caller. *)
Theorem extract_date_from_dirname_leftmost (dirname : str) :
  (exists w, leftmost_date dirname w
             /\ extract_date_from_dirname dirname = date_or_default w)
  \/ (no_date dirname /\ extract_date_from_dirname dirname = default_date).
Proof.
  unfold extract_date_from_dirname, date_or_default.
  pose proof (search_date_spec dirname) as H.
  destruct (search_date dirname) as [w|].
  - left. exists w. split; [exact H | reflexivity].
  - right. split; [exact H | reflexivity].
Qed.

(** C2 as stated fails: a later substring that is a valid date does not
    count when an earlier one matches the pattern and fails to parse. *)
Lemma extract_date_ignores_later_match :
  exists w d i,
    occurs_at w (u "2024-13-01_2024-03-01") i
    /\ date_shape w
    /\ strptime_ymd w = Some d
    /\ extract_date_from_dirname (u "2024-13-01_2024-03-01") <> d.
Proof.
  exists (u "2024-03-01"), (mkdate 2024 3 1), 11%nat.
  split; [|split; [|split]].
  - exists (u "2024-13-01_"), []. split; reflexivity.
  - apply date_pattern_shape. reflexivity.
  - reflexivity.
  - vm_compute. discriminate.
Qed.

(** Directory names and their dates: a date inside a name, a month that
    does not exist, the 29th of February, a year in full-width digits, and
    a name without a date. *)
Example date_inside_name :
  extract_date_from_dirname (u "12024-01-011") = mkdate 2024 1 1.
Proof. reflexivity. Qed.

Example date_with_month_13 :
  extract_date_from_dirname (u "2024-13-01") = default_date.
Proof. reflexivity. Qed.

Example date_29_february :
  extract_date_from_dirname (u "2023-02-29") = default_date
  /\ extract_date_from_dirname (u "2024-02-29") = mkdate 2024 2 29.
Proof. split; reflexivity. Qed.

Example date_full_width_year :
  extract_date_from_dirname ([65298; 65296; 65298; 65300] ++ u "-03-01")
  = mkdate 2024 3 1.
Proof. reflexivity. Qed.

Example date_absent :
  extract_date_from_dirname (u "no-date-dir") = default_date.
Proof. reflexivity. Qed.

(** *** What [strptime_ymd] reads from ASCII digits *)

Lemma digit_cases (a : N) :
  a < 10 ->
  a = 0 \/ a = 1 \/ a = 2 \/ a = 3 \/ a = 4 \/ a = 5 \/ a = 6 \/ a = 7
  \/ a = 8 \/ a = 9.
Proof. lia. Qed.

Ltac each_digit a H :=
  destruct (digit_cases a H) as [->|[->|[->|[->|[->|[->|[->|[->|[->| ->]]]]]]]]].

Lemma decimal_value_ascii (a : N) : a < 10 -> decimal_value (48 + a) = Some a.
Proof. intros H. each_digit a H; reflexivity. Qed.

Lemma month_match {A} (K : str -> str -> option A) (e f : N) (r : str) :
  e < 10 -> f < 10 ->
  first_alt month_alts
    (fun m r1 => match r1 with 45 :: r2 => K m r2 | _ => None end)
    (48 + e :: 48 + f :: 45 :: r)
  = if in_range 1 12 (10 * e + f) then K [48 + e; 48 + f] r else None.
Proof.
  intros He Hf. each_digit e He; each_digit f Hf; cbn;
    try reflexivity; destruct (K _ _); reflexivity.
Qed.

Lemma day_match {A} (F : str -> str -> A) (g h : N) :
  g < 10 -> h < 10 ->
  first_alt day_alts (fun d r3 => Some (F d r3)) [48 + g; 48 + h]
  = if in_range 1 31 (10 * g + h) then Some (F [48 + g; 48 + h] [])
    else if g =? 0 then None
    else Some (F [48 + g] [48 + h]).
Proof.
  intros Hg Hh. each_digit g Hg; each_digit h Hh; reflexivity.
Qed.

Lemma int_of_two_digits (g h : N) :
  g < 10 -> h < 10 ->
  int_of_digits (lstrip [48 + g; 48 + h]) = Some (10 * g + h).
Proof.
  intros Hg Hh. each_digit g Hg; each_digit h Hh; reflexivity.
Qed.

Lemma four_digits (y : N) :
  y <= 9999 ->
  10 * (10 * (10 * (10 * 0 + y / 1000 mod 10) + y / 100 mod 10)
        + y / 10 mod 10) + y mod 10 = y.
Proof.
  intros H.
  replace (y / 1000) with (y / 10 / 10 / 10)
    by (rewrite !N.Div0.div_div; reflexivity).
  replace (y / 100) with (y / 10 / 10)
    by (rewrite !N.Div0.div_div; reflexivity).
  pose proof (N.div_mod y 10) as E1.
  pose proof (N.div_mod (y / 10) 10) as E2.
  pose proof (N.div_mod (y / 10 / 10) 10) as E3.
  pose proof (N.div_mod (y / 10 / 10 / 10) 10) as E4.
  pose proof (N.mod_lt y 10) as L1.
  pose proof (N.mod_lt (y / 10) 10) as L2.
  pose proof (N.mod_lt (y / 10 / 10) 10) as L3.
  pose proof (N.mod_lt (y / 10 / 10 / 10) 10) as L4.
  generalize dependent (y mod 10). generalize dependent (y / 10 mod 10).
  generalize dependent (y / 10 / 10 mod 10).
  generalize dependent (y / 10 / 10 / 10 mod 10).
  generalize dependent (y / 10 / 10 / 10 / 10).
  generalize dependent (y / 10 / 10 / 10).
  generalize dependent (y / 10 / 10).
  generalize dependent (y / 10).
  intros. lia.
Qed.

Lemma two_digits (m : N) : m <= 99 -> 10 * (m / 10 mod 10) + m mod 10 = m.
Proof.
  intros H.
  pose proof (N.div_mod m 10) as E1.
  pose proof (N.div_mod (m / 10) 10) as E2.
  pose proof (N.mod_lt m 10) as L1.
  pose proof (N.mod_lt (m / 10) 10) as L2.
  generalize dependent (m mod 10). generalize dependent (m / 10 mod 10).
  generalize dependent (m / 10 / 10). generalize dependent (m / 10).
  intros. lia.
Qed.

(** For a year of at most four digits and a month and a day of at most two,
    written with ASCII digits, parsing succeeds exactly on the dates of the
    calendar and gives back the numbers written. *)
Lemma strptime_ymd_iso_text (y m d : N) :
  y <= 9999 -> m <= 99 -> d <= 99 ->
  strptime_ymd (iso_text y m d) = make_datetime y m d.
Proof.
  intros Hy Hm Hd. unfold strptime_ymd, iso_text, format_match.
  assert (D : forall a, a < 10 -> isdigit (48 + a) = true).
  { intros a Ha. unfold isdigit. rewrite decimal_value_ascii; auto. }
  rewrite !D by (apply N.mod_lt; lia). cbn [andb].
  rewrite month_match by (apply N.mod_lt; lia).
  rewrite (two_digits m Hm).
  unfold make_datetime.
  destruct (in_range 1 12 m) eqn:Rm;
    [|rewrite andb_false_r; reflexivity].
  rewrite day_match by (apply N.mod_lt; lia).
  rewrite (two_digits d Hd).
  assert (Dm : days_in_month y m <= 31).
  { unfold days_in_month.
    repeat match goal with |- context [if ?b then _ else _] => destruct b end;
      lia. }
  destruct (in_range 1 31 d) eqn:Rd.
  - pose proof (int_of_two_digits (d / 10 mod 10) (d mod 10)) as Id.
    pose proof (int_of_two_digits (m / 10 mod 10) (m mod 10)) as Im.
    assert (L : forall a b, a < 10 -> b < 10 ->
                lstrip [48 + a; 48 + b] = [48 + a; 48 + b]).
    { intros a b Ha Hb. each_digit a Ha; reflexivity. }
    rewrite L in Im by (apply N.mod_lt; lia).
    rewrite Id, Im by (apply N.mod_lt; lia).
    unfold int_of_digits. cbn [fold_left].
    rewrite !decimal_value_ascii by (apply N.mod_lt; lia).
    rewrite (four_digits y Hy), (two_digits m Hm), (two_digits d Hd), Rm.
    reflexivity.
  - assert (in_range 1 (days_in_month y m) d = false) as ->.
    { unfold in_range in *. apply andb_false_iff in Rd.
      apply andb_false_iff.
      destruct Rd as [Rd|Rd]; [left; exact Rd | right].
      apply N.leb_gt in Rd. apply N.leb_gt. lia. }
    rewrite andb_false_r.
    destruct (d / 10 mod 10 =? 0); reflexivity.
Qed.

(** ** Sorting *)

Section SortFacts.
Context {A K : Type} (leb eqb : K -> K -> bool) (key : A -> K).
Hypothesis leb_total : forall a b, leb a b = false -> leb b a = true.
Hypothesis leb_trans :
  forall a b c, leb a b = true -> leb b c = true -> leb a c = true.
Hypothesis eqb_trans_leb :
  forall a b c, eqb a c = true -> leb a b = false -> eqb b c = false.

Let le (x y : A) : Prop := leb (key x) (key y) = true.

Lemma insert_by_perm (x : A) (l : list A) :
  Permutation (x :: l) (insert_by leb key x l).
Proof.
  induction l as [|y l IH]; simpl; [reflexivity|].
  destruct (leb (key x) (key y)); [reflexivity|].
  rewrite perm_swap. constructor. exact IH.
Qed.

Lemma sort_by_perm (l : list A) : Permutation l (sort_by leb key l).
Proof.
  induction l as [|x l IH]; simpl; [reflexivity|].
  rewrite <- insert_by_perm. constructor. exact IH.
Qed.

Lemma insert_by_sorted (x : A) (l : list A) :
  StronglySorted le l -> StronglySorted le (insert_by leb key x l).
Proof.
  induction l as [|y l IH]; intros S; simpl.
  - repeat constructor.
  - inversion S as [|? ? S' F]; subst.
    destruct (leb (key x) (key y)) eqn:E.
    + constructor; [exact S|]. constructor; [exact E|].
      eapply Forall_impl; [|exact F]. intros z Hz.
      unfold le in *. eapply leb_trans; eauto.
    + constructor; [apply IH; exact S'|].
      eapply Permutation_Forall; [apply insert_by_perm|].
      constructor; [apply leb_total; exact E | exact F].
Qed.

Lemma sort_by_sorted (l : list A) : StronglySorted le (sort_by leb key l).
Proof.
  induction l as [|x l IH]; simpl; [constructor|].
  apply insert_by_sorted. exact IH.
Qed.

Lemma insert_by_filter (k : K) (x : A) (l : list A) :
  filter (fun y => eqb (key y) k) (insert_by leb key x l)
  = filter (fun y => eqb (key y) k) (x :: l).
Proof.
  induction l as [|y l IH]; [reflexivity|].
  cbn [insert_by]. destruct (leb (key x) (key y)) eqn:E; [reflexivity|].
  cbn [filter] in *. rewrite IH.
  destruct (eqb (key x) k) eqn:Ex; [|reflexivity].
  rewrite (eqb_trans_leb _ _ _ Ex E). reflexivity.
Qed.

Lemma sort_by_stable (k : K) (l : list A) :
  filter (fun y => eqb (key y) k) (sort_by leb key l)
  = filter (fun y => eqb (key y) k) l.
Proof.
  induction l as [|x l IH]; [reflexivity|].
  cbn [sort_by]. rewrite insert_by_filter. cbn [filter]. rewrite IH.
  reflexivity.
Qed.

End SortFacts.

Lemma date_leb_iff (a b : datetime) :
  date_leb a b = true
  <-> year a < year b
      \/ (year a = year b
          /\ (month a < month b \/ (month a = month b /\ day a <= day b))).
Proof.
  unfold date_leb.
  rewrite !orb_true_iff, !andb_true_iff, !N.ltb_lt, !N.eqb_eq, !orb_true_iff,
    !andb_true_iff, !N.ltb_lt, !N.eqb_eq, N.leb_le.
  reflexivity.
Qed.

Lemma date_leb_total (a b : datetime) :
  date_leb a b = false -> date_leb b a = true.
Proof.
  intros H. apply date_leb_iff.
  assert (N : ~ date_leb a b = true) by congruence.
  rewrite date_leb_iff in N. lia.
Qed.

Lemma date_leb_trans (a b c : datetime) :
  date_leb a b = true -> date_leb b c = true -> date_leb a c = true.
Proof. rewrite !date_leb_iff. lia. Qed.

Lemma date_eqb_eq (a b : datetime) : date_eqb a b = true <-> a = b.
Proof.
  unfold date_eqb. destruct a as [y m d], b as [y' m' d']; cbn [year month day].
  rewrite !andb_true_iff, !N.eqb_eq. split.
  - intros [[-> ->] ->]. reflexivity.
  - intros H. injection H. auto.
Qed.

Lemma date_leb_refl (a : datetime) : date_leb a a = true.
Proof.
  destruct (date_leb a a) eqn:E; [reflexivity|].
  pose proof (date_leb_total _ _ E). congruence.
Qed.

Lemma article_dirs_filter (os : os_env) (source_dir : str) :
  article_dirs os source_dir
  = map (fun item => (item, path_join source_dir item))
        (filter (is_article os source_dir) (listdir os source_dir)).
Proof.
  unfold article_dirs, is_article.
  induction (listdir os source_dir) as [|item l IH]; [reflexivity|].
  cbn [flat_map filter]. rewrite IH.
  destruct (isdir os (path_join source_dir item) && negb (startswith [dot] item));
    cbn [andb]; [|reflexivity].
  destruct (path_exists os _); reflexivity.
Qed.

(** C9: the walker returns the entries of the source root that are
    directories, do not begin with a dot and hold [index.html], each with
    its path, in ascending order of the date of the directory name;
    entries with the same date keep the order of the listing. *)
Theorem process_directory_sorted_stable (os : os_env) (source_dir : str) :
  let kept :=
    map (fun item => (item, path_join source_dir item))
        (filter (is_article os source_dir) (listdir os source_dir)) in
  let result := process_directory os source_dir in
  Permutation kept result
  /\ StronglySorted (fun a b => date_leb (dir_date a) (dir_date b) = true)
       result
  /\ forall d,
       filter (fun x => date_eqb (dir_date x) d) result
       = filter (fun x => date_eqb (dir_date x) d) kept.
Proof.
  cbv zeta. unfold process_directory. rewrite article_dirs_filter.
  split; [|split].
  - apply sort_by_perm.
  - apply (sort_by_sorted date_leb dir_date date_leb_total date_leb_trans).
  - intros d. apply (sort_by_stable date_leb date_eqb dir_date).
    intros a b c Eac Eab. apply date_eqb_eq in Eac. subst c.
    destruct (date_eqb b a) eqn:E; [|reflexivity].
    apply date_eqb_eq in E. subst b. rewrite date_leb_refl in Eab.
    discriminate.
Qed.

(** ** The book assembler *)

Section Assembler.
Variable parse : str -> node.
Variable os : os_env.

Lemma embed_images_content (dir_path : str) (chapter_id : nat)
    (pending : list str) (b b' : EpubBook) (c : str) :
  snd (fold_left (embed_image os dir_path chapter_id) pending (b, c))
  = snd (fold_left (embed_image os dir_path chapter_id) pending (b', c)).
Proof.
  revert b b' c. induction pending as [|p pending IH]; intros b b' c.
  - reflexivity.
  - cbn [fold_left]. unfold embed_image at 2 4. cbn [fst snd].
    destruct (path_exists os (path_join dir_path p)); apply IH.
Qed.

Lemma process_html_file_result (self self' : converter)
    (dir_info : str * str) (chapter_id : nat) :
  snd (process_html_file parse os self dir_info chapter_id)
  = snd (process_html_file parse os self' dir_info chapter_id).
Proof.
  unfold process_html_file.
  destruct (negb (path_exists os (path_join (snd dir_info) index_html)));
    [reflexivity|].
  destruct (clean_html_content parse [] _) as [[title0 clean] pending].
  destruct (path_exists os (path_join (snd dir_info) (u "assets")));
    [|reflexivity].
  match goal with
  | |- context [fold_left ?f ?l (book self, ?c)] =>
      destruct (fold_left f l (book self, c)) as [b1 c1] eqn:E1;
      destruct (fold_left f l (book self', c)) as [b2 c2] eqn:E2
  end.
  assert (c1 = c2) as ->; [|reflexivity].
  apply (f_equal snd) in E1, E2. cbn [snd] in E1, E2. subst c1 c2.
  apply embed_images_content.
Qed.

Lemma process_html_file_frame (self : converter) (dir_info : str * str)
    (chapter_id : nat) :
  let self' := fst (process_html_file parse os self dir_info chapter_id) in
  chapters self' = chapters self /\ spine self' = spine self
  /\ toc self' = toc self.
Proof.
  unfold process_html_file.
  destruct (negb (path_exists os (path_join (snd dir_info) index_html)));
    [cbn; auto|].
  destruct (clean_html_content parse [] _) as [[title0 clean] pending].
  destruct (if path_exists os (path_join (snd dir_info) (u "assets"))
            then _ else _) as [b1 c1].
  cbn. auto.
Qed.

Lemma process_html_file_some (self : converter) (dir_info : str * str)
    (chapter_id : nat) :
  path_exists os (path_join (snd dir_info) index_html) = true ->
  snd (process_html_file parse os self dir_info chapter_id) <> None.
Proof.
  intros E. unfold process_html_file. rewrite E. cbn [negb].
  destruct (clean_html_content parse [] _) as [[title0 clean] pending].
  destruct (if path_exists os (path_join (snd dir_info) (u "assets"))
            then _ else _) as [b1 c1].
  cbn. discriminate.
Qed.

Lemma add_chapters_fold (es : list (nat * (str * str))) :
  (forall e, In e es -> chapter_of parse os e <> None) ->
  forall (self : converter) (tc : str),
  exists made,
    map Some made = map (chapter_of parse os) es
    /\ chapters (fst (fold_left (add_chapter parse os) es (self, tc)))
       = chapters self ++ map fst made
    /\ spine (fst (fold_left (add_chapter parse os) es (self, tc)))
       = spine self ++ map SpineDoc (map fst made)
    /\ toc (fst (fold_left (add_chapter parse os) es (self, tc)))
       = toc self ++ map link_of (combine (map fst es) made).
Proof.
  induction es as [|[i d] es IH]; intros Hsome self tc.
  - exists []. cbn. rewrite !app_nil_r. auto.
  - cbn [fold_left]. unfold add_chapter at 2 4 6.
    pose proof (process_html_file_frame self d (i + 1)) as (Fc & Fs & Ft).
    pose proof (process_html_file_result self (init [] []) d (i + 1)) as R.
    assert (S : chapter_of parse os (i, d) <> None)
      by (apply Hsome; left; reflexivity).
    unfold chapter_of in S. cbn [fst snd] in S.
    destruct (process_html_file parse os self d (i + 1)) as [self1 r].
    cbn [fst snd] in *.
    destruct r as [[chapter title]|]; [|rewrite <- R in S; congruence].
    match goal with
    | |- context [fold_left _ es (?s, ?t)] =>
        destruct (IH (fun e H => Hsome e (or_intror H)) s t)
          as (made & Em & Ec & Es & Et)
    end.
    exists ((chapter, title) :: made). cbn [map combine fst snd].
    split; [|split; [|split]].
    + f_equal; [exact R | exact Em].
    + etransitivity; [exact Ec|]. cbn [chapters].
      rewrite Fc, <- app_assoc. reflexivity.
    + etransitivity; [exact Es|]. cbn [spine].
      rewrite Fs, <- app_assoc. reflexivity.
    + etransitivity; [exact Et|]. cbn [toc].
      rewrite Ft, <- app_assoc. reflexivity.
Qed.

Lemma combine_fst {A B} (l : list A) (l' : list B) :
  length l = length l' -> map fst (combine l l') = l.
Proof.
  revert l'. induction l as [|x l IH]; intros [|y l'] H;
    try discriminate; [reflexivity|].
  cbn. f_equal. apply IH. injection H. auto.
Qed.

Lemma enumerate_fst {A} (l : list A) :
  map fst (enumerate l) = seq 0 (length l).
Proof.
  unfold enumerate. apply combine_fst. apply length_seq.
Qed.

Lemma enumerate_in {A} (l : list A) (e : nat * A) :
  In e (enumerate l) -> In (snd e) l.
Proof.
  unfold enumerate. destruct e as [i x]. intros H.
  apply in_combine_r in H. exact H.
Qed.

Lemma process_directory_has_index (source_dir : str) (d : str * str) :
  In d (process_directory os source_dir) ->
  path_exists os (path_join (snd d) index_html) = true.
Proof.
  unfold process_directory. intros H.
  eapply Permutation_in in H; [|symmetry; apply sort_by_perm].
  rewrite article_dirs_filter in H. apply in_map_iff in H.
  destruct H as (item & <- & H). apply filter_In in H.
  destruct H as [_ H]. unfold is_article in H.
  apply andb_prop in H. destruct H as [_ H]. exact H.
Qed.

(** C1: for every run, the spine handed to the packaging library is the
    ['nav'] entry, the TOC page, the cover and then one chapter per article
    directory, in the sorted order of the directories and with ordinals
    starting at 1; the navigation list is the TOC link followed by one
    link per chapter in the same order.  [spine.insert(1, toc_page)] puts
    the TOC page before the cover, where the comment of line 401 wants it
    after the cover: the spine is not the cover, the TOC page and the
    chapters, with or without the ['nav'] entry before them. *)
Theorem create_epub_toc_before_cover (root target : str) :
  let final := create_epub parse os (init root target) in
  let all_dirs := process_directory os root in
  let cover := SpineDoc (cover_page os (length all_dirs)) in
  exists (made : list (EpubHtml * str)) (toc_content : str),
    map Some made = map (chapter_of parse os) (enumerate all_dirs)
    /\ chapters final = map fst made
    /\ book_spine (book final)
       = SpineNav :: SpineDoc (toc_page toc_content) :: cover
         :: map SpineDoc (chapters final)
    /\ book_toc (book final) = toc_link :: map link_of (enumerate made)
    /\ (forall page,
          book_spine (book final)
          <> cover :: SpineDoc page :: map SpineDoc (chapters final))
    /\ (forall page,
          book_spine (book final)
          <> SpineNav :: cover :: SpineDoc page
             :: map SpineDoc (chapters final)).
Proof.
  cbv zeta. unfold create_epub. cbn [source_dir spine toc chapters book init].
  set (all_dirs := process_directory os root).
  match goal with
  | |- context [fold_left _ _ (?s, ?t)] =>
      destruct (add_chapters_fold (enumerate all_dirs)
                  (fun e H => process_html_file_some _ _ _
                     (process_directory_has_index root _
                        (enumerate_in _ _ H))) s t)
        as (made & Em & Ec & Es & Et);
      destruct (fold_left (add_chapter parse os) (enumerate all_dirs) (s, t))
        as [self2 tc2]
  end.
  cbn [fst chapters spine toc app] in Ec, Es, Et.
  exists made, (tc2 ++ u "</ul>").
  cbn [book chapters book_spine book_toc add_item].
  rewrite Es, Et, Ec. unfold list_insert. cbn [firstn skipn app].
  split; [exact Em|]. split; [reflexivity|]. split; [reflexivity|].
  split; [|split].
  - rewrite enumerate_fst.
    assert (L : length made = length all_dirs).
    { apply (f_equal (@length _)) in Em. rewrite !length_map in Em.
      unfold enumerate in Em. rewrite length_combine, length_seq in Em. lia. }
    unfold enumerate. rewrite L. reflexivity.
  - intros page H. discriminate H.
  - intros page H.
    assert (E : html_file_name (toc_page (tc2 ++ u "</ul>"))
                = html_file_name (cover_page os (length all_dirs)))
      by congruence.
    discriminate E.
Qed.

End Assembler.

(** ** Trees *)

Lemma node_ind (P : node -> Prop) :
  (forall k s, P (Str k s)) ->
  (forall n a cs, Forall P cs -> P (Tag n a cs)) ->
  forall t, P t.
Proof.
  intros HS HT.
  fix rec 1. intros [n a cs|k s]; [|apply HS].
  apply HT. induction cs as [|c cs IH]; constructor; [apply rec | exact IH].
Qed.

Lemma children_paths_shift (f : node -> list path) (i : nat) (l : list node) :
  children_paths f (S i) l = map shift_path (children_paths f i l).
Proof.
  revert i. induction l as [|c l IH]; intros i; [reflexivity|].
  cbn [children_paths]. rewrite map_app, map_map, IH. reflexivity.
Qed.

Lemma children_paths_cons (f : node -> list path) (c : node) (l : list node) :
  children_paths f 0 (c :: l)
  = map (cons 0%nat) (f c) ++ map shift_path (children_paths f 0 l).
Proof. cbn [children_paths]. rewrite children_paths_shift. reflexivity. Qed.

Lemma children_paths_nonempty (f : node -> list path) (i : nat)
    (l : list node) (q : path) :
  In q (children_paths f i l) -> q <> [].
Proof.
  revert i. induction l as [|c l IH]; intros i; [intros []|].
  cbn [children_paths]. rewrite in_app_iff, in_map_iff.
  intros [(x & <- & _)|H]; [discriminate | eapply IH; eauto].
Qed.

Lemma remove_at_tag (r : path) (n : str) (a : attributes) (cs : list node) :
  remove_at r (Tag n a cs) = Tag n a (remove_in_children r cs).
Proof. destruct r as [|j [|j' r']]; reflexivity. Qed.

Lemma lookup_tag (q : path) (n : str) (a : attributes) (cs : list node) :
  q <> [] -> lookup q (Tag n a cs) = lookup_in_children q cs.
Proof. destruct q; [congruence | reflexivity]. Qed.

Lemma app_last_inv {A} (l1 l2 : list A) (x y : A) :
  l1 ++ [x] = l2 ++ [y] -> l1 = l2 /\ x = y.
Proof. intros H. apply app_inj_tail in H. exact H. Qed.

Lemma last_of_app {A} (a b c : list A) (x : A) :
  a ++ b = c ++ [x] ->
  (b = [] /\ a = c ++ [x]) \/ (exists b', b = b' ++ [x] /\ c = a ++ b').
Proof.
  intros H. destruct b as [|y b' _] using rev_ind.
  - left. rewrite app_nil_r in H. auto.
  - rewrite app_assoc in H. apply app_inj_tail in H. destruct H as [<- <-].
    right. exists b'. auto.
Qed.

Lemma is_prefix_cons (i : nat) (q r : path) :
  is_prefix (i :: q) (i :: r) <-> is_prefix q r.
Proof.
  split; intros [x E]; exists x.
  - injection E. auto.
  - rewrite E. reflexivity.
Qed.

Lemma is_prefix_shift (q r : path) :
  q <> [] -> is_prefix (shift_path q) (shift_path r) -> is_prefix q r.
Proof.
  destruct q as [|i q]; [congruence|]. intros _ [x E].
  destruct r as [|j r]; [discriminate|]. cbn in E.
  injection E as E1 E2. exists x. cbn. congruence.
Qed.

Lemma remove_in_children_shift (r : path) (c : node) (l : list node) :
  r <> [] ->
  remove_in_children (shift_path r) (c :: l) = c :: remove_in_children r l.
Proof. destruct r as [|j [|j' r']]; [congruence| |]; reflexivity. Qed.

Lemma map_eq_snoc {A B} (g : A -> B) (l : list A) (l1 : list B) (y : B) :
  map g l = l1 ++ [y] ->
  exists l1' x, l = l1' ++ [x] /\ l1 = map g l1' /\ y = g x.
Proof.
  intros H. apply map_eq_app in H. destruct H as (l1' & l2' & -> & <- & H).
  destruct l2' as [|x [|? ?]]; try discriminate. injection H as <-.
  eauto.
Qed.

Section RemoveLast.
Variable names : list str.
Let sel := named names.
Let f := self_paths sel.

(** Removing the element that comes last in a search leaves the other
    elements found where they were; those that do not hold the removed
    element are unchanged. *)
Let removal_ok (paths : list path) (r : path)
    (paths' : list path) (look look' : path -> option node) : Prop :=
  paths' = paths
  /\ forall q, In q paths -> ~ is_prefix q r -> look' q = look q.

Let P (t : node) : Prop :=
  forall F' r', f t = F' ++ [r'] -> r' <> [] ->
    removal_ok F' r' (f (remove_at r' t))
      (fun q => lookup q t) (fun q => lookup q (remove_at r' t)).

Let Q (cs : list node) : Prop :=
  forall C' r, children_paths f 0 cs = C' ++ [r] ->
    removal_ok C' r (children_paths f 0 (remove_in_children r cs))
      (fun q => lookup_in_children q cs)
      (fun q => lookup_in_children q (remove_in_children r cs)).

Lemma self_last_nil (c : node) (F' : list path) :
  f c = F' ++ [[]] -> F' = [].
Proof.
  unfold f. destruct c as [n a cs|k s]; cbn [self_paths]; intros H.
  - apply last_of_app in H. destruct H as [[_ H] | (b' & H & _)].
    + destruct (sel (Tag n a cs)); [|destruct F'; discriminate].
      destruct F' as [|? [|? ?]]; [reflexivity|discriminate|discriminate].
    + exfalso. eapply (children_paths_nonempty _ 0 cs []); [|reflexivity].
      rewrite H. apply in_or_app. right. left. reflexivity.
  - cbn in H. destruct F'; discriminate.
Qed.

Lemma children_removal (cs : list node) : Forall P cs -> Q cs.
Proof.
  induction cs as [|c l IH]; intros HP C' r H.
  - destruct C'; discriminate.
  - inversion HP as [|? ? Pc Pl]; subst. specialize (IH Pl).
    rewrite children_paths_cons in H. apply last_of_app in H.
    destruct H as [[Hl Hc] | (b' & Hl & ->)].
    + apply map_eq_nil in Hl.
      apply map_eq_snoc in Hc. destruct Hc as (F' & r' & Hf & -> & ->).
      destruct r' as [|j r''].
      * apply self_last_nil in Hf. subst F'. cbn. split; [exact Hl|].
        intros q [].
      * destruct (Pc F' (j :: r'') Hf ltac:(discriminate)) as [E L].
        change (remove_in_children (0%nat :: j :: r'') (c :: l))
          with (remove_at (j :: r'') c :: l).
        rewrite children_paths_cons, Hl. fold f. rewrite E, app_nil_r.
        split; [reflexivity|].
        intros q Hq Hpre. apply in_map_iff in Hq.
        destruct Hq as (q0 & <- & Hq0). cbn. apply L; [exact Hq0|].
        intros Hp. apply Hpre. apply is_prefix_cons. exact Hp.
    + apply map_eq_snoc in Hl. destruct Hl as (L' & r0 & Hl & -> & ->).
      assert (N0 : r0 <> []).
      { eapply (children_paths_nonempty f 0 l). rewrite Hl.
        apply in_or_app. right. left. reflexivity. }
      destruct (IH L' r0 Hl) as [E L].
      rewrite remove_in_children_shift by exact N0.
      rewrite children_paths_cons, E. split; [reflexivity|].
      intros q Hq Hpre. apply in_app_iff in Hq. destruct Hq as [Hq|Hq].
      * apply in_map_iff in Hq. destruct Hq as (q0 & <- & _). reflexivity.
      * apply in_map_iff in Hq. destruct Hq as (q1 & <- & Hq1).
        assert (N1 : q1 <> []).
        { eapply (children_paths_nonempty f 0 l). rewrite Hl.
          apply in_or_app. left. exact Hq1. }
        destruct q1 as [|j1 q1']; [congruence|].
        change (lookup_in_children (shift_path (j1 :: q1')) (c :: ?x))
          with (lookup_in_children (j1 :: q1') x).
        apply L; [exact Hq1|].
        intros Hp. apply Hpre. destruct Hp as [x Hx]. exists x.
        rewrite Hx. reflexivity.
Qed.

Lemma self_removal (t : node) : P t.
Proof.
  induction t as [k s|n a cs IH] using node_ind; intros F' r' H N.
  - destruct F'; discriminate.
  - unfold f in H. cbn [self_paths] in H. fold f in H.
    apply last_of_app in H. destruct H as [[_ H] | (b' & H & ->)].
    + exfalso. destruct (sel (Tag n a cs)); [|destruct F'; discriminate].
      destruct F' as [|? [|? ?]]; cbn in H; try discriminate.
      injection H as <-. congruence.
    + destruct (children_removal cs IH b' r' H) as [E L].
      rewrite remove_at_tag. unfold f. cbn [self_paths]. fold f.
      rewrite E. split; [reflexivity|].
      intros q Hq Hpre. apply in_app_iff in Hq. destruct Hq as [Hq|Hq].
      * exfalso. apply Hpre.
        destruct (sel (Tag n a cs)); [|destruct Hq].
        destruct Hq as [<-|[]]. exists r'. reflexivity.
      * assert (Nq : q <> []).
        { eapply (children_paths_nonempty f 0 cs). rewrite H.
          apply in_or_app. left. exact Hq. }
        rewrite !lookup_tag by exact Nq. apply L; assumption.
Qed.

Lemma find_all_paths_remove_last (t : node) (ps : list path) (r : path) :
  find_all_paths sel t = ps ++ [r] ->
  find_all_paths sel (remove_at r t) = ps
  /\ forall q, In q ps -> ~ is_prefix q r ->
       lookup q (remove_at r t) = lookup q t.
Proof.
  destruct t as [n a cs|k s]; cbn [find_all_paths]; intros H.
  - fold f in H.
    assert (Pcs : Forall P cs) by (apply Forall_forall; intros; apply self_removal).
    destruct (children_removal cs Pcs ps r H) as [E L].
    rewrite remove_at_tag. cbn [find_all_paths]. fold f.
    split; [exact E|].
    intros q Hq Hpre.
    assert (Nq : q <> []).
    { eapply (children_paths_nonempty f 0 cs). rewrite H.
      apply in_or_app. left. exact Hq. }
    rewrite !lookup_tag by exact Nq. apply L; assumption.
  - destruct ps; discriminate.
Qed.

(** Removing a run of elements from the end of a search, last first. *)
Lemma find_all_paths_remove_suffix (suffix ps : list path) (t : node) :
  find_all_paths sel t = ps ++ suffix ->
  let t' := fold_left (fun t q => remove_at q t) (rev suffix) t in
  find_all_paths sel t' = ps
  /\ forall q, In q ps -> (forall r, In r suffix -> ~ is_prefix q r) ->
       lookup q t' = lookup q t.
Proof.
  revert ps t. induction suffix as [|r suffix IH] using rev_ind;
    intros ps t H; cbv zeta.
  - cbn. rewrite app_nil_r in H. auto.
  - rewrite rev_app_distr. cbn [rev app fold_left].
    rewrite app_assoc in H.
    destruct (find_all_paths_remove_last t _ r H) as [E L].
    destruct (IH ps _ E) as [E' L']. cbv zeta in E', L'.
    split; [exact E'|].
    intros q Hq Hpre. rewrite L'.
    + apply L.
      * apply in_or_app. left. exact Hq.
      * apply Hpre. apply in_or_app. right. left. reflexivity.
    + exact Hq.
    + intros r0 Hr0. apply Hpre. apply in_or_app. left. exact Hr0.
Qed.

End RemoveLast.

(** ** The footer stripper *)

Lemma scan_footer_spec (t : node) (budget : nat) (l : list path) :
  exists k,
    scan_footer t budget l = firstn k l
    /\ (k <= budget)%nat /\ (k <= length l)%nat
    /\ Forall (fun q => is_footer_at t q = true) (firstn k l)
    /\ (k = budget \/ nth_error l k = None
        \/ exists q, nth_error l k = Some q /\ is_footer_at t q = false).
Proof.
  revert l. induction budget as [|b IH]; intros l.
  - exists 0%nat. cbn. repeat split; auto; lia.
  - destruct l as [|p l].
    + exists 0%nat. cbn. repeat split; auto; lia.
    + cbn [scan_footer]. destruct (is_footer_at t p) eqn:E.
      * destruct (IH l) as (k & Ek & Kb & Kl & F & Stop).
        exists (S k). cbn [firstn length nth_error]. rewrite Ek.
        repeat split; try lia.
        -- constructor; assumption.
        -- destruct Stop as [->|[N|N]]; auto.
      * exists 0%nat. cbn. repeat split; auto; try lia.
        right. right. exists p. auto.
Qed.

Lemma remove_footer_elements_fold (t : node) :
  remove_footer_elements t
  = fold_left (fun t q => remove_at q t) (removed_paragraphs t) t.
Proof.
  unfold remove_footer_elements, removed_paragraphs.
  destruct (length (find_all_paths is_p t) <? 3)%nat; reflexivity.
Qed.


(** The signature and the address at the end of the sample are removed,
    last first; the two paragraphs before them stay. *)
Example four_paragraphs_stripped :
  removed_paragraphs four_paragraphs = [[0; 0; 0; 3]; [0; 0; 0; 2]]%nat
  /\ remove_footer_elements four_paragraphs
     = wrapped
         (content_container
            [text_p (u "One"); text_p (u "Two, at some length")]).
Proof. split; vm_compute; reflexivity. Qed.


(** C4: with fewer than three paragraphs nothing is removed. *)
Theorem remove_footer_elements_short (t : node) :
  (length (find_all_paths is_p t) < 3)%nat ->
  remove_footer_elements t = t.
Proof.
  intros H. unfold remove_footer_elements.
  apply Nat.ltb_lt in H. rewrite H. reflexivity.
Qed.

(** Two paragraphs, one of them a footer by the address it holds: both stay. *)
Lemma remove_footer_elements_short_witness :
  (length (find_all_paths is_p two_paragraphs) < 3)%nat
  /\ is_footer_at two_paragraphs [0; 0; 0; 1]%nat = true
  /\ remove_footer_elements two_paragraphs = two_paragraphs.
Proof.
  split; [vm_compute; lia|]. split; [vm_compute; reflexivity|].
  apply remove_footer_elements_short. vm_compute. lia.
Defined.

(** ** Loops over the elements of a tree *)

Lemma lookup_map_attrs (f : str -> attributes -> attributes) (q : path)
    (t : node) :
  lookup q (map_attrs f t) = option_map (map_attrs f) (lookup q t).
Proof.
  revert t. induction q as [|i q IH]; intros t; [reflexivity|].
  destruct t as [n a cs|k s]; [|reflexivity].
  cbn [map_attrs lookup]. rewrite nth_error_map.
  destruct (nth_error cs i); [apply IH | reflexivity].
Qed.

Lemma lookup_map_descendant_attrs (f : str -> attributes -> attributes)
    (q : path) (t : node) :
  q <> [] ->
  lookup q (map_descendant_attrs f t) = option_map (map_attrs f) (lookup q t).
Proof.
  destruct q as [|i q]; [congruence|]. intros _.
  destruct t as [n a cs|k s]; [|reflexivity].
  cbn [map_descendant_attrs lookup]. rewrite nth_error_map.
  destruct (nth_error cs i); [apply lookup_map_attrs | reflexivity].
Qed.

Lemma map_attrs_tag_inv (f : str -> attributes -> attributes) (t : node)
    (n : str) (a' : attributes) (cs' : list node) :
  map_attrs f t = Tag n a' cs' ->
  exists a cs, t = Tag n a cs /\ a' = f n a.
Proof.
  destruct t as [m a cs|k s]; [|discriminate].
  cbn. intros H. injection H as -> <- _. eauto.
Qed.

Lemma attr_get_set (k v : str) (a : attributes) :
  attr_get k (attr_set k v a) = Some v.
Proof.
  induction a as [|[k' v'] a IH]; cbn.
  - rewrite str_eqb_refl. reflexivity.
  - destruct (str_eqb k k') eqn:E; cbn; rewrite ?str_eqb_refl, ?E; auto.
Qed.

Lemma attr_get_del (k : str) (a : attributes) :
  attr_get k (attr_del k a) = None.
Proof.
  induction a as [|[k' v'] a IH]; [reflexivity|].
  unfold attr_del in *. cbn.
  destruct (str_eqb k k') eqn:E; cbn; rewrite ?E; exact IH.
Qed.

Lemma attr_get_filter (keep : str * str -> bool) (k : str) (a : attributes) :
  (forall v, keep (k, v) = true) ->
  attr_get k (filter keep a) = attr_get k a.
Proof.
  intros K. induction a as [|[k' v'] a IH]; [reflexivity|].
  cbn. destruct (str_eqb k k') eqn:E.
  - apply str_eqb_eq in E. subst k'. rewrite K. cbn.
    rewrite str_eqb_refl. reflexivity.
  - destruct (keep (k', v')); cbn; rewrite ?E; exact IH.
Qed.

(** ** The style normaliser *)

Lemma take_while_Forall {A} (f : A -> bool) (l : list A) :
  Forall (fun x => f x = true) (take_while f l).
Proof.
  induction l as [|x l IH]; cbn; [constructor|].
  destruct (f x) eqn:E; constructor; assumption.
Qed.

Lemma value_group_no_semicolon (s v : str) :
  value_group s = Some v -> ~ In semicolon v.
Proof.
  unfold value_group.
  destruct (take_while (fun c => negb (c =? semicolon)) _) as [|c w] eqn:E.
  - pose proof (take_while_Forall isspace s) as F.
    destruct (rev (take_while isspace s)) as [|c w] eqn:R; [discriminate|].
    intros H. injection H as <-. intros [->|[]].
    assert (I : In semicolon (take_while isspace s)).
    { apply in_rev. rewrite R. left. reflexivity. }
    rewrite Forall_forall in F. apply F in I. discriminate I.
  - intros H. injection H as <-. rewrite <- E. intros I.
    pose proof (take_while_Forall (fun c => negb (c =? semicolon))
                  (skipn (length (take_while isspace s)) s)) as F.
    rewrite Forall_forall in F. apply F in I.
    rewrite N.eqb_refl in I. discriminate I.
Qed.

Lemma search_property_no_semicolon (lit s v : str) :
  search_property lit s = Some v -> ~ In semicolon v.
Proof.
  induction s as [|c s IH]; cbn [search_property].
  - destruct (startswith lit []); [|discriminate].
    destruct (value_group _) eqn:E; [|discriminate].
    intros H. injection H as <-. eapply value_group_no_semicolon; eauto.
  - destruct (if startswith lit (c :: s) then _ else None) eqn:E.
    + intros H. injection H as <-.
      destruct (startswith lit (c :: s)); [|discriminate].
      eapply value_group_no_semicolon; eauto.
    + exact IH.
Qed.

Lemma new_style_allowed (style : str) :
  Forall allowed_declaration (new_style style).
Proof.
  unfold new_style. apply Forall_app; split; [|apply Forall_app; split].
  - destruct (contains (u "text-align") style); [|constructor].
    destruct (search_property _ _) as [v|] eqn:E; constructor; [|constructor].
    exists (u "text-align"), v. repeat split.
    + left. reflexivity.
    + eapply search_property_no_semicolon; eauto.
  - destruct (_ && _); constructor; [|constructor].
    exists (u "font-weight"), (u "bold"). repeat split.
    + right. right. left. reflexivity.
    + vm_compute. intuition discriminate.
  - destruct (contains (u "text-indent") style); [|constructor].
    destruct (search_property _ _) as [v|] eqn:E; constructor; [|constructor].
    exists (u "text-indent"), v. repeat split.
    + right. left. reflexivity.
    + eapply search_property_no_semicolon; eauto.
Qed.

Lemma new_style_bold (style : str) :
  In (u "font-weight: bold") (new_style style)
  <-> contains (u "font-weight") style = true
      /\ contains (u "bold") style = true.
Proof.
  unfold new_style. rewrite !in_app_iff, <- andb_true_iff. split.
  - intros [H|[H|H]].
    + destruct (contains (u "text-align") style); [|destruct H].
      destruct (search_property _ _); [|destruct H].
      destruct H as [H|[]]. discriminate H.
    + destruct (_ && _); [reflexivity | destruct H].
    + destruct (contains (u "text-indent") style); [|destruct H].
      destruct (search_property _ _); [|destruct H].
      destruct H as [H|[]]. discriminate H.
  - intros ->. right. left. left. reflexivity.
Qed.

Lemma paragraph_attrs_style (a : attributes) :
  attr_get style_key (paragraph_attrs a)
  = match new_style (get style_key [] a) with
    | [] => None
    | _ :: _ => Some (join (u "; ") (new_style (get style_key [] a)))
    end.
Proof.
  unfold paragraph_attrs. destruct (new_style _).
  - apply attr_get_del.
  - apply attr_get_set.
Qed.

Lemma heading_is_not_p (n : str) :
  In n heading_names ->
  existsb (str_eqb n) heading_names = true /\ str_eqb n (u "p") = false.
Proof.
  intros H. split.
  - apply existsb_exists. exists n. split; [exact H | apply str_eqb_refl].
  - cbn in H. repeat destruct H as [<-|H]; try reflexivity. destruct H.
Qed.

(** C5: in the tree [_preserve_formatting] serialises, the style of a
    paragraph is absent or is a list of declarations of [text-align],
    [text-indent] and [font-weight] only, joined by semicolons;
    [font-weight: bold] is among them exactly when the original style holds
    both "font-weight" and "bold"; with no declaration the attribute is
    absent; a heading of level 1 to 6 has exactly the fixed style. *)
Theorem normalize_styles_allowlist (soup : node) (q : path) (n : str)
    (a' : attributes) (cs' : list node) :
  q <> [] ->
  lookup q (normalize_styles soup) = Some (Tag n a' cs') ->
  exists a cs,
    lookup q soup = Some (Tag n a cs)
    /\ (n = u "p" ->
        exists ds,
          attr_get style_key a'
          = match ds with [] => None | _ => Some (join (u "; ") ds) end
          /\ Forall allowed_declaration ds
          /\ (In (u "font-weight: bold") ds
              <-> contains (u "font-weight") (get style_key [] a) = true
                  /\ contains (u "bold") (get style_key [] a) = true))
    /\ (In n heading_names -> attr_get style_key a' = Some heading_style).
Proof.
  intros Nq H. unfold normalize_styles in H.
  rewrite !lookup_map_descendant_attrs in H by exact Nq.
  destruct (lookup q soup) as [t|]; [|discriminate].
  cbn [option_map] in H. injection H as H.
  apply map_attrs_tag_inv in H. destruct H as (a1 & cs1 & H & ->).
  apply map_attrs_tag_inv in H. destruct H as (a & cs & -> & ->).
  exists a, cs. split; [reflexivity|]. split.
  - intros ->. exists (new_style (get style_key [] a)).
    change (restyle_heading (u "p") (restyle_paragraph (u "p") a))
      with (paragraph_attrs a).
    split; [apply paragraph_attrs_style|].
    split; [apply new_style_allowed | apply new_style_bold].
  - intros Hn. destruct (heading_is_not_p n Hn) as [E1 E2].
    unfold restyle_heading, restyle_paragraph. rewrite E1, E2.
    apply attr_get_set.
Qed.

(** The first paragraph of the sample keeps its alignment and its weight
    and loses its colour; the heading gets the fixed style. *)
Lemma normalize_styles_allowlist_witness :
  [0; 0; 0; 0]%nat <> []
  /\ lookup [0; 0; 0; 0]%nat (normalize_styles styled_document)
     = Some (Tag (u "p")
               [(u "style", u "text-align: center; font-weight: bold")]
               [NavigableString (u "Text")])
  /\ exists a cs,
       lookup [0; 0; 0; 0]%nat styled_document = Some (Tag (u "p") a cs)
       /\ (u "p" = u "p" ->
           exists ds,
             attr_get style_key
               [(u "style", u "text-align: center; font-weight: bold")]
             = match ds with [] => None | _ => Some (join (u "; ") ds) end
             /\ Forall allowed_declaration ds
             /\ (In (u "font-weight: bold") ds
                 <-> contains (u "font-weight") (get style_key [] a) = true
                     /\ contains (u "bold") (get style_key [] a) = true))
       /\ (In (u "p") heading_names ->
           attr_get style_key
             [(u "style", u "text-align: center; font-weight: bold")]
           = Some heading_style).
Proof.
  split; [discriminate|]. split; [vm_compute; reflexivity|].
  apply (normalize_styles_allowlist styled_document [0; 0; 0; 0]%nat
           (u "p") [(u "style", u "text-align: center; font-weight: bold")]
           [NavigableString (u "Text")]).
  - discriminate.
  - vm_compute. reflexivity.
Defined.

(** ** The loop over the images *)

Lemma image_attrs_keys (a : attributes) (k v : str) :
  In (k, v) (image_attrs a) -> k = src_key \/ k = alt_key.
Proof.
  unfold image_attrs. intros H. apply filter_In in H. destruct H as [_ H].
  cbn [fst] in H. apply orb_prop in H.
  destruct H as [H|H]; apply str_eqb_eq in H; auto.
Qed.

Lemma image_attrs_src (a : attributes) :
  startswith assets_prefix (get src_key [] a) = false ->
  attr_get src_key (image_attrs a) = attr_get src_key a.
Proof.
  intros H. unfold image_attrs. rewrite H.
  apply attr_get_filter. intros v. reflexivity.
Qed.

Lemma image_attrs_assets (a : attributes) :
  startswith assets_prefix (get src_key [] a) = true ->
  attr_get src_key (image_attrs a) = Some (basename (get src_key [] a)).
Proof.
  intros H. unfold image_attrs. rewrite H.
  rewrite attr_get_filter by (intros v; reflexivity). apply attr_get_set.
Qed.

Lemma recorded_images_prefix (soup : node) (src : str) :
  In src (recorded_images soup) -> startswith assets_prefix src = true.
Proof.
  unfold recorded_images. intros H. apply filter_In in H. apply H.
Qed.

(** C10: in the tree [clean_html_content] serialises, every [img] element
    has no attribute but [src] and [alt]; an image whose [src] does not
    begin with [./assets/] keeps its [src] and is not recorded in the list
    of pending images. *)
Theorem process_images_attributes (soup : node) (q : path)
    (a' : attributes) (cs' : list node) :
  q <> [] ->
  lookup q (process_images soup) = Some (Tag (u "img") a' cs') ->
  exists a cs,
    lookup q soup = Some (Tag (u "img") a cs)
    /\ (forall k v, In (k, v) a' -> k = src_key \/ k = alt_key)
    /\ (startswith assets_prefix (get src_key [] a) = false ->
        attr_get src_key a' = attr_get src_key a
        /\ ~ In (get src_key [] a) (recorded_images soup)).
Proof.
  intros Nq H. unfold process_images in H.
  rewrite lookup_map_descendant_attrs in H by exact Nq.
  destruct (lookup q soup) as [t|]; [|discriminate].
  cbn [option_map] in H. injection H as H.
  apply map_attrs_tag_inv in H. destruct H as (a & cs & -> & ->).
  exists a, cs. split; [reflexivity|].
  change (clean_image (u "img") a) with (image_attrs a). split.
  - apply image_attrs_keys.
  - intros P. split; [apply image_attrs_src; exact P|].
    intros I. apply recorded_images_prefix in I. congruence.
Qed.

(** The remote image of the sample loses its width and keeps its address. *)
Lemma process_images_attributes_witness :
  [0; 0; 0; 2; 1]%nat <> []
  /\ lookup [0; 0; 0; 2; 1]%nat (process_images styled_document)
     = Some (Tag (u "img") [(u "src", u "http://example.org/y.png")] [])
  /\ exists a cs,
       lookup [0; 0; 0; 2; 1]%nat styled_document
       = Some (Tag (u "img") a cs)
       /\ (forall k v, In (k, v) [(u "src", u "http://example.org/y.png")] ->
             k = src_key \/ k = alt_key)
       /\ (startswith assets_prefix (get src_key [] a) = false ->
           attr_get src_key [(u "src", u "http://example.org/y.png")]
           = attr_get src_key a
           /\ ~ In (get src_key [] a) (recorded_images styled_document)).
Proof.
  split; [discriminate|]. split; [vm_compute; reflexivity|].
  apply (process_images_attributes styled_document [0; 0; 0; 2; 1]%nat
           [(u "src", u "http://example.org/y.png")] []).
  - discriminate.
  - vm_compute. reflexivity.
Defined.

(** The spine of the sample: the ['nav'] entry, then the TOC page, which
    is inserted at index 1, then the cover and the two chapters. *)
Lemma sample_spine_order :
  map spine_file (book_spine (book sample_book))
  = [u "nav"; u "toc.xhtml"; u "cover.xhtml"; u "chapter_1.xhtml";
     u "chapter_2.xhtml"]
  /\ forall toc_content,
       book_spine (book sample_book)
       <> SpineDoc (cover_page sample_os 2) :: SpineDoc (toc_page toc_content)
          :: map SpineDoc (chapters sample_book).
Proof.
  split; [vm_compute; reflexivity|].
  intros toc_content H. apply (f_equal (@length _)) in H.
  vm_compute in H. discriminate H.
Qed.

(** ** Cleaning *)

Lemma find_none_of {A} (f : A -> bool) (l : list A) :
  (forall x, In x l -> f x = false) -> List.find f l = None.
Proof.
  induction l as [|x l IH]; intros H; [reflexivity|].
  cbn. rewrite (H x) by (left; reflexivity).
  apply IH. intros y Hy. apply H. right. exact Hy.
Qed.

Lemma prune_self_and_descendants (sel : node -> bool) (t d' : node) :
  In d' (self_and_descendants (prune sel t)) ->
  exists d, In d (self_and_descendants t) /\ d' = prune sel d
            /\ (d = t \/ sel d = false).
Proof.
  revert d'. induction t as [k s|n a cs IH] using node_ind; intros d' H.
  - destruct H as [<-|[]]. exists (Str k s).
    split; [left; reflexivity|]. auto.
  - cbn [prune self_and_descendants] in H. destruct H as [<-|H].
    + exists (Tag n a cs). split; [left; reflexivity|]. auto.
    + apply in_flat_map in H. destruct H as (c' & Hc' & Hd').
      apply in_flat_map in Hc'. destruct Hc' as (c & Hc & Hsel).
      destruct (sel c) eqn:Sc; [destruct Hsel|]. destruct Hsel as [<-|[]].
      rewrite Forall_forall in IH.
      destruct (IH c Hc d' Hd') as (d & Hd & -> & Hs).
      exists d. split; [|split; [reflexivity|]].
      * cbn [self_and_descendants]. right. apply in_flat_map. eauto.
      * right. destruct Hs as [->|Hs]; assumption.
Qed.

Lemma prune_descendants (sel : node -> bool) (t d' : node) :
  In d' (descendants (prune sel t)) ->
  exists d, In d (descendants t) /\ d' = prune sel d /\ sel d = false.
Proof.
  destruct t as [n a cs|k s]; [|intros []].
  cbn [prune descendants]. intros H.
  apply in_flat_map in H. destruct H as (c' & Hc' & Hd').
  apply in_flat_map in Hc'. destruct Hc' as (c & Hc & Hsel).
  destruct (sel c) eqn:Sc; [destruct Hsel|]. destruct Hsel as [<-|[]].
  destruct (prune_self_and_descendants sel c d' Hd') as (d & Hd & -> & Hs).
  exists d. split; [|split; [reflexivity|]].
  - apply in_flat_map. eauto.
  - destruct Hs as [->|Hs]; assumption.
Qed.

Lemma named_prune (sel : node -> bool) (names : list str) (d : node) :
  named names (prune sel d) = named names d.
Proof. destruct d; reflexivity. Qed.

(** The first loop of [clean_html_content] does what it is meant to: no
    element of the six kinds is left in the tree. *)
Lemma remove_unwanted_tags_gone (soup d : node) :
  In d (descendants (remove_unwanted soup)) -> named unwanted_tags d = false.
Proof.
  unfold remove_unwanted. intros H.
  apply prune_descendants in H. destruct H as (d1 & H & -> & _).
  apply prune_descendants in H. destruct H as (d0 & _ & -> & H).
  rewrite !named_prune. exact H.
Qed.

Lemma has_id_prune (sel : node -> bool) (id : str) (d : node) :
  has_id id (prune sel d) = has_id id d.
Proof. destruct d; reflexivity. Qed.

Lemma has_class_prune (sel : node -> bool) (c : str) (d : node) :
  has_class c (prune sel d) = has_class c d.
Proof. destruct d; reflexivity. Qed.

Lemma no_content_container_found (soup : node) :
  no_content_container soup -> find_content_div (remove_unwanted soup) = None.
Proof.
  intros H.
  assert (K : forall t, In t (descendants (remove_unwanted soup)) ->
                has_id js_content t = false
                /\ has_class rich_media_content t = false).
  { intros t Ht. unfold remove_unwanted in Ht.
    apply prune_descendants in Ht. destruct Ht as (d1 & Hd1 & -> & _).
    apply prune_descendants in Hd1. destruct Hd1 as (d & Hd & -> & _).
    rewrite !has_id_prune, !has_class_prune. apply H. exact Hd. }
  unfold find_content_div, find.
  rewrite find_none_of.
  - apply find_none_of. intros t Ht. unfold is_div_with_class.
    rewrite (proj2 (K t Ht)). apply andb_false_r.
  - intros t Ht. unfold is_div_with_id.
    rewrite (proj1 (K t Ht)). apply andb_false_r.
Qed.

Lemma contains_skip (p x s : str) :
  contains p s = true -> contains p (x ++ s) = true.
Proof.
  rewrite !contains_iff. intros (a & b & ->). exists (x ++ a), b.
  rewrite app_assoc. reflexivity.
Qed.

Lemma contains_keep (p s y : str) :
  contains p s = true -> contains p (s ++ y) = true.
Proof.
  rewrite !contains_iff. intros (a & b & ->). exists a, (b ++ y).
  rewrite <- !app_assoc. reflexivity.
Qed.

Lemma contains_here (p b : str) : contains p (p ++ b) = true.
Proof. apply contains_iff. exists [], b. reflexivity. Qed.

Lemma chapter_markup_contains (p title date_str clean_content : str) :
  contains p clean_content = true ->
  contains p (chapter_markup title date_str clean_content) = true.
Proof.
  intros H. unfold chapter_markup. do 16 apply contains_skip.
  apply contains_keep. exact H.
Qed.

(** C7: when no element of the document carries the identifier or the
    class of the content container, [clean_html_content] returns the title
    and the placeholder, and [process_html_file] still returns a chapter,
    which holds the placeholder. *)
Theorem missing_container_placeholder (parse : str -> node) (os : os_env)
    (html : str) :
  no_content_container (parse html) ->
  (forall pending,
     clean_html_content parse pending html
     = (extract_title (remove_unwanted (parse html)),
        content_not_found, pending))
  /\ forall self dir_info chapter_id,
       path_exists os (path_join (snd dir_info) index_html) = true ->
       read_text os (path_join (snd dir_info) index_html) = html ->
       exists chapter title,
         snd (process_html_file parse os self dir_info chapter_id)
         = Some (chapter, title)
         /\ contains content_not_found (html_content chapter) = true.
Proof.
  intros H.
  assert (C : forall pending,
             clean_html_content parse pending html
             = (extract_title (remove_unwanted (parse html)),
                content_not_found, pending)).
  { intros pending. unfold clean_html_content.
    rewrite (no_content_container_found _ H). reflexivity. }
  split; [exact C|].
  intros self dir_info chapter_id E R. unfold process_html_file.
  rewrite E, R, C. cbn [negb].
  destruct (path_exists os (path_join (snd dir_info) (u "assets")));
    cbn [fold_left snd]; do 2 eexists; (split; [reflexivity|]);
    cbn [html_content]; apply chapter_markup_contains;
    apply (contains_here content_not_found []).
Qed.

(** The article without a container of the sample. *)
Lemma missing_container_placeholder_witness :
  no_content_container (sample_parse source_b)
  /\ clean_html_content sample_parse [] source_b
     = (extract_title (remove_unwanted (sample_parse source_b)),
        content_not_found, [])
  /\ exists chapter title,
       snd (process_html_file sample_parse sample_os
              (init (u "/books") (u "/books/out.epub"))
              (u "no-date-dir", dir_b) 1)
       = Some (chapter, title)
       /\ contains content_not_found (html_content chapter) = true.
Proof.
  assert (N : no_content_container (sample_parse source_b)).
  { intros t Ht. vm_compute in Ht.
    repeat destruct Ht as [<-|Ht]; try (split; reflexivity). destruct Ht. }
  split; [exact N|].
  destruct (missing_container_placeholder sample_parse sample_os source_b N)
    as [C P].
  split; [apply C|]. apply P; vm_compute; reflexivity.
Defined.

(** C8, the comments: the filter of the second loop looks for strings that
    begin with the comment delimiter, which the text of a comment node does
    not include, so that a comment stays in the tree and in the markup
    returned. *)
Lemma comment_survives_cleaning :
  In (Comment (u " note ")) (descendants (remove_unwanted document_a))
  /\ exists title content pending,
       clean_html_content sample_parse [] source_a = (title, content, pending)
       /\ contains (u "<!-- note -->") content = true.
Proof.
  split.
  - vm_compute. intuition.
  - do 3 eexists. split; [vm_compute; reflexivity|]. vm_compute. reflexivity.
Qed.

(** ** [str.replace] *)

Lemma replace_from_skip (old new t r : str) :
  replace_from (length t) old new (t ++ r) = replace old new r.
Proof. induction t as [|c t IH]; [reflexivity | exact IH]. Qed.

Lemma replace_nil (old new : str) : replace old new [] = [].
Proof. reflexivity. Qed.

Lemma replace_match (old new r : str) :
  old <> [] -> replace old new (old ++ r) = new ++ replace old new r.
Proof.
  destruct old as [|c old']; [congruence|]. intros _.
  unfold replace at 1. cbn [app replace_from].
  change (c :: old' ++ r) with ((c :: old') ++ r).
  rewrite startswith_app. cbn [length Nat.pred].
  rewrite replace_from_skip. reflexivity.
Qed.

Lemma replace_no_match (old new : str) (c : N) (s : str) :
  startswith old (c :: s) = false ->
  replace old new (c :: s) = c :: replace old new s.
Proof. intros H. unfold replace. cbn [replace_from]. rewrite H. reflexivity. Qed.

(** A string splits where no occurrence of [old] that starts in its first
    part runs into the second. *)
Lemma replace_app (old new : str) :
  old <> [] ->
  forall x y,
    (forall x1 x2, x = x1 ++ x2 -> x2 <> [] ->
       startswith old (x2 ++ y) = true -> startswith old x2 = true) ->
    replace old new (x ++ y) = replace old new x ++ replace old new y.
Proof.
  intros Hold x. remember (length x) as n eqn:Hn.
  revert x Hn. induction n as [n IH] using lt_wf_ind. intros x Hn y H.
  destruct x as [|c x]; [reflexivity|].
  destruct (startswith old ((c :: x) ++ y)) eqn:E.
  - pose proof (H [] (c :: x) eq_refl ltac:(discriminate) E) as E'.
    apply startswith_iff in E'. destruct E' as [x' Ex]. rewrite Ex.
    rewrite <- app_assoc, !replace_match, <- app_assoc by exact Hold.
    f_equal. apply (IH (length x')); [|reflexivity|].
    + subst n. rewrite Ex, length_app.
      destruct old; [congruence | cbn; lia].
    + intros x1 x2 -> N2 S. apply (H (old ++ x1) x2); auto.
      rewrite Ex, app_assoc. reflexivity.
  - assert (E' : startswith old (c :: x) = false).
    { destruct (startswith old (c :: x)) eqn:E'; [|reflexivity].
      apply startswith_iff in E'. destruct E' as [r Er].
      rewrite Er, <- app_assoc, startswith_app in E. discriminate. }
    cbn [app] in *. rewrite !replace_no_match by assumption.
    cbn [app]. f_equal. apply (IH (length x)); [subst n; cbn; lia|reflexivity|].
    intros x1 x2 -> N2 S. apply (H (c :: x1) x2); auto.
Qed.

Lemma startswith_before (old p : str) (c : N) (q : str) :
  ~ In c old -> startswith old (p ++ c :: q) = true ->
  startswith old p = true.
Proof.
  revert p. induction old as [|o old IH]; intros p N H; [reflexivity|].
  destruct p as [|h p]; cbn in H |- *.
  - apply andb_prop in H. destruct H as [H _]. apply N.eqb_eq in H.
    exfalso. apply N. left. exact H.
  - apply andb_prop in H. destruct H as [-> H]. cbn.
    apply IH; [|exact H]. intros I. apply N. right. exact I.
Qed.

(** A character that is not in [old] is a place where the string splits. *)
Lemma replace_at_foreign (old new x : str) (c : N) (y : str) :
  old <> [] -> ~ In c old ->
  replace old new (x ++ c :: y)
  = replace old new x ++ c :: replace old new y.
Proof.
  intros Hold N.
  assert (S : startswith old (c :: y) = false).
  { destruct old as [|o old]; [congruence|]. cbn.
    destruct (o =? c) eqn:E; [|reflexivity].
    apply N.eqb_eq in E. exfalso. apply N. left. exact E. }
  rewrite replace_app; [|exact Hold|].
  - rewrite replace_no_match by exact S. reflexivity.
  - intros x1 x2 _ _ H. eapply startswith_before; eauto.
Qed.

Lemma endswith_iff (p s : str) :
  endswith p s = true <-> exists r, s = r ++ p.
Proof.
  unfold endswith. rewrite startswith_iff. split.
  - intros [r H]. exists (rev r).
    apply (f_equal (@rev N)) in H.
    rewrite rev_involutive, rev_app_distr, rev_involutive in H. exact H.
  - intros [r ->]. exists (rev r). apply rev_app_distr.
Qed.

Lemma endswith_app (p x s : str) :
  endswith p s = true -> endswith p (x ++ s) = true.
Proof.
  rewrite !endswith_iff. intros [r ->]. exists (x ++ r).
  apply app_assoc.
Qed.

Lemma endswith_last (p s : str) (c : N) :
  endswith (p ++ [c]) s = true -> exists r, s = r ++ [c].
Proof.
  rewrite endswith_iff. intros [r ->]. exists (r ++ p).
  rewrite app_assoc. reflexivity.
Qed.

Section Inserted.
Variables p ins q : str.

Lemma inserted_prepend (z s out : str) :
  inserted p ins q s out -> inserted p ins q (z ++ s) (z ++ out).
Proof.
  intros H. destruct H as [s|x y out' Hx Hy H].
  - constructor.
  - rewrite !app_assoc. rewrite <- (app_assoc (z ++ x)).
    constructor; [apply endswith_app; exact Hx | exact Hy | exact H].
Qed.

(** Replacing [p ++ q] by [p ++ ins ++ q] inserts [ins] at such places. *)
Lemma replace_inserted (s : str) :
  p ++ q <> [] ->
  inserted p ins q s (replace (p ++ q) (p ++ ins ++ q) s).
Proof.
  intros Hold. remember (length s) as n eqn:Hn.
  revert s Hn. induction n as [n IH] using lt_wf_ind. intros s Hn.
  destruct s as [|c s]; [constructor|].
  destruct (startswith (p ++ q) (c :: s)) eqn:E.
  - apply startswith_iff in E. destruct E as [r Er]. rewrite Er.
    rewrite replace_match by exact Hold. rewrite <- !app_assoc.
    constructor.
    + apply endswith_iff. exists []. reflexivity.
    + apply startswith_app.
    + apply inserted_prepend. apply (IH (length r)); [|reflexivity].
      subst n. rewrite Er, !length_app.
      destruct p, q; cbn in *; try congruence; lia.
  - rewrite replace_no_match by exact E.
    apply (inserted_prepend [c]). apply (IH (length s)); [|reflexivity].
    subst n. cbn. lia.
Qed.

(** A substring stays when no such place lies strictly inside it. *)
Lemma inserted_keeps (s out : str) :
  inserted p ins q s out ->
  forall a w b,
    s = a ++ w ++ b ->
    (forall w1 w2, w = w1 ++ w2 -> w1 <> [] -> w2 <> [] ->
       endswith p (a ++ w1) = true -> startswith q (w2 ++ b) = true ->
       False) ->
    exists a' b', out = a' ++ w ++ b'.
Proof.
  induction 1 as [s|x y out Hx Hy H IH]; intros a w b E Hbad.
  - eauto.
  - apply app_eq_app in E. destruct E as [l [[-> E]|[-> ->]]].
    + (* [x = a ++ l]: the place is inside [w], at its end or after it *)
      apply app_eq_app in E. destruct E as [m [[-> ->]|[-> ->]]].
      * (* [w = l ++ m], [y = m ++ b] *)
        destruct l as [|l0 l].
        -- destruct (IH [] m b eq_refl) as (a' & b' & ->).
           ++ intros w1 w2 -> N1 N2 E1 E2.
              apply (Hbad w1 w2); auto. apply endswith_app. exact E1.
           ++ exists (a ++ ins ++ a'), b'. rewrite app_nil_r.
              rewrite <- !app_assoc. reflexivity.
        -- destruct m as [|m0 m].
           ++ exists a, (ins ++ out). rewrite app_nil_r, <- !app_assoc.
              reflexivity.
           ++ exfalso. apply (Hbad (l0 :: l) (m0 :: m)); auto; discriminate.
      * (* [l = w ++ m]: after [w] *)
        exists a, (m ++ ins ++ out). rewrite <- !app_assoc. reflexivity.
    + (* [a = x ++ l], [y = l ++ w ++ b]: before [w] *)
      destruct (IH l w b eq_refl) as (a' & b' & ->).
      * intros w1 w2 -> N1 N2 E1 E2. apply (Hbad w1 w2); auto.
        rewrite <- app_assoc. apply endswith_app. exact E1.
      * exists (x ++ ins ++ a'), b'. rewrite <- !app_assoc. reflexivity.
Qed.

End Inserted.

(** ** Rewriting the image addresses in the chapter *)

Lemma src_attr_split (v : str) : src_attr v = src_open ++ (v ++ quote).
Proof. unfold src_attr, src_open. rewrite <- app_assoc. reflexivity. Qed.

Lemma src_attr_images (v : str) :
  src_attr (images_dir ++ v) = src_open ++ images_dir ++ (v ++ quote).
Proof.
  unfold src_attr, src_open. rewrite <- !app_assoc. reflexivity.
Qed.

(** The first occurrence of a separator fixes how a string splits at it. *)
Lemma split_at_first (c : N) (x' x y y' : str) :
  ~ In c x' -> x ++ c :: y = x' ++ c :: y' ->
  (x = x' /\ y = y') \/ exists m, x = x' ++ c :: m /\ y' = m ++ c :: y.
Proof.
  revert x. induction x' as [|h' x' IH]; intros x N E.
  - destruct x as [|h x]; cbn in E; injection E; intros; subst.
    + left. auto.
    + right. exists x. auto.
  - destruct x as [|h x]; cbn in E; injection E; intros; subst.
    + exfalso. apply N. left. auto.
    + match goal with E' : x ++ _ = _ |- _ =>
        destruct (IH x) as [[-> ->]|(m & -> & ->)]; [|exact E'| |]
      end.
      * intros I. apply N. right. exact I.
      * left. auto.
      * right. exists m. auto.
Qed.

Lemma word_not_in (c : N) (name : str) :
  forallb is_name_char name = true -> is_name_char c = false -> ~ In c name.
Proof.
  intros W F I. rewrite forallb_forall in W. apply W in I. congruence.
Qed.

Lemma src_attr_foreign (c : N) (name : str) :
  forallb is_name_char name = true -> is_name_char c = false ->
  existsb (N.eqb c) (src_open ++ quote) = false ->
  ~ In c (src_attr name).
Proof.
  intros W F E I. unfold src_attr in I. rewrite !in_app_iff in I.
  assert (K : forall l, existsb (N.eqb c) l = false -> ~ In c l).
  { intros l El Il. assert (T : existsb (N.eqb c) l = true).
    { apply existsb_exists. exists c. split; [exact Il | apply N.eqb_refl]. }
    congruence. }
  unfold src_open in E. rewrite !existsb_app in E.
  apply orb_false_iff in E. destruct E as [E E3].
  apply orb_false_iff in E. destruct E as [E1 E2].
  destruct I as [I|[I|[I|I]]].
  - exact (K _ E1 I).
  - exact (K _ E2 I).
  - eapply word_not_in; eauto.
  - exact (K _ E3 I).
Qed.

Lemma startswith_head_diff (o : N) (p : str) (c : N) (s : str) :
  o <> c -> startswith (o :: p) (c :: s) = false.
Proof.
  intros H. cbn [startswith]. destruct (N.eqb_spec o c); [congruence|].
  reflexivity.
Qed.

Lemma src_attr_nonempty (v : str) : src_attr v <> [].
Proof. discriminate. Qed.

(** The replacement made for [name] turns the bare reference into the one
    below [images/]. *)
Lemma replace_own_reference (name c : str) :
  forallb is_name_char name = true ->
  contains (img_markup name) c = true ->
  contains (img_markup (images_dir ++ name))
    (replace (src_attr name) (src_attr (images_dir ++ name)) c) = true.
Proof.
  intros W H. apply contains_iff in H. destruct H as (a & b & ->).
  set (old := src_attr name). set (new := src_attr (images_dir ++ name)).
  assert (Hold : old <> []) by apply src_attr_nonempty.
  assert (F : forall ch, is_name_char ch = false ->
                existsb (N.eqb ch) (src_open ++ quote) = false ->
                ~ In ch old).
  { intros ch. apply src_attr_foreign. exact W. }
  assert (S : forall ch s, ch <> 115 ->
                replace old new (ch :: s) = ch :: replace old new s).
  { intros ch s N. apply replace_no_match. unfold old, src_attr.
    change (u "src=" ++ quote ++ name ++ quote)
      with (115 :: [114; 99; 61] ++ quote ++ name ++ quote).
    apply startswith_head_diff. congruence. }
  unfold img_markup. fold old new.
  assert (E : a ++ (u "<img " ++ old ++ u "/>") ++ b
              = a ++ 60 :: ([105; 109; 103] ++ 32 :: (old ++ 47 :: 62 :: b))).
  { change (u "<img " ++ old ++ u "/>")
      with (60 :: 105 :: 109 :: 103 :: 32 :: old ++ [47; 62]).
    cbn [app]. rewrite <- app_assoc. reflexivity. }
  rewrite E. clear E.
  change (u "<img " ++ new ++ u "/>")
    with (60 :: 105 :: 109 :: 103 :: 32 :: new ++ 47 :: [62]).
  rewrite (replace_at_foreign old new a 60) by (auto; apply F; reflexivity).
  rewrite (replace_at_foreign old new [105; 109; 103] 32)
    by (auto; apply F; reflexivity).
  rewrite !S by discriminate. rewrite replace_nil.
  rewrite replace_match by exact Hold.
  rewrite !S by discriminate.
  apply contains_iff. exists (replace old new a), (replace old new b).
  cbn [app]. rewrite <- !app_assoc. reflexivity.
Qed.

Lemma img_markup_split (body : str) :
  img_markup body = u "<img src=" ++ 34 :: (body ++ 34 :: u "/>").
Proof.
  unfold img_markup, src_attr. cbn [app u map list_ascii_of_string N_of_ascii].
  cbn. rewrite <- !app_assoc. reflexivity.
Qed.

Lemma not_in_of_existsb (c : N) (l : str) :
  existsb (N.eqb c) l = false -> ~ In c l.
Proof.
  intros E I. assert (T : existsb (N.eqb c) l = true).
  { apply existsb_exists. exists c. split; [exact I | apply N.eqb_refl]. }
  congruence.
Qed.

(** A replacement made for the name [n2] leaves an image reference with
    the address [body] as it is, unless [n2] followed by a quote is how the
    text begins that follows the opening quote of the reference. *)
Lemma replace_keeps_reference (body n2 c : str) :
  existsb (N.eqb 34) body = false ->
  existsb (N.eqb slash) n2 = false ->
  (forall b, startswith (n2 ++ quote) (body ++ 34 :: u "/>" ++ b) = false) ->
  contains (img_markup body) c = true ->
  contains (img_markup body)
    (replace (src_attr n2) (src_attr (images_dir ++ n2)) c) = true.
Proof.
  intros Qb Sn HA H. apply contains_iff in H. destruct H as (a & b & ->).
  rewrite src_attr_split, src_attr_images.
  pose proof (replace_inserted src_open images_dir (n2 ++ quote)
                (a ++ img_markup body ++ b) ltac:(discriminate)) as I.
  apply contains_iff.
  eapply inserted_keeps; [exact I | reflexivity|].
  intros w1 w2 E N1 N2 E1 E2.
  (* the place comes right after a quote *)
  destruct w1 as [|x w1' _] using rev_ind; [congruence|].
  apply endswith_last in E1. destruct E1 as [r E1].
  rewrite app_assoc in E1. apply app_inj_tail in E1. destruct E1 as [_ ->].
  rewrite img_markup_split, <- app_assoc in E. cbn [app] in E.
  symmetry in E. apply split_at_first in E;
    [|apply not_in_of_existsb; reflexivity].
  destruct E as [[-> ->]|(m & -> & E)].
  - rewrite <- app_assoc in E2. cbn [app] in E2. rewrite HA in E2.
    discriminate.
  - symmetry in E.
    apply split_at_first in E; [|apply not_in_of_existsb; exact Qb].
    destruct E as [[-> ->]|(m' & -> & E)].
    + destruct n2 as [|h n2]; [discriminate E2|].
      cbn in E2. apply andb_prop in E2. destruct E2 as [E2 _].
      apply N.eqb_eq in E2. subst h. cbn in Sn. discriminate.
    + destruct m' as [|? [|? [|? ?]]]; discriminate E.
Qed.

Lemma foreign_name_no_match (name n2 : str) (b : str) :
  existsb (N.eqb 34) name = false ->
  existsb (N.eqb slash) n2 = false ->
  n2 <> name ->
  startswith (n2 ++ quote) (name ++ 34 :: u "/>" ++ b) = false.
Proof.
  intros Qn Sn NE. destruct (startswith _ _) eqn:E; [|reflexivity].
  exfalso. apply startswith_iff in E. destruct E as [r E].
  rewrite <- app_assoc in E. cbn [app quote] in E.
  symmetry in E. apply split_at_first in E;
    [|apply not_in_of_existsb; exact Qn].
  destruct E as [[-> _]|(m & -> & E)]; [congruence|].
  rewrite existsb_app in Sn. apply orb_false_iff in Sn. destruct Sn as [_ Sn].
  destruct m as [|h m]; cbn in E; [discriminate E|].
  injection E as <- _. cbn in Sn. discriminate.
Qed.

Lemma images_name_no_match (name n2 : str) (b : str) :
  existsb (N.eqb slash) n2 = false ->
  startswith (n2 ++ quote) ((images_dir ++ name) ++ 34 :: u "/>" ++ b)
  = false.
Proof.
  intros Sn. destruct (startswith _ _) eqn:E; [|reflexivity]. exfalso.
  unfold images_dir in E. rewrite <- app_assoc in E.
  change (u "images/" ++ ?x) with (105 :: 109 :: 97 :: 103 :: 101 :: 115 :: 47 :: x)
    in E.
  do 7 (destruct n2 as [|? n2]; [discriminate E|];
        cbn [app startswith] in E; apply andb_prop in E;
        destruct E as [E0 E]; apply N.eqb_eq in E0; subst).
  cbn in Sn. discriminate.
Qed.

Lemma word_has_no (c : N) (name : str) :
  forallb is_name_char name = true -> is_name_char c = false ->
  existsb (N.eqb c) name = false.
Proof.
  intros W F. destruct (existsb (N.eqb c) name) eqn:E; [|reflexivity].
  apply existsb_exists in E. destruct E as (x & I & E).
  apply N.eqb_eq in E. subst x.
  rewrite forallb_forall in W. apply W in I. congruence.
Qed.

Lemma after_last_without (c : N) (s : str) :
  existsb (N.eqb c) (after_last c s) = false.
Proof.
  induction s as [|x s IH]; [reflexivity|].
  cbn [after_last]. destruct (existsb (N.eqb c) (x :: s)) eqn:E.
  - destruct (existsb (N.eqb c) s) eqn:E'; [exact IH | exact E'].
  - exact E.
Qed.

Lemma after_last_app (c : N) (p n : str) :
  existsb (N.eqb c) n = false -> after_last c (p ++ c :: n) = n.
Proof.
  intros H. induction p as [|x p IH].
  - cbn [app after_last existsb]. rewrite N.eqb_refl, H. reflexivity.
  - cbn [app after_last]. rewrite IH.
    assert (E : existsb (N.eqb c) (p ++ c :: n) = true).
    { rewrite existsb_app. cbn. rewrite N.eqb_refl. apply orb_true_r. }
    cbn [existsb]. rewrite E, orb_true_r. reflexivity.
Qed.

(** ** From the tree to the markup *)

Lemma map_attrs_self_and_descendants (f : str -> attributes -> attributes)
    (t d : node) :
  In d (self_and_descendants t) ->
  In (map_attrs f d) (self_and_descendants (map_attrs f t)).
Proof.
  induction t as [k s|n a cs IH] using node_ind; intros H.
  - destruct H as [<-|[]]. left. reflexivity.
  - cbn [self_and_descendants] in H. destruct H as [<-|H].
    + left. reflexivity.
    + cbn [map_attrs self_and_descendants]. right.
      apply in_flat_map in H. destruct H as (c & Hc & Hd).
      apply in_flat_map. exists (map_attrs f c). split.
      * apply in_map. exact Hc.
      * rewrite Forall_forall in IH. apply IH; assumption.
Qed.

Lemma map_descendant_attrs_descendants
    (f : str -> attributes -> attributes) (t d : node) :
  In d (descendants t) ->
  In (map_attrs f d) (descendants (map_descendant_attrs f t)).
Proof.
  destruct t as [n a cs|k s]; [|intros []].
  cbn [descendants map_descendant_attrs]. intros H.
  apply in_flat_map in H. destruct H as (c & Hc & Hd).
  apply in_flat_map. exists (map_attrs f c). split.
  - apply in_map. exact Hc.
  - apply map_attrs_self_and_descendants. exact Hd.
Qed.

Lemma contains_refl (s : str) : contains s s = true.
Proof. apply contains_iff. exists [], []. rewrite app_nil_r. reflexivity. Qed.

Lemma contains_trans (a b c : str) :
  contains a b = true -> contains b c = true -> contains a c = true.
Proof.
  rewrite !contains_iff. intros (x & y & ->) (x' & y' & ->).
  exists (x' ++ x), (y ++ y'). rewrite <- !app_assoc. reflexivity.
Qed.

Create HintDb substrings.
#[local] Hint Resolve contains_refl contains_here contains_skip contains_keep
  : substrings.

Lemma flat_map_contains {A} (g : A -> str) (l : list A) (x : A) :
  In x l -> contains (g x) (flat_map g l) = true.
Proof.
  intros H. apply in_split in H. destruct H as (l1 & l2 & ->).
  rewrite flat_map_app. cbn [flat_map]. auto with substrings.
Qed.

(** The markup of a tree holds the markup of every tag below it. *)
Lemma decode_in_contains (t : node) (parent n : str) (a : attributes)
    (cs : list node) :
  In (Tag n a cs) (self_and_descendants t) ->
  contains (decode (Tag n a cs)) (decode_in parent t) = true.
Proof.
  revert parent.
  induction t as [k s|n0 a0 cs0 IH] using node_ind; intros parent H.
  - destruct H as [H|[]]. discriminate H.
  - cbn [self_and_descendants] in H. destruct H as [<-|H].
    + apply contains_refl.
    + apply in_flat_map in H. destruct H as (c & Hc & Hd).
      rewrite Forall_forall in IH.
      assert (K : contains (decode (Tag n a cs))
                    (flat_map (decode_in n0) cs0) = true).
      { eapply contains_trans; [apply (IH c Hc n0 Hd)|].
        apply (flat_map_contains (decode_in n0)). exact Hc. }
      cbn [decode_in]. destruct (str_eqb n0 document_name); [exact K|].
      destruct cs0 as [|c0 cs0]; [destruct Hc|].
      do 4 apply contains_skip. apply contains_keep. exact K.
Qed.

Lemma decode_contains (soup : node) (n : str) (a : attributes)
    (cs : list node) :
  In (Tag n a cs) (descendants soup) ->
  contains (decode (Tag n a cs)) (decode soup) = true.
Proof.
  intros H. apply decode_in_contains.
  destruct soup as [n0 a0 cs0|k s]; [|destruct H]. right. exact H.
Qed.

Lemma escape_name (v : str) :
  forallb is_name_char v = true -> escape v = v.
Proof.
  induction v as [|c v IH]; [reflexivity|]. cbn [forallb].
  intros H. apply andb_prop in H. destruct H as [Hc Hv].
  unfold escape in *. cbn [flat_map]. rewrite (IH Hv).
  destruct (c =? 38) eqn:E1;
    [apply N.eqb_eq in E1; subst c; discriminate Hc|].
  destruct (c =? 60) eqn:E2;
    [apply N.eqb_eq in E2; subst c; discriminate Hc|].
  destruct (c =? 62) eqn:E3;
    [apply N.eqb_eq in E3; subst c; discriminate Hc|].
  reflexivity.
Qed.

Lemma name_has_no (c : N) (name : str) :
  forallb is_name_char name = true -> is_name_char c = false ->
  existsb (N.eqb c) name = false.
Proof. apply word_has_no. Qed.

(** The markup of an image whose only attribute is a plain address. *)
Lemma decode_img (v : str) :
  forallb is_name_char v = true ->
  decode (Tag (u "img") [(src_key, v)] []) = img_markup v.
Proof.
  intros H. unfold decode. cbn [decode_in].
  change (str_eqb (u "img") document_name) with false.
  change (existsb (str_eqb (u "img")) void_elements) with true.
  cbv iota. unfold decode_attrs. cbn [sort_by insert_by flat_map fst snd].
  rewrite (escape_name v H). unfold quoted_attribute_value.
  rewrite (name_has_no 34 v H eq_refl).
  unfold img_markup, src_attr. cbn. rewrite <- !app_assoc. reflexivity.
Qed.

Lemma basename_assets (name : str) :
  existsb (N.eqb slash) name = false -> basename (assets_prefix ++ name) = name.
Proof.
  intros H. unfold basename.
  change (assets_prefix ++ name) with (u "./assets" ++ slash :: name).
  apply after_last_app. exact H.
Qed.

Lemma clean_image_reference (name : str) :
  existsb (N.eqb slash) name = false ->
  map_attrs clean_image (Tag (u "img") [(src_key, assets_prefix ++ name)] [])
  = Tag (u "img") [(src_key, name)] [].
Proof.
  intros H. cbn [map_attrs map].
  change (clean_image (u "img") ?a) with (image_attrs a).
  unfold image_attrs.
  change (get src_key [] [(src_key, assets_prefix ++ name)])
    with (assets_prefix ++ name).
  rewrite startswith_app, (basename_assets name H). reflexivity.
Qed.

(** An image below [./assets/] is in the markup by its bare name and in
    the list of pending images by its path. *)
Lemma process_images_reference (soup : node) (name : str) :
  forallb is_name_char name = true ->
  In (Tag (u "img") [(src_key, assets_prefix ++ name)] []) (descendants soup) ->
  contains (img_markup name) (decode (process_images soup)) = true
  /\ In (assets_prefix ++ name) (recorded_images soup).
Proof.
  intros W H. split.
  - rewrite <- (decode_img name W). apply decode_contains.
    rewrite <- (clean_image_reference name (name_has_no slash name W eq_refl)).
    apply map_descendant_attrs_descendants. exact H.
  - unfold recorded_images. apply filter_In. split.
    + apply in_map_iff.
      exists (Tag (u "img") [(src_key, assets_prefix ++ name)] []).
      split; [reflexivity|]. apply filter_In. split; [exact H | reflexivity].
    + apply startswith_app.
Qed.

(** ** The loop that embeds the images *)

Lemma stem_name_chars (stem : str) :
  simple_stem stem -> forallb is_name_char (stem ++ u ".png") = true.
Proof.
  intros [_ W]. rewrite forallb_app. apply andb_true_intro. split.
  - rewrite forallb_forall in *. intros c Hc. unfold is_name_char.
    rewrite (W c Hc). reflexivity.
  - reflexivity.
Qed.

Lemma path_join_assets (dir_path name : str) :
  exists x, path_join dir_path (assets_prefix ++ name) = x ++ slash :: name.
Proof.
  unfold path_join.
  change (assets_prefix ++ name) with (46 :: u "/assets" ++ slash :: name).
  rewrite startswith_head_diff by discriminate.
  change (46 :: u "/assets" ++ slash :: name)
    with (u "./assets" ++ slash :: name).
  destruct dir_path as [|c d]; [eexists; reflexivity|].
  destruct (endswith [slash] (c :: d)).
  - exists ((c :: d) ++ u "./assets"). rewrite <- app_assoc. reflexivity.
  - exists ((c :: d) ++ [slash] ++ u "./assets").
    rewrite <- !app_assoc. reflexivity.
Qed.

Lemma splitext_png (x stem : str) :
  simple_stem stem ->
  splitext_ext (x ++ slash :: stem ++ u ".png") = u ".png".
Proof.
  intros S. pose proof (stem_name_chars stem S) as W.
  destruct S as [NE Ws].
  unfold splitext_ext, basename.
  rewrite after_last_app by (apply (name_has_no slash _ W); reflexivity).
  change (stem ++ u ".png") with (stem ++ dot :: u "png").
  rewrite after_last_app by reflexivity.
  assert (E : existsb (N.eqb dot) (stem ++ dot :: u "png") = true).
  { rewrite existsb_app. cbn. apply orb_true_r. }
  rewrite E. rewrite length_app. cbn [length u map list_ascii_of_string].
  replace (length stem + 4 - 4)%nat with (length stem) by lia.
  rewrite firstn_app, Nat.sub_diag, firstn_all. cbn [firstn].
  rewrite app_nil_r.
  destruct stem as [|c stem]; [congruence|].
  cbn [forallb] in *. apply andb_prop in Ws. destruct Ws as [Wc _].
  destruct (dot =? c) eqn:Ed; [|reflexivity].
  apply N.eqb_eq in Ed. subst c. discriminate Wc.
Qed.

Lemma media_type_png (dir_path stem : str) :
  simple_stem stem ->
  media_type_of (path_join dir_path (assets_prefix ++ stem ++ u ".png"))
  = u "image/png".
Proof.
  intros S. destruct (path_join_assets dir_path (stem ++ u ".png")) as [x ->].
  unfold media_type_of. rewrite (splitext_png x stem S). reflexivity.
Qed.

Section Embedding.
Variable os : os_env.
Variable dir_path : str.
Variable chapter_id : nat.
Variable name : str.
Hypothesis name_chars : forallb is_name_char name = true.

Let step := embed_image os dir_path chapter_id.
Let bare := img_markup name.
Let embedded := img_markup (images_dir ++ name).

Lemma step_exists (b : EpubBook) (c p : str) :
  path_exists os (path_join dir_path p) = true ->
  step (b, c) p
  = (add_item (Item (image_item os dir_path chapter_id p)) b,
     replace (src_attr (basename p)) (src_attr (images_dir ++ basename p)) c).
Proof. intros E. unfold step, embed_image. rewrite E. reflexivity. Qed.

Lemma step_missing (b : EpubBook) (c p : str) :
  path_exists os (path_join dir_path p) = false -> step (b, c) p = (b, c).
Proof. intros E. unfold step, embed_image. rewrite E. reflexivity. Qed.

Lemma basename_no_slash (p : str) : existsb (N.eqb slash) (basename p) = false.
Proof. apply after_last_without. Qed.

Lemma images_name_no_quote : existsb (N.eqb 34) (images_dir ++ name) = false.
Proof.
  rewrite existsb_app. apply orb_false_iff. split; [reflexivity|].
  apply (name_has_no 34 name name_chars). reflexivity.
Qed.

Lemma step_keeps_embedded (b : EpubBook) (c p : str) :
  contains embedded c = true -> contains embedded (snd (step (b, c) p)) = true.
Proof.
  intros H. destruct (path_exists os (path_join dir_path p)) eqn:E.
  - rewrite step_exists by exact E. cbn [snd].
    apply replace_keeps_reference; auto.
    + apply images_name_no_quote.
    + apply basename_no_slash.
    + intros b0. apply images_name_no_match. apply basename_no_slash.
  - rewrite step_missing by exact E. exact H.
Qed.

Lemma step_keeps_bare (b : EpubBook) (c p : str) :
  (path_exists os (path_join dir_path p) = true -> basename p <> name) ->
  contains bare c = true -> contains bare (snd (step (b, c) p)) = true.
Proof.
  intros N H. destruct (path_exists os (path_join dir_path p)) eqn:E.
  - rewrite step_exists by exact E. cbn [snd].
    apply replace_keeps_reference; auto.
    + apply (name_has_no 34 name name_chars). reflexivity.
    + apply basename_no_slash.
    + intros b0. apply foreign_name_no_match; auto.
      * apply (name_has_no 34 name name_chars). reflexivity.
      * apply basename_no_slash.
  - rewrite step_missing by exact E. exact H.
Qed.

Lemma step_keeps_either (b : EpubBook) (c p : str) :
  contains bare c = true \/ contains embedded c = true ->
  contains bare (snd (step (b, c) p)) = true
  \/ contains embedded (snd (step (b, c) p)) = true.
Proof.
  intros [H|H]; [|right; apply step_keeps_embedded; exact H].
  destruct (path_exists os (path_join dir_path p)) eqn:E.
  - destruct (list_eq_dec N.eq_dec (basename p) name) as [Eq|Ne].
    + right. rewrite step_exists by exact E. cbn [snd]. rewrite Eq.
      apply replace_own_reference; assumption.
    + left. apply step_keeps_bare; auto.
  - left. rewrite step_missing by exact E. exact H.
Qed.

Lemma fold_keeps (J : str -> Prop) (pending : list str) :
  (forall b c p, In p pending -> J c -> J (snd (step (b, c) p))) ->
  forall b c, J c -> J (snd (fold_left step pending (b, c))).
Proof.
  induction pending as [|p pending IH]; intros HJ b c H; [exact H|].
  cbn [fold_left]. destruct (step (b, c) p) as [b1 c1] eqn:E.
  apply IH.
  - intros b0 c0 p0 I. apply HJ. right. exact I.
  - replace c1 with (snd (step (b, c) p)) by (rewrite E; reflexivity).
    apply HJ; [left; reflexivity | exact H].
Qed.

(** When the file of a pending path with the base name [name] exists, the
    chapter ends up with the reference below [images/]. *)
Lemma fold_embeds (pending : list str) (target : str) (b : EpubBook)
    (c : str) :
  In target pending -> basename target = name ->
  path_exists os (path_join dir_path target) = true ->
  contains bare c = true \/ contains embedded c = true ->
  contains embedded (snd (fold_left step pending (b, c))) = true.
Proof.
  revert b c. induction pending as [|p pending IH]; intros b c I Bn E H;
    [destruct I|].
  cbn [fold_left]. destruct (step (b, c) p) as [b1 c1] eqn:Es.
  assert (Ec : c1 = snd (step (b, c) p)) by (rewrite Es; reflexivity).
  destruct (list_eq_dec N.eq_dec p target) as [->|Ne].
  - apply (fold_keeps (fun c => contains embedded c = true)).
    + intros. apply step_keeps_embedded. assumption.
    + rewrite Ec. destruct H as [H|H].
      * rewrite step_exists by exact E. cbn [snd]. rewrite Bn.
        apply replace_own_reference; assumption.
      * apply step_keeps_embedded. exact H.
  - apply IH; auto.
    + destruct I as [I|I]; [congruence | exact I].
    + rewrite Ec. apply step_keeps_either. exact H.
Qed.

Lemma step_items (b : EpubBook) (c p : str) (x : book_item) :
  In x (items (fst (step (b, c) p))) <->
  In x (items b)
  \/ (path_exists os (path_join dir_path p) = true
      /\ x = Item (image_item os dir_path chapter_id p)).
Proof.
  destruct (path_exists os (path_join dir_path p)) eqn:E.
  - rewrite step_exists by exact E. cbn [fst add_item items].
    rewrite in_app_iff. cbn [In]. intuition.
  - rewrite step_missing by exact E. cbn [fst]. intuition discriminate.
Qed.

Lemma fold_items (pending : list str) (b : EpubBook) (c : str)
    (x : book_item) :
  In x (items (fst (fold_left step pending (b, c)))) <->
  In x (items b)
  \/ exists p, In p pending
               /\ path_exists os (path_join dir_path p) = true
               /\ x = Item (image_item os dir_path chapter_id p).
Proof.
  revert b c. induction pending as [|p pending IH]; intros b c.
  - cbn. split; [auto | intros [H|(p & [] & _)]; exact H].
  - cbn [fold_left]. destruct (step (b, c) p) as [b1 c1] eqn:Es.
    rewrite IH. replace b1 with (fst (step (b, c) p)) by (rewrite Es; auto).
    rewrite step_items. split.
    + intros [[H|[E ->]]|(p0 & I & E & ->)]; auto.
      * right. exists p. split; [left; reflexivity | auto].
      * right. exists p0. split; [right; exact I | auto].
    + intros [H|(p0 & [<-|I] & E & ->)]; auto.
      right. exists p0. auto.
Qed.

End Embedding.

(** ** The sample, end to end *)

(** The article without a date sorts first; its title is the directory
    name.  The chapter of [2024-03-01-a] carries its date. *)
Example sample_chapters :
  map (fun d => fst d) (process_directory sample_os (u "/books"))
  = [u "no-date-dir"; u "2024-03-01-a"]
  /\ map html_title (chapters sample_book) = [u "no-date-dir"; u "Title A"]
  /\ map html_file_name (chapters sample_book)
     = [u "chapter_1.xhtml"; u "chapter_2.xhtml"]
  /\ map href (book_toc (book sample_book))
     = [u "toc.xhtml"; u "chapter_1.xhtml"; u "chapter_2.xhtml"]
  /\ Forall (fun h => contains (u "<strong>2024-03-01</strong>")
                         (html_content h) = true)
       (skipn 1 (chapters sample_book)).
Proof.
  repeat split; try (vm_compute; reflexivity).
  vm_compute. repeat constructor.
Qed.

(** ** Dates of directory names, further *)

Lemma make_datetime_valid (y m d : N) (dt : datetime) :
  make_datetime y m d = Some dt -> dt = mkdate y m d /\ valid_date dt.
Proof.
  unfold make_datetime, in_range, valid_date. intros H.
  destruct (_ && _) eqn:E in H; [|discriminate].
  injection H as <-. cbn [year month day].
  rewrite !andb_true_iff, !N.leb_le in E. split; [reflexivity | lia].
Qed.

Lemma strptime_ymd_valid (s : str) (dt : datetime) :
  strptime_ymd s = Some dt -> valid_date dt.
Proof.
  unfold strptime_ymd. intros H.
  destruct (format_match s) as [[[[y m] d] [|? ?]]|]; try discriminate.
  destruct (int_of_digits y), (int_of_digits m), (int_of_digits (lstrip d));
    try discriminate.
  apply make_datetime_valid in H. apply H.
Qed.

Lemma default_date_valid : valid_date default_date.
Proof.
  unfold valid_date. change (year default_date) with 2000.
  change (month default_date) with 1. change (day default_date) with 1.
  change (days_in_month 2000 1) with 31. lia.
Qed.

(** X1: whatever the directory name, the date [extract_date_from_dirname]
    returns is a date of the calendar: its year is between 1 and 9999, its
    month between 1 and 12, and its day exists in that month of that
    year. *)
Theorem extract_date_from_dirname_valid (dirname : str) :
  valid_date (extract_date_from_dirname dirname).
Proof.
  unfold extract_date_from_dirname.
  destruct (search_date dirname) as [g|].
  - destruct (strptime_ymd g) as [d|] eqn:E.
    + exact (strptime_ymd_valid g d E).
    + apply default_date_valid.
  - apply default_date_valid.
Qed.

Lemma date_pattern_head (c : N) (l : str) :
  date_pattern (c :: l) = true -> isdigit c = true.
Proof.
  intros H. apply date_pattern_shape in H.
  destruct H as (y1 & y2 & y3 & y4 & m1 & m2 & d1 & d2 & E & F).
  injection E as -> _. apply Forall_cons_iff in F. apply F.
Qed.

Lemma isdigit_ascii (a : N) : a < 10 -> isdigit (48 + a) = true.
Proof.
  intros H. unfold isdigit. rewrite (decimal_value_ascii a H). reflexivity.
Qed.

Lemma date_pattern_iso_text (y m d : N) : date_pattern (iso_text y m d) = true.
Proof.
  unfold iso_text, date_pattern.
  rewrite !isdigit_ascii by (apply N.mod_lt; discriminate).
  reflexivity.
Qed.

Lemma search_date_after (pre w post : str) :
  forallb (fun c => negb (isdigit c)) pre = true ->
  date_pattern w = true ->
  search_date (pre ++ w ++ post) = Some w.
Proof.
  intros Hpre Hw. induction pre as [|c pre IH].
  - assert (L : firstn 10 (w ++ post) = w).
    { apply date_pattern_shape, date_shape_length in Hw.
      rewrite firstn_app, Hw, Nat.sub_diag, firstn_O, app_nil_r.
      rewrite <- Hw. apply firstn_all. }
    cbn [app]. destruct (w ++ post) as [|x r] eqn:E.
    + cbn [search_date]. cbn [firstn] in L |- *. rewrite L, Hw. reflexivity.
    + cbn [search_date]. rewrite L, Hw. reflexivity.
  - cbn [forallb] in Hpre. apply andb_true_iff in Hpre as [Hc Hpre].
    cbn [app search_date].
    destruct (date_pattern (firstn 10 (c :: pre ++ w ++ post))) eqn:D.
    + cbn [firstn] in D. apply date_pattern_head in D.
      rewrite D in Hc. discriminate.
    + exact (IH Hpre).
Qed.

Lemma days_in_month_le (y m : N) : days_in_month y m <= 31.
Proof.
  unfold days_in_month.
  destruct (m =? 2); [destruct (is_leap y); lia|].
  destruct (_ || _); lia.
Qed.

(** X2: a name made of a part without digits, a date of the calendar
    written as YYYY-MM-DD with ASCII digits, and any rest is given that
    very date. *)
Theorem extract_date_from_dirname_iso_text (pre post : str) (y m d : N) :
  forallb (fun c => negb (isdigit c)) pre = true ->
  valid_date (mkdate y m d) ->
  extract_date_from_dirname (pre ++ iso_text y m d ++ post) = mkdate y m d.
Proof.
  intros Hpre (Hy & Hm & Hd). cbn [year month day] in Hy, Hm, Hd.
  pose proof (days_in_month_le y m) as Hle.
  unfold extract_date_from_dirname.
  rewrite (search_date_after pre _ post Hpre (date_pattern_iso_text y m d)).
  rewrite strptime_ymd_iso_text by lia.
  unfold make_datetime, in_range.
  replace (_ && _) with true; [reflexivity|].
  symmetry. rewrite !andb_true_iff, !N.leb_le. lia.
Qed.

Lemma extract_date_from_dirname_iso_text_witness :
  forallb (fun c => negb (isdigit c)) (u "post-") = true
  /\ valid_date (mkdate 2024 2 29)
  /\ extract_date_from_dirname (u "post-" ++ iso_text 2024 2 29 ++ u "-leap")
     = mkdate 2024 2 29.
Proof.
  assert (H1 : forallb (fun c => negb (isdigit c)) (u "post-") = true)
    by (vm_compute; reflexivity).
  assert (H2 : valid_date (mkdate 2024 2 29))
    by (unfold valid_date; vm_compute; intuition discriminate).
  split; [exact H1|]. split; [exact H2|].
  exact (extract_date_from_dirname_iso_text (u "post-") (u "-leap") 2024 2 29
           H1 H2).
Defined.

(** ** The directory walker, further *)

Section SortedInput.
Context {A K : Type} (leb : K -> K -> bool) (key : A -> K).

Lemma sort_by_sorted_input (l : list A) :
  StronglySorted (fun x y => leb (key x) (key y) = true) l ->
  sort_by leb key l = l.
Proof.
  induction 1 as [|x l S IH F]; [reflexivity|].
  cbn [sort_by]. rewrite IH.
  destruct l as [|y l']; [reflexivity|].
  cbn [insert_by]. apply Forall_cons_iff in F. destruct F as [-> _].
  reflexivity.
Qed.
End SortedInput.

(** X3: when the article directories already come in the order of their
    dates from the listing of the source root, [process_directory] returns
    them in the order of the listing. *)
Theorem process_directory_ordered_listing (os : os_env) (source_dir : str) :
  date_ordered (article_dirs os source_dir) ->
  process_directory os source_dir = article_dirs os source_dir.
Proof.
  intros H. unfold process_directory.
  exact (sort_by_sorted_input date_leb _ _ H).
Qed.

Lemma process_directory_ordered_listing_witness :
  date_ordered (article_dirs ordered_os (u "/books"))
  /\ process_directory ordered_os (u "/books")
     = [(u "2023-12-31-b", u "/books/2023-12-31-b");
        (u "2024-03-01-a", u "/books/2024-03-01-a")].
Proof.
  assert (H : date_ordered (article_dirs ordered_os (u "/books"))).
  { assert (E : article_dirs ordered_os (u "/books")
               = [(u "2023-12-31-b", u "/books/2023-12-31-b");
                  (u "2024-03-01-a", u "/books/2024-03-01-a")])
      by (vm_compute; reflexivity).
    unfold date_ordered. rewrite E.
    repeat constructor. }
  split; [exact H|].
  rewrite (process_directory_ordered_listing ordered_os (u "/books") H).
  vm_compute. reflexivity.
Defined.

(** ** Cleaning, further *)

Lemma lstrip_split (s : str) :
  exists ws, s = ws ++ lstrip s /\ forallb isspace ws = true.
Proof.
  induction s as [|c s (ws & E & F)].
  - exists []. split; reflexivity.
  - cbn [lstrip]. destruct (isspace c) eqn:C.
    + exists (c :: ws). cbn [app forallb]. rewrite C, F, <- E.
      split; reflexivity.
    + exists []. split; reflexivity.
Qed.

Lemma lstrip_head (s : str) (c : N) :
  hd_error (lstrip s) = Some c -> isspace c = false.
Proof.
  induction s as [|x s IH]; [discriminate|].
  cbn [lstrip]. destruct (isspace x) eqn:X; [exact IH|].
  cbn. intros [= <-]. exact X.
Qed.

Lemma hd_error_app {A} (a b : list A) (c : A) :
  hd_error a = Some c -> hd_error (a ++ b) = Some c.
Proof. destruct a; [discriminate | exact (fun H => H)]. Qed.

Lemma strip_stripped (s : str) : stripped (strip s).
Proof.
  unfold stripped, strip. intros c.
  destruct (lstrip_split (rev (lstrip s))) as (ws & E & _).
  set (b := lstrip (rev (lstrip s))) in *.
  rewrite rev_involutive. intros [H|H].
  - apply (lstrip_head s c).
    apply (f_equal (@rev N)) in E. rewrite rev_involutive, rev_app_distr in E.
    rewrite E. apply hd_error_app. exact H.
  - exact (lstrip_head _ c H).
Qed.

Lemma stripped_nil : stripped [].
Proof. intros c [H|H]; discriminate. Qed.

Lemma extract_title_stripped (soup : node) : stripped (extract_title soup).
Proof.
  unfold extract_title.
  destruct (find _ soup); [apply strip_stripped | apply stripped_nil].
Qed.

(** X4: the title [clean_html_content] returns neither starts nor ends
    with white space, whatever the document and whether or not its content
    container is found. *)
Theorem clean_html_content_title_stripped (parse : str -> node)
    (pending : list str) (html : str) :
  stripped (fst (fst (clean_html_content parse pending html))).
Proof.
  unfold clean_html_content.
  destruct (find_content_div _); cbn [fst]; apply extract_title_stripped.
Qed.

Lemma prune_prune_descendants (sel1 sel2 : node -> bool) (t d : node) :
  In d (descendants (prune sel2 (prune sel1 t))) ->
  exists d0, In d0 (descendants t)
             /\ d = prune sel2 (prune sel1 d0)
             /\ sel1 d0 = false /\ sel2 (prune sel1 d0) = false.
Proof.
  intros H.
  apply prune_descendants in H. destruct H as (d1 & H1 & -> & S2).
  apply prune_descendants in H1. destruct H1 as (d0 & H0 & -> & S1).
  exists d0. auto.
Qed.

Lemma starts_like_comment_prune (sel : node -> bool) (d : node) :
  starts_like_comment (prune sel d) = starts_like_comment d.
Proof. destruct d; reflexivity. Qed.

(** X5: after the two removal loops of [clean_html_content] the tree holds,
    at any depth, no element named script, style, meta, link, noscript or
    iframe and no string whose text, stripped, starts with the four
    characters that open a comment; and every node it holds is what the
    loops leave of a node of the parsed document. *)
Theorem remove_unwanted_postcondition (soup : node) :
  Forall
    (fun d => unwanted d = false
              /\ exists d0, In d0 (descendants soup)
                            /\ d = remove_unwanted d0)
    (descendants (remove_unwanted soup)).
Proof.
  apply Forall_forall. intros d H. unfold remove_unwanted in H.
  apply prune_prune_descendants in H.
  destruct H as (d0 & H0 & -> & S1 & S2).
  split; [|exists d0; split; [exact H0 | reflexivity]].
  unfold unwanted.
  rewrite starts_like_comment_prune, S2, !named_prune, S1. reflexivity.
Qed.

Lemma prune_none (sel : node -> bool) (t : node) :
  Forall (fun d => sel d = false) (descendants t) -> prune sel t = t.
Proof.
  induction t as [k s | n a cs IH] using node_ind; intros H; [reflexivity|].
  cbn [prune]. f_equal. cbn [descendants] in H.
  induction cs as [|c cs IHcs]; [reflexivity|].
  cbn [flat_map] in H |- *. apply Forall_app in H. destruct H as [Hc Hcs].
  apply Forall_cons_iff in IH. destruct IH as [IHc IH].
  assert (Hc' : sel c = false
                /\ Forall (fun d => sel d = false) (descendants c)).
  { destruct c; cbn [self_and_descendants descendants] in Hc |- *;
      apply Forall_cons_iff in Hc; exact Hc. }
  destruct Hc' as [Sc Hd]. rewrite Sc. cbn [app]. f_equal.
  - exact (IHc Hd).
  - exact (IHcs IH Hcs).
Qed.

(** X6: a document that holds no such element and no such string passes
    the two removal loops unchanged. *)
Theorem remove_unwanted_nothing_to_remove (soup : node) :
  Forall (fun d => unwanted d = false) (descendants soup) ->
  remove_unwanted soup = soup.
Proof.
  intros H. unfold remove_unwanted.
  assert (E : prune (named unwanted_tags) soup = soup).
  { apply prune_none. eapply Forall_impl; [|exact H].
    cbn beta. unfold unwanted. intros d Hd.
    apply orb_false_iff in Hd. apply Hd. }
  rewrite E. apply prune_none. eapply Forall_impl; [|exact H].
  cbn beta. unfold unwanted. intros d Hd. apply orb_false_iff in Hd. apply Hd.
Qed.

Lemma remove_unwanted_nothing_to_remove_witness :
  Forall (fun d => unwanted d = false) (descendants document_b)
  /\ remove_unwanted document_b = document_b.
Proof.
  assert (H : Forall (fun d => unwanted d = false) (descendants document_b))
    by (cbn [descendants document_b soup_of flat_map self_and_descendants
             text_p NavigableString app];
        repeat constructor).
  split; [exact H | exact (remove_unwanted_nothing_to_remove document_b H)].
Defined.

Lemma find_hd_filter {A} (f : A -> bool) (l : list A) :
  List.find f l = hd_error (filter f l).
Proof.
  induction l as [|x l IH]; [reflexivity|].
  cbn [List.find filter]. destruct (f x); [reflexivity | exact IH].
Qed.

(** X7: the content container is the first [div] of the document, in
    document order, whose [id] is [js_content]; only when the document has
    no such [div] it is the first [div] with the class
    [rich_media_content], also when that one comes earlier in the
    document. *)
Theorem find_content_div_priority (soup : node) :
  find_content_div soup
  = hd_error (find_all (is_div_with_id js_content) soup
              ++ find_all (is_div_with_class rich_media_content) soup).
Proof.
  unfold find_content_div, find, find_all. rewrite !find_hd_filter.
  destruct (filter (is_div_with_id js_content) (descendants soup));
    reflexivity.
Qed.

(** ** The trees the loops work on, further *)

Lemma lookup_self_and_descendants (q : path) (t d : node) :
  lookup q t = Some d -> In d (self_and_descendants t).
Proof.
  revert t. induction q as [|i q IH]; intros t H.
  - injection H as ->. destruct d; left; reflexivity.
  - destruct t as [n a cs|k s]; [|discriminate].
    cbn [lookup] in H. destruct (nth_error cs i) as [c|] eqn:E; [|discriminate].
    cbn [self_and_descendants]. right. apply in_flat_map. exists c.
    split; [exact (nth_error_In _ _ E) | exact (IH c H)].
Qed.

Lemma lookup_descendants (q : path) (t d : node) :
  q <> [] -> lookup q t = Some d -> In d (descendants t).
Proof.
  destruct q as [|i q]; [congruence|]. intros _ H.
  destruct t as [n a cs|k s]; [|discriminate].
  cbn [lookup] in H. destruct (nth_error cs i) as [c|] eqn:E; [|discriminate].
  cbn [descendants]. apply in_flat_map. exists c.
  split; [exact (nth_error_In _ _ E) | exact (lookup_self_and_descendants q c d H)].
Qed.

Lemma self_and_descendants_map_attrs (f : str -> attributes -> attributes)
    (t : node) :
  self_and_descendants (map_attrs f t)
  = map (map_attrs f) (self_and_descendants t).
Proof.
  induction t as [k s | n a cs IH] using node_ind; [reflexivity|].
  cbn [map_attrs self_and_descendants map]. f_equal.
  induction cs as [|c cs IHcs]; [reflexivity|].
  apply Forall_cons_iff in IH. destruct IH as [IHc IH].
  cbn [map flat_map]. rewrite map_app, IHc, (IHcs IH). reflexivity.
Qed.

Lemma descendants_map_descendant_attrs (f : str -> attributes -> attributes)
    (t : node) :
  descendants (map_descendant_attrs f t)
  = map (map_attrs f) (descendants t).
Proof.
  destruct t as [n a cs|k s]; [|reflexivity].
  cbn [map_descendant_attrs descendants].
  induction cs as [|c cs IH]; [reflexivity|].
  cbn [map flat_map].
  rewrite map_app, self_and_descendants_map_attrs, IH. reflexivity.
Qed.





Lemma attr_get_set_other (k k' v : str) (a : attributes) :
  k <> k' -> attr_get k (attr_set k' v a) = attr_get k a.
Proof.
  intros N. assert (E : str_eqb k k' = false).
  { destruct (str_eqb k k') eqn:E; [|reflexivity].
    apply str_eqb_eq in E. contradiction. }
  induction a as [|[k0 v0] a IH]; cbn [attr_set attr_get].
  - rewrite E. reflexivity.
  - destruct (str_eqb k' k0) eqn:E0; cbn [attr_get].
    + apply str_eqb_eq in E0. subst k0. rewrite E. reflexivity.
    + destruct (str_eqb k k0); [reflexivity | exact IH].
Qed.


Lemma filter_idem {A} (f : A -> bool) (l : list A) :
  filter f (filter f l) = filter f l.
Proof.
  induction l as [|x l IH]; [reflexivity|].
  cbn [filter]. destruct (f x) eqn:E; [|exact IH].
  cbn [filter]. rewrite E, IH. reflexivity.
Qed.

(** ** The loop over the images, further *)

Lemma basename_not_assets (s : str) :
  startswith assets_prefix (basename s) = false.
Proof.
  destruct (startswith assets_prefix (basename s)) eqn:E; [|reflexivity].
  apply startswith_iff in E. destruct E as [r E].
  pose proof (after_last_without slash s) as W.
  fold (basename s) in W. rewrite E in W. cbn in W. discriminate.
Qed.

Lemma image_attrs_get_src (a : attributes) :
  get src_key [] (image_attrs a)
  = if startswith assets_prefix (get src_key [] a)
    then basename (get src_key [] a) else get src_key [] a.
Proof.
  unfold get at 1.
  destruct (startswith assets_prefix (get src_key [] a)) eqn:E.
  - rewrite (image_attrs_assets a E). reflexivity.
  - rewrite (image_attrs_src a E). reflexivity.
Qed.

Lemma image_attrs_not_assets (a : attributes) :
  startswith assets_prefix (get src_key [] (image_attrs a)) = false.
Proof.
  rewrite image_attrs_get_src.
  destruct (startswith assets_prefix (get src_key [] a)) eqn:E;
    [apply basename_not_assets | exact E].
Qed.

Lemma image_attrs_idem (a : attributes) :
  image_attrs (image_attrs a) = image_attrs a.
Proof.
  pose proof (image_attrs_not_assets a) as H.
  unfold image_attrs at 1. rewrite H.
  unfold image_attrs. apply filter_idem.
Qed.

Lemma image_attrs_alt (a : attributes) :
  attr_get alt_key (image_attrs a) = attr_get alt_key a.
Proof.
  unfold image_attrs.
  rewrite attr_get_filter by (intros v; reflexivity).
  destruct (startswith assets_prefix (get src_key [] a)); [|reflexivity].
  apply attr_get_set_other. discriminate.
Qed.

Lemma clean_image_idem (n : str) (a : attributes) :
  clean_image n (clean_image n a) = clean_image n a.
Proof.
  unfold clean_image. destruct (str_eqb n (u "img")) eqn:E; rewrite ?E;
    [apply image_attrs_idem | reflexivity].
Qed.

Lemma map_attrs_idem (f : str -> attributes -> attributes) (t : node) :
  (forall n a, f n (f n a) = f n a) ->
  map_attrs f (map_attrs f t) = map_attrs f t.
Proof.
  intros F. induction t as [k s | n a cs IH] using node_ind; [reflexivity|].
  cbn [map_attrs]. rewrite F. f_equal. rewrite map_map.
  induction cs as [|c cs IHcs]; [reflexivity|].
  apply Forall_cons_iff in IH. destruct IH as [IHc IH].
  cbn [map]. rewrite IHc, (IHcs IH). reflexivity.
Qed.

Lemma recorded_images_src_of (soup : node) :
  recorded_images soup
  = filter (startswith assets_prefix) (map src_of (find_all is_img soup)).
Proof. reflexivity. Qed.

Lemma is_img_map_attrs (f : str -> attributes -> attributes) (d : node) :
  is_img (map_attrs f d) = is_img d.
Proof. destruct d; reflexivity. Qed.

Lemma recorded_none (l : list node) :
  filter (startswith assets_prefix)
    (map src_of (filter is_img (map (map_attrs clean_image) l))) = [].
Proof.
  induction l as [|d l IH]; [reflexivity|].
  cbn [map filter]. rewrite is_img_map_attrs.
  destruct (is_img d) eqn:I; [|exact IH].
  cbn [map filter].
  destruct d as [n a cs|k s]; [|discriminate].
  cbn [map_attrs src_of]. unfold is_img, named in I. cbn [existsb] in I.
  rewrite orb_false_r in I. unfold clean_image. rewrite I.
  rewrite image_attrs_not_assets. exact IH.
Qed.

(** X8: an [img] element whose [src] begins with [./assets/] leaves the
    image loop of [clean_html_content] with the base name of that address
    as its [src], a name without a slash, and with its [alt] as it was; the
    address it had is in the list of pending images. *)
Theorem process_images_assets (soup : node) (q : path)
    (a' : attributes) (cs' : list node) :
  q <> [] ->
  lookup q (process_images soup) = Some (Tag (u "img") a' cs') ->
  exists a cs,
    lookup q soup = Some (Tag (u "img") a cs)
    /\ attr_get alt_key a' = attr_get alt_key a
    /\ (startswith assets_prefix (get src_key [] a) = true ->
        attr_get src_key a' = Some (basename (get src_key [] a))
        /\ existsb (N.eqb slash) (get src_key [] a') = false
        /\ In (get src_key [] a) (recorded_images soup)).
Proof.
  intros Nq H. unfold process_images in H.
  rewrite lookup_map_descendant_attrs in H by exact Nq.
  destruct (lookup q soup) as [t|] eqn:L; [|discriminate].
  cbn [option_map] in H. injection H as H.
  apply map_attrs_tag_inv in H. destruct H as (a & cs & -> & ->).
  exists a, cs. split; [reflexivity|].
  change (clean_image (u "img") a) with (image_attrs a).
  split; [apply image_attrs_alt|]. intros P.
  split; [exact (image_attrs_assets a P)|]. split.
  - rewrite image_attrs_get_src, P. apply after_last_without.
  - rewrite recorded_images_src_of. apply filter_In. split; [|exact P].
    apply (in_map src_of _ (Tag (u "img") a cs)).
    apply filter_In. split; [|reflexivity].
    exact (lookup_descendants q soup _ Nq L).
Qed.

Lemma process_images_assets_witness :
  [0; 0; 0; 2; 0]%nat <> []
  /\ lookup [0; 0; 0; 2; 0]%nat (process_images styled_document)
     = Some (Tag (u "img") [(u "src", u "x.png"); (u "alt", u "x")] [])
  /\ exists a cs,
       lookup [0; 0; 0; 2; 0]%nat styled_document = Some (Tag (u "img") a cs)
       /\ attr_get alt_key [(u "src", u "x.png"); (u "alt", u "x")]
          = attr_get alt_key a
       /\ (startswith assets_prefix (get src_key [] a) = true ->
           attr_get src_key [(u "src", u "x.png"); (u "alt", u "x")]
           = Some (basename (get src_key [] a))
           /\ existsb (N.eqb slash)
                (get src_key [] [(u "src", u "x.png"); (u "alt", u "x")])
              = false
           /\ In (get src_key [] a) (recorded_images styled_document)).
Proof.
  split; [discriminate|]. split; [vm_compute; reflexivity|].
  apply (process_images_assets styled_document [0; 0; 0; 2; 0]%nat
           [(u "src", u "x.png"); (u "alt", u "x")] []).
  - discriminate.
  - vm_compute. reflexivity.
Defined.

(** X9: running the image loop of [clean_html_content] on a tree it has
    already been run on changes nothing, and finds no pending image: no
    [img] element of a cleaned tree has a [src] that begins with
    [./assets/]. *)
Theorem process_images_idempotent (soup : node) :
  process_images (process_images soup) = process_images soup
  /\ recorded_images (process_images soup) = [].
Proof.
  split.
  - unfold process_images. destruct soup as [n a cs|k s]; [|reflexivity].
    cbn [map_descendant_attrs]. f_equal. rewrite map_map.
    apply map_ext. intros c. apply map_attrs_idem. apply clean_image_idem.
  - rewrite recorded_images_src_of. unfold find_all, process_images.
    rewrite descendants_map_descendant_attrs. apply recorded_none.
Qed.


(** ** The style normaliser, further *)





(** ** The markup [_preserve_formatting] returns *)

Lemma startswith_nil_r (w : str) : startswith w [] = true -> w = [].
Proof. destruct w; [reflexivity | discriminate]. Qed.

(** A text without a line feed at the start of the result was at the
    start of the markup. *)
Lemma separated_prefix (s w : str) :
  ~ In 10 w ->
  startswith w (replace adjacent_paragraphs separated_paragraphs s) = true ->
  startswith w s = true.
Proof.
  remember (length s) as n eqn:Hn. revert s Hn w.
  induction n as [n IH] using lt_wf_ind. intros s Hn w Hw H.
  destruct s as [|c s]; [exact H|].
  destruct (startswith adjacent_paragraphs (c :: s)) eqn:E.
  - apply startswith_iff in E. destruct E as [r Er]. rewrite Er in *.
    rewrite replace_match in H by discriminate.
    destruct w as [|a [|b [|x [|y [|z w]]]]];
      try (cbn in H |- *; exact H).
    exfalso. apply Hw. cbn in H.
    rewrite !andb_true_iff in H. destruct H as (_ & _ & _ & _ & H & _).
    apply N.eqb_eq in H. subst z. cbn. auto 6.
  - rewrite replace_no_match in H by exact E.
    destruct w as [|a w]; [reflexivity|].
    cbn [startswith] in H |- *. apply andb_true_iff in H. destruct H as [A H].
    rewrite A. cbn [andb].
    apply (IH (length s)) with (s := s); [subst n; cbn; lia | reflexivity | | exact H].
    intros I. apply Hw. right. exact I.
Qed.

Lemma replace_separates (s : str) :
  contains adjacent_paragraphs
    (replace adjacent_paragraphs separated_paragraphs s) = false.
Proof.
  remember (length s) as n eqn:Hn. revert s Hn.
  induction n as [n IH] using lt_wf_ind. intros s Hn.
  destruct s as [|c s]; [reflexivity|].
  destruct (startswith adjacent_paragraphs (c :: s)) eqn:E.
  - apply startswith_iff in E. destruct E as [r Er]. rewrite Er.
    rewrite replace_match by discriminate.
    assert (Hr : contains adjacent_paragraphs
                   (replace adjacent_paragraphs separated_paragraphs r)
                 = false).
    { apply (IH (length r)); [|reflexivity].
      subst n. rewrite Er, length_app. cbn. lia. }
    set (R := replace adjacent_paragraphs separated_paragraphs r) in *.
    change (separated_paragraphs ++ R)
      with (60 :: 47 :: 112 :: 62 :: 10 :: 60 :: 112 :: R).
    change adjacent_paragraphs with [60; 47; 112; 62; 60; 112] in *.
    cbn [contains startswith N.eqb Pos.eqb andb orb].
    destruct R as [|x R]; [reflexivity|].
    cbn [contains startswith N.eqb Pos.eqb andb orb] in Hr |- *.
    exact Hr.
  - rewrite replace_no_match by exact E.
    cbn [contains].
    rewrite (IH (length s)) by (subst n; cbn; lia || reflexivity).
    rewrite orb_false_r.
    destruct (startswith adjacent_paragraphs
                (c :: replace adjacent_paragraphs separated_paragraphs s))
      eqn:S; [|reflexivity].
    rewrite <- (replace_no_match _ _ _ _ E) in S.
    apply separated_prefix in S; [congruence|].
    cbn. intros H. repeat (destruct H as [H|H]; [discriminate|]). exact H.
Qed.

(** X12: the markup [_preserve_formatting] returns never holds the end of
    a paragraph right before the start of a paragraph. *)
Theorem preserve_formatting_separates (parse : str -> node) (html : str) :
  contains adjacent_paragraphs (preserve_formatting parse html) = false.
Proof. apply replace_separates. Qed.

Lemma inserted_filter (f : N -> bool) (p ins q s out : str) :
  filter f ins = [] ->
  inserted p ins q s out -> filter f out = filter f s.
Proof.
  intros F H. induction H as [s | x y out Hx Hy H IH]; [reflexivity|].
  rewrite !filter_app, F, IH. reflexivity.
Qed.

(** X13: the markup [_preserve_formatting] returns is the serialised tree
    with line feeds put in, each right after the end of a paragraph and
    right before the start of one, and nothing else changed: without its
    line feeds it is the serialised tree without its line feeds. *)
Theorem preserve_formatting_line_feeds (parse : str -> node) (html : str) :
  let markup := decode (normalize_styles (parse html)) in
  inserted (u "</p>") [10] (u "<p") markup (preserve_formatting parse html)
  /\ filter not_line_feed (preserve_formatting parse html)
     = filter not_line_feed markup.
Proof.
  cbv zeta. unfold preserve_formatting.
  assert (I : inserted (u "</p>") [10] (u "<p")
                (decode (normalize_styles (parse html)))
                (replace (u "</p><p") (u "</p>" ++ [10] ++ u "<p")
                   (decode (normalize_styles (parse html)))))
    by (apply (replace_inserted (u "</p>") [10] (u "<p")); discriminate).
  split; [exact I|].
  apply (inserted_filter not_line_feed (u "</p>") [10] (u "<p"));
    [reflexivity | exact I].
Qed.

(** ** The footer stripper, further *)

Lemma in_escape (c : N) (s : str) :
  c <> 38 -> c <> 60 -> c <> 62 -> In c s -> In c (escape s).
Proof.
  intros N1 N2 N3 H. unfold escape. apply in_flat_map. exists c.
  split; [exact H|].
  apply N.eqb_neq in N1, N2, N3. rewrite N1, N2, N3. left. reflexivity.
Qed.

(** A character of the text of an element, other than the three that are
    escaped, is in its markup. *)
Lemma text_in_markup (c : N) (t : node) (parent : str) :
  c <> 38 -> c <> 60 -> c <> 62 ->
  In c (get_text t) -> In c (decode_in parent t).
Proof.
  intros N1 N2 N3. revert parent.
  induction t as [k s | n a cs IH] using node_ind; intros parent H.
  - destruct k; cbn [get_text] in H; try contradiction;
      cbn [decode_in decode_string].
    + destruct (existsb _ _); [exact H | apply in_escape; assumption].
    + apply in_or_app. right. apply in_or_app. left. exact H.
  - cbn [get_text] in H. apply in_flat_map in H. destruct H as (x & Ix & Hx).
    assert (I : In c (flat_map (decode_in n) cs)).
    { apply in_flat_map. exists x. split; [exact Ix|].
      rewrite Forall_forall in IH. exact (IH x Ix n Hx). }
    cbn [decode_in]. destruct (str_eqb n document_name); [exact I|].
    destruct cs as [|y cs]; [contradiction|].
    apply in_or_app. right. apply in_or_app. right. apply in_or_app. right.
    apply in_or_app. right. apply in_or_app. left. exact I.
Qed.

Lemma contains_char (c : N) (s : str) : In c s -> contains [c] s = true.
Proof.
  intros H. apply in_split in H. destruct H as (a & b & ->).
  apply contains_iff. exists a, b. reflexivity.
Qed.

Lemma is_footer_address (p : node) : In 64 (get_text p) -> is_footer p = true.
Proof.
  intros H. unfold is_footer.
  assert (E : contains (u "@") (decode p) = true).
  { apply (contains_char 64). apply text_in_markup; try discriminate.
    exact H. }
  cbn [email_patterns existsb]. rewrite E.
  rewrite !orb_true_r. reflexivity.
Qed.

(** The stripper removes the paragraphs after the first [k], last first,
    and leaves the first [k] as the paragraphs of the container. *)
Lemma remove_footer_elements_paths (t : node) (ps : list path) :
  find_all_paths is_p t = ps ->
  exists k,
    (k <= length ps)%nat
    /\ removed_paragraphs t = rev (skipn k ps)
    /\ find_all_paths is_p (remove_footer_elements t) = firstn k ps.
Proof.
  intros E. rewrite remove_footer_elements_fold. unfold removed_paragraphs.
  rewrite E. destruct (length ps <? 3)%nat.
  - exists (length ps). rewrite skipn_all, firstn_all. cbn.
    split; [lia|]. split; [reflexivity | exact E].
  - unfold footer_elements. rewrite E.
    destruct (scan_footer_spec t 5 (rev ps)) as (k & Ek & _ & Kl & _).
    rewrite length_rev in Kl. rewrite Ek, firstn_rev.
    exists (length ps - k)%nat. split; [lia|]. split; [reflexivity|].
    destruct (find_all_paths_remove_suffix [u "p"]
                (skipn (length ps - k) ps) (firstn (length ps - k) ps) t)
      as [R _].
    { rewrite firstn_skipn. exact E. }
    exact R.
Qed.

(** X14: in a container of three paragraphs or more whose last paragraph
    has the character [@] in its text, the footer stripper removes the
    last paragraph: the paragraphs left are some of those before it,
    from the first on. *)
Theorem remove_footer_elements_address (t : node) (ps : list path)
    (q : path) (p : node) :
  find_all_paths is_p t = ps ++ [q] ->
  (2 <= length ps)%nat ->
  lookup q t = Some p ->
  In 64 (get_text p) ->
  In q (removed_paragraphs t)
  /\ exists k, (k <= length ps)%nat
               /\ find_all_paths is_p (remove_footer_elements t)
                  = firstn k ps.
Proof.
  intros E Len L At.
  assert (F : is_footer_at t q = true).
  { unfold is_footer_at. rewrite L. apply is_footer_address. exact At. }
  assert (R : exists r, removed_paragraphs t = q :: r).
  { unfold removed_paragraphs, footer_elements. rewrite E.
    replace (length (ps ++ [q]) <? 3)%nat with false
      by (symmetry; apply Nat.ltb_ge; rewrite length_app; cbn; lia).
    rewrite rev_app_distr. cbn [rev app scan_footer]. rewrite F. eauto. }
  destruct R as [r R]. split; [rewrite R; left; reflexivity|].
  destruct (remove_footer_elements_paths t (ps ++ [q]) E) as (k & Kl & Er & Ef).
  rewrite R in Er.
  destruct (Nat.eq_dec k (length (ps ++ [q]))) as [->|Nk].
  - rewrite skipn_all in Er. discriminate.
  - rewrite length_app in Kl, Nk. cbn [length] in Kl, Nk.
    exists k. split; [lia|]. rewrite Ef.
    rewrite firstn_app. replace (k - length ps)%nat with 0%nat by lia.
    cbn [firstn]. apply app_nil_r.
Qed.

Lemma remove_footer_elements_address_witness :
  find_all_paths is_p four_paragraphs
  = [[0; 0; 0; 0]; [0; 0; 0; 1]; [0; 0; 0; 2]]%nat ++ [[0; 0; 0; 3]%nat]
  /\ lookup [0; 0; 0; 3]%nat four_paragraphs
     = Some (text_p (u "me@example.org"))
  /\ In [0; 0; 0; 3]%nat (removed_paragraphs four_paragraphs)
  /\ exists k, (k <= 3)%nat
               /\ find_all_paths is_p (remove_footer_elements four_paragraphs)
                  = firstn k [[0; 0; 0; 0]; [0; 0; 0; 1]; [0; 0; 0; 2]]%nat.
Proof.
  assert (E : find_all_paths is_p four_paragraphs
              = [[0; 0; 0; 0]; [0; 0; 0; 1]; [0; 0; 0; 2]]%nat
                ++ [[0; 0; 0; 3]%nat]) by (vm_compute; reflexivity).
  assert (L : lookup [0; 0; 0; 3]%nat four_paragraphs
              = Some (text_p (u "me@example.org")))
    by (vm_compute; reflexivity).
  split; [exact E|]. split; [exact L|].
  apply (remove_footer_elements_address four_paragraphs
           [[0; 0; 0; 0]; [0; 0; 0; 1]; [0; 0; 0; 2]]%nat [0; 0; 0; 3]%nat
           (text_p (u "me@example.org")) E);
    [cbn; lia | exact L | vm_compute; auto 10].
Defined.

(** X15: when the last paragraph of a container matches none of the
    heuristics, the footer stripper removes nothing, whatever the
    paragraphs before it hold. *)
Theorem remove_footer_elements_last_kept (t : node) (ps : list path)
    (q : path) :
  find_all_paths is_p t = ps ++ [q] ->
  is_footer_at t q = false ->
  remove_footer_elements t = t.
Proof.
  intros E F. rewrite remove_footer_elements_fold.
  unfold removed_paragraphs, footer_elements. rewrite E.
  destruct (length (ps ++ [q]) <? 3)%nat; [reflexivity|].
  rewrite rev_app_distr. cbn [rev app scan_footer]. rewrite F. reflexivity.
Qed.

Lemma remove_footer_elements_last_kept_witness :
  find_all_paths is_p address_inside
  = [[0; 0; 0; 0]; [0; 0; 0; 1]]%nat ++ [[0; 0; 0; 2]%nat]
  /\ is_footer_at address_inside [0; 0; 0; 1]%nat = true
  /\ is_footer_at address_inside [0; 0; 0; 2]%nat = false
  /\ remove_footer_elements address_inside = address_inside.
Proof.
  assert (E : find_all_paths is_p address_inside
              = [[0; 0; 0; 0]; [0; 0; 0; 1]]%nat ++ [[0; 0; 0; 2]%nat])
    by (vm_compute; reflexivity).
  assert (F : is_footer_at address_inside [0; 0; 0; 2]%nat = false)
    by (vm_compute; reflexivity).
  split; [exact E|]. split; [vm_compute; reflexivity|]. split; [exact F|].
  exact (remove_footer_elements_last_kept address_inside _ _ E F).
Defined.

(** ** [process_html_file], further *)

(** The result of [process_html_file] when [index.html] is there. *)
Lemma process_html_file_unfold (parse : str -> node) (os : os_env)
    (self : converter) (dir_info : str * str) (chapter_id : nat) :
  path_exists os (path_join (snd dir_info) index_html) = true ->
  let dir_path := snd dir_info in
  let r := clean_html_content parse []
             (read_text os (path_join dir_path index_html)) in
  let title :=
    match fst (fst r) with [] => fst dir_info | _ => fst (fst r) end in
  let c0 := chapter_markup title (date_str_of (fst dir_info)) (snd (fst r)) in
  let st :=
    if path_exists os (path_join dir_path (u "assets"))
    then fold_left (embed_image os dir_path chapter_id) (snd r) (book self, c0)
    else (book self, c0) in
  process_html_file parse os self dir_info chapter_id
  = (with_book (fst st) (snd r) self,
     Some ({| html_title := title;
              html_file_name := chapter_file_name chapter_id;
              html_lang := u "zh-CN"; html_content := snd st;
              html_links := [file_name css_file] |}, title)).
Proof.
  intros E. cbv zeta. unfold process_html_file. rewrite E. cbn [negb].
  destruct (clean_html_content parse [] _) as [[title0 clean] pending].
  cbn [fst snd].
  destruct (if path_exists os (path_join (snd dir_info) (u "assets"))
            then _ else _) as [b1 c1].
  reflexivity.
Qed.

Lemma process_html_file_missing (parse : str -> node) (os : os_env)
    (self : converter) (dir_info : str * str) (chapter_id : nat) :
  path_exists os (path_join (snd dir_info) index_html) = false ->
  process_html_file parse os self dir_info chapter_id = (self, None).
Proof. intros E. unfold process_html_file. rewrite E. reflexivity. Qed.

Lemma embed_images_items (os : os_env) (dir_path : str) (chapter_id : nat)
    (pending : list str) (b : EpubBook) (c : str) :
  items (fst (fold_left (embed_image os dir_path chapter_id) pending (b, c)))
  = items b
    ++ map (fun p => Item (image_item os dir_path chapter_id p))
         (filter (fun p => path_exists os (path_join dir_path p)) pending).
Proof.
  revert b c. induction pending as [|p pending IH]; intros b c.
  - cbn. rewrite app_nil_r. reflexivity.
  - cbn [fold_left filter].
    destruct (path_exists os (path_join dir_path p)) eqn:E.
    + rewrite step_exists by exact E. rewrite IH.
      cbn [add_item items map]. rewrite <- app_assoc. reflexivity.
    + rewrite step_missing by exact E. apply IH.
Qed.

(** X16: [process_html_file] adds to the book one image resource for
    every pending image of the article whose file exists, in the order of
    the pending list and as many times as the address is in that list, and
    nothing else; it adds none when the directory has no [assets].  It
    leaves the chapters, the spine and the navigation list of the
    converter as they are, and the whole converter when [index.html] is
    missing. *)
Theorem process_html_file_resources (parse : str -> node) (os : os_env)
    (self : converter) (dir_info : str * str) (chapter_id : nat) :
  let dir_path := snd dir_info in
  let self' := fst (process_html_file parse os self dir_info chapter_id) in
  if path_exists os (path_join dir_path index_html) then
    image_files_to_process self' = pending_images parse os dir_path
    /\ items (book self')
       = items (book self) ++ chapter_resources parse os dir_path chapter_id
    /\ chapters self' = chapters self /\ spine self' = spine self
    /\ toc self' = toc self
  else self' = self.
Proof.
  cbv zeta. destruct (path_exists os (path_join (snd dir_info) index_html))
    eqn:E.
  - rewrite (process_html_file_unfold parse os self dir_info chapter_id E).
    cbn [fst with_book image_files_to_process book chapters spine toc].
    unfold chapter_resources, pending_images.
    split; [reflexivity|]. split; [|auto].
    destruct (path_exists os (path_join (snd dir_info) (u "assets"))).
    + apply embed_images_items.
    + cbn [fst]. rewrite app_nil_r. reflexivity.
  - rewrite (process_html_file_missing parse os self dir_info chapter_id E).
    reflexivity.
Qed.

Lemma media_type_of_known (p : str) :
  In (media_type_of p) (map snd media_types).
Proof.
  unfold media_type_of.
  destruct (_ || _); [left; reflexivity|].
  destruct (str_eqb _ (u ".png")); [right; right; left; reflexivity|].
  destruct (str_eqb _ (u ".gif")); [do 3 right; left; reflexivity|].
  destruct (str_eqb _ (u ".svg")); [do 4 right; left; reflexivity|].
  left. reflexivity.
Qed.

Lemma pending_images_prefix (parse : str -> node) (os : os_env)
    (dir_path p : str) :
  In p (pending_images parse os dir_path) ->
  startswith assets_prefix p = true.
Proof.
  unfold pending_images, clean_html_content.
  destruct (find_content_div _); cbn [snd app]; [|contradiction].
  apply recorded_images_prefix.
Qed.

(** X17: every resource [process_html_file] makes for an article is an
    image that sits directly below [images/] under the base name of a
    pending address of the article, an address that begins with
    [./assets/] and whose file exists; it holds the bytes of that file, its
    identifier is made of the chapter number and that base name, and its
    media type is one of image/jpeg, image/png, image/gif and
    image/svg+xml. *)
Theorem chapter_resources_images (parse : str -> node) (os : os_env)
    (dir_path : str) (chapter_id : nat) :
  Forall
    (image_resource os dir_path chapter_id (pending_images parse os dir_path))
    (chapter_resources parse os dir_path chapter_id).
Proof.
  unfold chapter_resources.
  destruct (path_exists os (path_join dir_path (u "assets"))); [|constructor].
  apply Forall_forall. intros x H. apply in_map_iff in H.
  destruct H as (p & <- & H). apply filter_In in H. destruct H as [I E].
  exists (image_item os dir_path chapter_id p), p.
  split; [reflexivity|]. split; [exact I|].
  split; [exact (pending_images_prefix parse os dir_path p I)|].
  split; [exact E|]. split; [reflexivity|].
  split; [apply basename_no_slash|]. split; [reflexivity|].
  split; [apply media_type_of_known | reflexivity].
Qed.

Lemma word_no_dot_slash (s : str) :
  forallb is_word s = true ->
  existsb (N.eqb dot) s = false /\ existsb (N.eqb slash) s = false.
Proof.
  intros W. split.
  - destruct (existsb (N.eqb dot) s) eqn:E; [|reflexivity].
    apply existsb_exists in E. destruct E as (x & I & E).
    apply N.eqb_eq in E. subst x.
    rewrite forallb_forall in W. apply W in I. discriminate I.
  - destruct (existsb (N.eqb slash) s) eqn:E; [|reflexivity].
    apply existsb_exists in E. destruct E as (x & I & E).
    apply N.eqb_eq in E. subst x.
    rewrite forallb_forall in W. apply W in I. discriminate I.
Qed.

Lemma splitext_ext_simple (x stem ext : str) :
  simple_stem stem -> forallb is_word ext = true ->
  splitext_ext (x ++ slash :: stem ++ dot :: ext) = dot :: ext.
Proof.
  intros [NE Ws] We.
  destruct (word_no_dot_slash stem Ws) as [Sd Ss].
  destruct (word_no_dot_slash ext We) as [Ed Es].
  unfold splitext_ext, basename.
  rewrite after_last_app
    by (rewrite existsb_app; cbn [existsb]; rewrite Ss, Es; reflexivity).
  rewrite after_last_app by exact Ed.
  assert (E : existsb (N.eqb dot) (stem ++ dot :: ext) = true).
  { rewrite existsb_app. cbn. apply orb_true_r. }
  rewrite E. rewrite length_app. cbn [length].
  replace (length stem + S (length ext) - S (length ext))%nat
    with (length stem) by lia.
  rewrite firstn_app, Nat.sub_diag, firstn_all. cbn [firstn].
  rewrite app_nil_r.
  destruct stem as [|c stem]; [congruence|].
  cbn [forallb] in *. apply andb_prop in Ws. destruct Ws as [Wc _].
  destruct (dot =? c) eqn:Ec; [|reflexivity].
  apply N.eqb_eq in Ec. subst c. discriminate Wc.
Qed.

Lemma splitext_ext_none (x stem : str) :
  simple_stem stem -> splitext_ext (x ++ slash :: stem) = [].
Proof.
  intros [NE Ws]. destruct (word_no_dot_slash stem Ws) as [Sd Ss].
  unfold splitext_ext, basename.
  rewrite after_last_app by exact Ss. rewrite Sd. reflexivity.
Qed.

(** X18: for a file whose name is a stem of letters, digits, underscores
    and hyphens, a dot and an extension of such characters,
    [process_html_file] chooses the media type by the extension in lower
    case: image/jpeg for jpg and jpeg, image/png for png, image/gif for
    gif, image/svg+xml for svg, and image/jpeg for any other; a name
    without an extension gets image/jpeg as well. *)
Theorem media_type_of_extension (x stem ext : str) :
  simple_stem stem ->
  forallb is_word ext = true ->
  media_type_of (x ++ slash :: stem ++ dot :: ext)
  = media_type_by_extension ext
  /\ media_type_of (x ++ slash :: stem) = u "image/jpeg".
Proof.
  intros S W. unfold media_type_of.
  rewrite (splitext_ext_simple x stem ext S W), (splitext_ext_none x stem S).
  split; [|reflexivity].
  unfold media_type_by_extension.
  change (lower (dot :: ext)) with (dot :: lower ext).
  cbn [List.find media_types fst snd].
  change (str_eqb (dot :: lower ext) (u ".jpg"))
    with (str_eqb (lower ext) (u "jpg")).
  change (str_eqb (dot :: lower ext) (u ".jpeg"))
    with (str_eqb (lower ext) (u "jpeg")).
  change (str_eqb (dot :: lower ext) (u ".png"))
    with (str_eqb (lower ext) (u "png")).
  change (str_eqb (dot :: lower ext) (u ".gif"))
    with (str_eqb (lower ext) (u "gif")).
  change (str_eqb (dot :: lower ext) (u ".svg"))
    with (str_eqb (lower ext) (u "svg")).
  destruct (str_eqb (lower ext) (u "jpg")); [reflexivity|].
  destruct (str_eqb (lower ext) (u "jpeg")); [reflexivity|].
  destruct (str_eqb (lower ext) (u "png")); [reflexivity|].
  destruct (str_eqb (lower ext) (u "gif")); [reflexivity|].
  destruct (str_eqb (lower ext) (u "svg")); reflexivity.
Qed.

Lemma media_type_of_extension_witness :
  simple_stem (u "IMG_1")
  /\ forallb is_word (u "PNG") = true
  /\ media_type_of (u "/books/a/./assets/IMG_1.PNG") = u "image/png"
  /\ media_type_of (u "/books/a/./assets/IMG_1") = u "image/jpeg".
Proof.
  assert (S : simple_stem (u "IMG_1")) by (split; [discriminate | reflexivity]).
  assert (W : forallb is_word (u "PNG") = true) by reflexivity.
  split; [exact S|]. split; [exact W|].
  exact (media_type_of_extension (u "/books/a/./assets") (u "IMG_1") (u "PNG")
           S W).
Defined.

Lemma search_date_pattern (s g : str) :
  search_date s = Some g -> date_pattern g = true.
Proof.
  induction s as [|c s IH].
  - cbn [search_date]. destruct (date_pattern (firstn 10 [])) eqn:D;
      [|discriminate].
    intros [= <-]. exact D.
  - cbn [search_date]. destruct (date_pattern (firstn 10 (c :: s))) eqn:D;
      [|exact IH].
    intros [= <-]. exact D.
Qed.

Lemma digit_not_quote (c : N) : isdigit c = true -> (34 =? c) = false.
Proof.
  intros H. destruct (34 =? c) eqn:E; [|reflexivity].
  apply N.eqb_eq in E. subst c. discriminate H.
Qed.

Lemma date_str_of_no_quote (dir_name : str) :
  existsb (N.eqb 34) (date_str_of dir_name) = false.
Proof.
  unfold date_str_of.
  destruct (search_date dir_name) as [g|] eqn:E; [|reflexivity].
  apply search_date_pattern, date_pattern_shape in E.
  destruct E as (y1 & y2 & y3 & y4 & m1 & m2 & d1 & d2 & -> & F).
  repeat (apply Forall_cons_iff in F; destruct F as [? F]).
  cbn [existsb].
  rewrite (digit_not_quote y1), (digit_not_quote y2), (digit_not_quote y3),
    (digit_not_quote y4), (digit_not_quote m1), (digit_not_quote m2),
    (digit_not_quote d1), (digit_not_quote d2) by assumption.
  reflexivity.
Qed.

(** Moving an image reference below [images/] keeps every text without a
    quotation mark. *)
Lemma replace_keeps_quote_free (w n c : str) :
  existsb (N.eqb 34) w = false ->
  contains w c = true ->
  contains w (replace (src_attr n) (src_attr (images_dir ++ n)) c) = true.
Proof.
  intros Hw H. apply contains_iff in H. destruct H as (a & b & ->).
  rewrite src_attr_split, src_attr_images.
  pose proof (replace_inserted src_open images_dir (n ++ quote)
                (a ++ w ++ b)) as I.
  destruct (inserted_keeps _ _ _ _ _ (I ltac:(discriminate)) a w b eq_refl)
    as (a' & b' & ->).
  - intros w1 w2 -> N1 _ E _.
    apply (endswith_last (u "src=") _ 34) in E. destruct E as [r E].
    destruct w1 as [|x w1] using rev_ind; [congruence|].
    rewrite app_assoc in E. apply app_last_inv in E. destruct E as [_ ->].
    apply not_in_of_existsb in Hw. apply Hw.
    apply in_or_app. left. apply in_or_app. right. left. reflexivity.
  - apply contains_iff. exists a', b'. reflexivity.
Qed.

Lemma embed_images_keep (os : os_env) (dir_path : str) (chapter_id : nat)
    (w : str) (pending : list str) (b : EpubBook) (c : str) :
  existsb (N.eqb 34) w = false ->
  contains w c = true ->
  contains w
    (snd (fold_left (embed_image os dir_path chapter_id) pending (b, c)))
  = true.
Proof.
  intros Hw H.
  apply (fold_keeps os dir_path chapter_id (fun c => contains w c = true));
    [|exact H].
  intros b0 c0 p _ H0.
  destruct (path_exists os (path_join dir_path p)) eqn:E.
  - rewrite step_exists by exact E. cbn [snd].
    apply replace_keeps_quote_free; assumption.
  - rewrite step_missing by exact E. exact H0.
Qed.

(** X19: [process_html_file] returns no chapter exactly when [index.html]
    is missing.  The chapter it returns has the file name
    [chapter_N.xhtml] for the chapter number [N] and carries the returned
    title, which is empty only when the directory name is; its content
    holds the date line, with the date text of the directory name between
    [<strong>] and [</strong>], and, for a title without a quotation mark,
    the heading [<h1>title</h1>], also after the image references have
    been rewritten. *)
Theorem process_html_file_header (parse : str -> node) (os : os_env)
    (self : converter) (dir_info : str * str) (chapter_id : nat) :
  match snd (process_html_file parse os self dir_info chapter_id) with
  | Some (chapter, title) =>
      path_exists os (path_join (snd dir_info) index_html) = true
      /\ html_title chapter = title
      /\ html_file_name chapter = chapter_file_name chapter_id
      /\ (title = [] -> fst dir_info = [])
      /\ contains (u "<strong>" ++ date_str_of (fst dir_info) ++ u "</strong>")
           (html_content chapter) = true
      /\ (existsb (N.eqb 34) title = false ->
          contains (u "<h1>" ++ title ++ u "</h1>") (html_content chapter)
          = true)
  | None => path_exists os (path_join (snd dir_info) index_html) = false
  end.
Proof.
  destruct (path_exists os (path_join (snd dir_info) index_html)) eqn:E.
  2:{ rewrite (process_html_file_missing parse os self dir_info chapter_id E).
      reflexivity. }
  rewrite (process_html_file_unfold parse os self dir_info chapter_id E).
  cbn [snd html_title html_file_name html_content].
  set (r := clean_html_content parse [] _).
  set (title := match fst (fst r) with [] => fst dir_info | _ => _ end).
  set (date := date_str_of (fst dir_info)).
  set (c0 := chapter_markup title date (snd (fst r))).
  assert (D : contains (u "<strong>" ++ date ++ u "</strong>") c0 = true).
  { apply contains_iff. unfold c0, chapter_markup.
    exists (nl ++ indent ++ u "<h1>" ++ title ++ u "</h1>" ++ nl ++ indent
            ++ u "<p class=" ++ quote ++ u "center" ++ quote ++ u ">"),
      (u "</p>" ++ nl ++ indent ++ snd (fst r) ++ nl ++ indent).
    rewrite <- !app_assoc. reflexivity. }
  assert (H : contains (u "<h1>" ++ title ++ u "</h1>") c0 = true).
  { apply contains_iff. unfold c0, chapter_markup.
    exists (nl ++ indent),
      (nl ++ indent ++ u "<p class=" ++ quote ++ u "center" ++ quote
       ++ u "><strong>" ++ date ++ u "</strong></p>" ++ nl ++ indent
       ++ snd (fst r) ++ nl ++ indent).
    rewrite <- !app_assoc. reflexivity. }
  assert (Qd : existsb (N.eqb 34) (u "<strong>" ++ date ++ u "</strong>")
               = false).
  { rewrite !existsb_app. unfold date. rewrite date_str_of_no_quote.
    reflexivity. }
  split; [reflexivity|]. split; [reflexivity|]. split; [reflexivity|].
  split; [|split].
  - unfold title. destruct (fst (fst r)); [auto | discriminate].
  - destruct (path_exists os (path_join (snd dir_info) (u "assets")));
      [|exact D].
    apply embed_images_keep; assumption.
  - intros Qt.
    destruct (path_exists os (path_join (snd dir_info) (u "assets")));
      [|exact H].
    apply embed_images_keep; [|exact H].
    rewrite !existsb_app, Qt. reflexivity.
Qed.

(** ** The assembler, further *)

Lemma to_uint_nonnil (n : nat) : Nat.to_uint n <> Decimal.Nil.
Proof.
  rewrite <- (DecimalNat.Unsigned.of_to n) at 1.
  rewrite DecimalNat.Unsigned.to_of. apply DecimalFacts.unorm_nonnil.
Qed.

Lemma u_inj (s s' : string) : u s = u s' -> s = s'.
Proof.
  unfold u. intros H.
  apply (f_equal (map ascii_of_N)) in H. rewrite !map_map in H.
  rewrite !(map_ext _ (fun a => a) ascii_N_embedding), !map_id in H.
  apply (f_equal string_of_list_ascii) in H.
  rewrite !string_of_list_ascii_of_string in H. exact H.
Qed.

Lemma str_of_nat_inj (n m : nat) : str_of_nat n = str_of_nat m -> n = m.
Proof.
  unfold str_of_nat. intros H.
  apply u_inj in H.
  apply (f_equal DecimalString.NilZero.uint_of_string) in H.
  rewrite !DecimalString.NilZero.usu in H by apply to_uint_nonnil.
  injection H as H. exact (DecimalNat.Unsigned.to_uint_inj n m H).
Qed.

Lemma chapter_file_name_inj (n m : nat) :
  chapter_file_name n = chapter_file_name m -> n = m.
Proof.
  unfold chapter_file_name. intros H.
  apply app_inv_head, app_inv_tail in H. exact (str_of_nat_inj n m H).
Qed.

Section Run.
Variable parse : str -> node.
Variable os : os_env.

Lemma chapter_of_some (e : nat * (str * str)) (c : EpubHtml) (t : str) :
  chapter_of parse os e = Some (c, t) ->
  path_exists os (path_join (snd (snd e)) index_html) = true
  /\ html_file_name c = chapter_file_name (fst e + 1)
  /\ html_title c = t.
Proof.
  unfold chapter_of. intros H.
  destruct (path_exists os (path_join (snd (snd e)) index_html)) eqn:E.
  - rewrite (process_html_file_unfold parse os _ _ _ E) in H.
    cbn [snd] in H. injection H as <- <-. auto.
  - rewrite (process_html_file_missing parse os _ _ _ E) in H.
    discriminate.
Qed.

Lemma process_html_file_items (self : converter) (dir_info : str * str)
    (chapter_id : nat) :
  path_exists os (path_join (snd dir_info) index_html) = true ->
  items (book (fst (process_html_file parse os self dir_info chapter_id)))
  = items (book self) ++ chapter_resources parse os (snd dir_info) chapter_id.
Proof.
  intros E.
  rewrite (process_html_file_unfold parse os self dir_info chapter_id E).
  cbn [fst with_book book]. unfold chapter_resources, pending_images.
  destruct (path_exists os (path_join (snd dir_info) (u "assets"))).
  - apply embed_images_items.
  - cbn [fst]. rewrite app_nil_r. reflexivity.
Qed.

Lemma embed_images_metadata (dir_path : str) (chapter_id : nat)
    (pending : list str) (b : EpubBook) (c : str) :
  metadata (fst (fold_left (embed_image os dir_path chapter_id) pending (b, c)))
  = metadata b.
Proof.
  revert b c. induction pending as [|p pending IH]; intros b c; [reflexivity|].
  cbn [fold_left]. destruct (path_exists os (path_join dir_path p)) eqn:E.
  - rewrite step_exists by exact E. rewrite IH. reflexivity.
  - rewrite step_missing by exact E. apply IH.
Qed.

Lemma process_html_file_metadata (self : converter) (dir_info : str * str)
    (chapter_id : nat) :
  metadata (book (fst (process_html_file parse os self dir_info chapter_id)))
  = metadata (book self).
Proof.
  destruct (path_exists os (path_join (snd dir_info) index_html)) eqn:E.
  - rewrite (process_html_file_unfold parse os self dir_info chapter_id E).
    cbn [fst with_book book].
    destruct (path_exists os (path_join (snd dir_info) (u "assets")));
      [apply embed_images_metadata | reflexivity].
  - rewrite (process_html_file_missing parse os self dir_info chapter_id E).
    reflexivity.
Qed.

Lemma add_chapter_some (self : converter) (tc : str) (i : nat)
    (d : str * str) (c : EpubHtml) (t : str) :
  chapter_of parse os (i, d) = Some (c, t) ->
  let m := {| made_index := i + 1; made_dir := d; made_chapter := c;
              made_title := t |} in
  let r := add_chapter parse os (self, tc) (i, d) in
  chapters (fst r) = chapters self ++ [c]
  /\ spine (fst r) = spine self ++ [SpineDoc c]
  /\ toc (fst r) = toc self ++ [made_link m]
  /\ snd r = tc ++ toc_line m
  /\ items (book (fst r)) = items (book self) ++ chapter_items parse os m
  /\ metadata (book (fst r)) = metadata (book self).
Proof.
  intros H. cbv zeta.
  destruct (chapter_of_some (i, d) c t H) as (E & Fn & _). cbn [fst snd] in E, Fn.
  unfold chapter_of in H. cbn [fst snd] in H.
  rewrite (process_html_file_result parse os (init [] []) self) in H.
  pose proof (process_html_file_frame parse os self d (i + 1)) as (Fc & Fs & Ft).
  pose proof (process_html_file_items self d (i + 1) E) as Fi.
  pose proof (process_html_file_metadata self d (i + 1)) as Fm.
  unfold add_chapter.
  destruct (process_html_file parse os self d (i + 1)) as [self1 r].
  cbn [fst snd] in *. subst r.
  cbn [fst snd chapters spine toc book add_item items].
  unfold chapter_items, made_link, toc_line, toc_entry, chapter_link.
  cbn [made_index made_dir made_chapter made_title snd fst].
  rewrite Fc, Fs, Ft, Fi, Fn, <- app_assoc.
  repeat split; try reflexivity. exact Fm.
Qed.

Lemma add_chapter_none (self : converter) (tc : str) (i : nat)
    (d : str * str) :
  chapter_of parse os (i, d) = None ->
  add_chapter parse os (self, tc) (i, d) = (self, tc).
Proof.
  unfold chapter_of. cbn [fst snd]. intros H.
  destruct (path_exists os (path_join (snd d) index_html)) eqn:E.
  - rewrite (process_html_file_unfold parse os _ _ _ E) in H. discriminate.
  - unfold add_chapter.
    rewrite (process_html_file_missing parse os _ _ _ E). reflexivity.
Qed.

(** The converter and the text of the TOC page after the loop over the
    directories. *)
Lemma add_chapters_trace (es : list (nat * (str * str))) :
  forall (self : converter) (tc : str),
  let r := fold_left (add_chapter parse os) es (self, tc) in
  let ms := made_of parse os es in
  chapters (fst r) = chapters self ++ map made_chapter ms
  /\ spine (fst r) = spine self ++ map (fun m => SpineDoc (made_chapter m)) ms
  /\ toc (fst r) = toc self ++ map made_link ms
  /\ snd r = tc ++ flat_map toc_line ms
  /\ items (book (fst r))
     = items (book self) ++ flat_map (chapter_items parse os) ms
  /\ metadata (book (fst r)) = metadata (book self).
Proof.
  induction es as [|[i d] es IH]; intros self tc; cbv zeta.
  - cbn. rewrite !app_nil_r. repeat split; reflexivity.
  - cbn [fold_left made_of flat_map]. fold (made_of parse os es).
    destruct (chapter_of parse os (i, d)) as [[c t]|] eqn:H.
    + destruct (add_chapter_some self tc i d c t H)
        as (Ec & Es & Et & Ex & Ei & Em).
      cbv zeta in Ec, Es, Et, Ex, Ei, Em.
      destruct (add_chapter parse os (self, tc) (i, d)) as [self1 tc1].
      cbn [fst snd] in Ec, Es, Et, Ex, Ei, Em.
      destruct (IH self1 tc1) as (Ic & Is & It & Ix & Ii & Im).
      cbv zeta in Ic, Is, It, Ix, Ii, Im.
      rewrite Ic, Is, It, Ix, Ii, Im, Ec, Es, Et, Ex, Ei, Em.
      cbn [fst snd app map flat_map]. rewrite <- !app_assoc.
      cbn [app]. repeat split; reflexivity.
    + rewrite (add_chapter_none self tc i d H). cbn [app]. apply IH.
Qed.

Lemma made_of_all (es : list (nat * (str * str))) :
  (forall e, In e es -> chapter_of parse os e <> None) ->
  map (fun m => (made_index m, made_dir m)) (made_of parse os es)
  = map (fun e => ((fst e + 1)%nat, snd e)) es.
Proof.
  induction es as [|e es IH]; intros H; [reflexivity|].
  cbn [made_of flat_map map]. fold (made_of parse os es).
  destruct (chapter_of parse os e) as [[c t]|] eqn:E.
  - cbn [app map made_index made_dir]. f_equal.
    apply IH. intros e' I. apply H. right. exact I.
  - exfalso. apply (H e); [left; reflexivity | exact E].
Qed.

Lemma made_of_file_names (es : list (nat * (str * str))) :
  Forall
    (fun m => html_file_name (made_chapter m)
              = chapter_file_name (made_index m)
              /\ html_title (made_chapter m) = made_title m)
    (made_of parse os es).
Proof.
  induction es as [|e es IH]; [constructor|].
  cbn [made_of flat_map]. fold (made_of parse os es).
  destruct (chapter_of parse os e) as [[c t]|] eqn:E; [|exact IH].
  cbn [app]. constructor; [|exact IH].
  cbn [made_chapter made_index made_title].
  destruct (chapter_of_some e c t E) as (_ & Fn & Ft). auto.
Qed.

Lemma made_chapters_all (source_dir : str) :
  map (fun m => (made_index m, made_dir m))
    (made_chapters parse os (process_directory os source_dir))
  = map (fun e => ((fst e + 1)%nat, snd e))
      (enumerate (process_directory os source_dir)).
Proof.
  apply made_of_all. intros e I.
  apply process_html_file_some.
  exact (process_directory_has_index os source_dir _ (enumerate_in _ _ I)).
Qed.

(** The converter when the book is handed to the packaging library. *)
Lemma create_epub_trace (root target : str) :
  let final := create_epub parse os (init root target) in
  let all_dirs := process_directory os root in
  let ms := made_chapters parse os all_dirs in
  let page := toc_page (toc_text parse os all_dirs) in
  let cover := cover_page os (length all_dirs) in
  chapters final = map made_chapter ms
  /\ book_spine (book final)
     = SpineNav :: SpineDoc page :: SpineDoc cover
       :: map (fun m => SpineDoc (made_chapter m)) ms
  /\ book_toc (book final) = toc_link :: map made_link ms
  /\ items (book final)
     = Item css_file :: Html cover
       :: flat_map (chapter_items parse os) ms ++ [Html page; EpubNcx; EpubNav]
  /\ metadata (book final)
     = (u "id123456789", collection_title, u "zh-CN", [u "Buddhavamsa"]).
Proof.
  cbv zeta. unfold create_epub, toc_text, made_chapters.
  cbn [source_dir spine toc chapters book init].
  set (all_dirs := process_directory os root).
  match goal with
  | |- context [fold_left _ _ (?s, ?t)] =>
      destruct (add_chapters_trace (enumerate all_dirs) s t)
        as (Ec & Es & Et & Ex & Ei & Em);
      cbv zeta in Ec, Es, Et, Ex, Ei, Em;
      destruct (fold_left (add_chapter parse os) (enumerate all_dirs) (s, t))
        as [self2 tc2]
  end.
  cbn [fst snd chapters spine toc book add_item items app] in *.
  rewrite Ec, Es, Et, Ex, Ei. unfold list_insert, toc_header.
  cbn [firstn skipn app]. rewrite <- !app_assoc. cbn [app].
  repeat split; try reflexivity. exact Em.
Qed.


Lemma made_chapters_numbers (source_dir : str) :
  map made_index (made_chapters parse os (process_directory os source_dir))
  = seq 1 (length (process_directory os source_dir)).
Proof.
  pose proof (f_equal (map fst) (made_chapters_all source_dir)) as H.
  rewrite !map_map in H. cbn [fst] in H.
  etransitivity; [exact H|].
  rewrite <- (map_map fst (fun i => (i + 1)%nat)), enumerate_fst.
  rewrite <- seq_shift. apply map_ext. intros i. lia.
Qed.

Lemma made_chapters_file_names (source_dir : str) :
  map (fun m => html_file_name (made_chapter m))
    (made_chapters parse os (process_directory os source_dir))
  = map chapter_file_name (seq 1 (length (process_directory os source_dir))).
Proof.
  rewrite <- made_chapters_numbers, map_map.
  apply map_ext_in. intros m I.
  pose proof (made_of_file_names (enumerate (process_directory os source_dir)))
    as F.
  rewrite Forall_forall in F. apply (F m I).
Qed.

(** X20: the book [create_epub] hands to the packaging library holds, in
    this order, the style sheet, the cover, for each chapter its image
    resources followed by the chapter, the TOC page, and the two
    navigation files.  The TOC page has a heading and a list with one
    entry per chapter, in the order of the chapters, that links to the
    file of the chapter and shows the date text of its directory and its
    title.  The identifier, the title, the language and the author are
    those set when the converter was made. *)
Theorem create_epub_items (root target : str) :
  let final := create_epub parse os (init root target) in
  let all_dirs := process_directory os root in
  items (book final)
  = Item css_file :: Html (cover_page os (length all_dirs))
    :: flat_map (chapter_items parse os) (made_chapters parse os all_dirs)
    ++ [Html (toc_page (toc_text parse os all_dirs)); EpubNcx; EpubNav]
  /\ metadata (book final) = metadata (book (init root target)).
Proof.
  cbv zeta.
  destruct (create_epub_trace root target) as (_ & _ & _ & Ei & Em).
  split; [exact Ei | exact Em].
Qed.

Lemma NoDup_map_inj {A B} (g : A -> B) (l : list A) :
  (forall x y, g x = g y -> x = y) -> NoDup l -> NoDup (map g l).
Proof.
  intros G H. induction H as [|x l N H IH]; [constructor|].
  cbn [map]. constructor; [|exact IH].
  intros I. apply in_map_iff in I. destruct I as (y & E & I).
  apply G in E. subst y. contradiction.
Qed.

Lemma chapter_file_name_other (n : nat) :
  chapter_file_name n <> u "toc.xhtml"
  /\ chapter_file_name n <> u "cover.xhtml".
Proof. split; discriminate. Qed.

(** X21: every document of the spine of the book is one of the items of
    the book, and no two documents of the spine have the same file
    name. *)
Theorem create_epub_spine_documents (root target : str) :
  let final := create_epub parse os (init root target) in
  let docs := spine_documents (book_spine (book final)) in
  Forall (fun h => In (Html h) (items (book final))) docs
  /\ NoDup (map html_file_name docs).
Proof.
  cbv zeta.
  destruct (create_epub_trace root target) as (_ & Es & _ & Ei & _).
  cbv zeta in Es, Ei. rewrite Es, Ei.
  set (dirs := process_directory os root).
  set (ms := made_chapters parse os dirs).
  assert (D : spine_documents
                (map (fun m => SpineDoc (made_chapter m)) ms)
              = map made_chapter ms).
  { unfold spine_documents. induction ms as [|m ms IH]; [reflexivity|].
    cbn [map flat_map app]. rewrite IH. reflexivity. }
  cbn [spine_documents flat_map app].
  fold (spine_documents (map (fun m => SpineDoc (made_chapter m)) ms)).
  rewrite D. split.
  - constructor; [|constructor].
    + right. right. apply in_or_app. right. left. reflexivity.
    + right. left. reflexivity.
    + apply Forall_forall. intros h I. apply in_map_iff in I.
      destruct I as (m & <- & I). right. right. apply in_or_app. left.
      apply in_flat_map. exists m. split; [exact I|].
      unfold chapter_items. apply in_or_app. right. left. reflexivity.
  - cbn [map toc_page cover_page html_file_name]. rewrite map_map.
    unfold ms, dirs. rewrite made_chapters_file_names.
    constructor; [|constructor].
    + intros [H|H]; [discriminate|].
      apply in_map_iff in H. destruct H as (n & H & _).
      apply (proj1 (chapter_file_name_other n)). exact H.
    + intros H. apply in_map_iff in H. destruct H as (n & H & _).
      apply (proj2 (chapter_file_name_other n)). exact H.
    + apply NoDup_map_inj; [exact chapter_file_name_inj | apply seq_NoDup].
Qed.

(** X22: [create_epub] makes a chapter for every directory
    [process_directory] returns, none is skipped.  The chapters are
    numbered from 1 in the order of the directories: their files are
    [chapter_1.xhtml], [chapter_2.xhtml] and so on; the navigation list
    links to [toc.xhtml] and then to these files in this order, under the
    titles of the chapters; and the number of articles on the cover is the
    number of chapters. *)
Theorem create_epub_numbering (root target : str) :
  let final := create_epub parse os (init root target) in
  let n := length (process_directory os root) in
  length (chapters final) = n
  /\ map html_file_name (chapters final) = map chapter_file_name (seq 1 n)
  /\ map href (book_toc (book final))
     = u "toc.xhtml" :: map chapter_file_name (seq 1 n)
  /\ map link_title (book_toc (book final))
     = link_title toc_link :: map html_title (chapters final)
  /\ In (Html (cover_page os (length (chapters final)))) (items (book final)).
Proof.
  cbv zeta.
  destruct (create_epub_trace root target) as (Ec & _ & Et & Ei & _).
  cbv zeta in Ec, Et, Ei.
  assert (F : map html_file_name (chapters (create_epub parse os (init root target)))
              = map chapter_file_name
                  (seq 1 (length (process_directory os root)))).
  { rewrite Ec, map_map. apply made_chapters_file_names. }
  assert (L : length (chapters (create_epub parse os (init root target)))
              = length (process_directory os root)).
  { apply (f_equal (@length _)) in F.
    rewrite !length_map, length_seq in F. exact F. }
  split; [exact L|]. split; [exact F|]. split; [|split].
  - rewrite Et. cbn [map toc_link href]. f_equal.
    rewrite map_map. unfold made_link. cbn [href].
    rewrite <- made_chapters_numbers, map_map. reflexivity.
  - rewrite Et, Ec. cbn [map]. f_equal. rewrite !map_map.
    apply map_ext_in. intros m I. unfold made_link. cbn [link_title].
    pose proof (made_of_file_names
                  (enumerate (process_directory os root))) as T.
    rewrite Forall_forall in T. symmetry. apply (T m I).
  - rewrite L, Ei. right. left. reflexivity.
Qed.

(** X23: for a source root without article directories [create_epub]
    makes a book without chapters: its items are the style sheet, a cover
    that counts 0 articles, a TOC page with an empty list and the two
    navigation files; its spine holds the navigation entry, the cover and
    the TOC page, and its navigation list the link to the TOC page. *)
Theorem create_epub_empty (root target : str) :
  article_dirs os root = [] ->
  let final := create_epub parse os (init root target) in
  let cover := cover_page os 0 in
  let page := toc_page (toc_header ++ u "</ul>") in
  chapters final = []
  /\ items (book final)
     = [Item css_file; Html cover; Html page; EpubNcx; EpubNav]
  /\ Permutation (book_spine (book final))
       [SpineNav; SpineDoc cover; SpineDoc page]
  /\ book_toc (book final) = [toc_link].
Proof.
  intros H. cbv zeta. unfold create_epub, process_directory.
  cbn [source_dir init]. rewrite H.
  split; [reflexivity|]. split; [reflexivity|]. split; [|reflexivity].
  constructor. apply perm_swap.
Qed.

End Run.

Lemma create_epub_empty_witness :
  article_dirs sample_os (u "/elsewhere") = []
  /\ items (book (create_epub sample_parse sample_os
                    (init (u "/elsewhere") (u "/books/out.epub"))))
     = [Item css_file; Html (cover_page sample_os 0);
        Html (toc_page (toc_header ++ u "</ul>")); EpubNcx; EpubNav].
Proof.
  assert (H : article_dirs sample_os (u "/elsewhere") = [])
    by (vm_compute; reflexivity).
  split; [exact H|].
  exact (proj1 (proj2 (create_epub_empty sample_parse sample_os
                         (u "/elsewhere") (u "/books/out.epub") H))).
Defined.

(** ** The declarations the style normaliser keeps *)

Lemma take_while_app_stop {A} (f : A -> bool) (l r : list A) :
  forallb f l = true ->
  (r = [] \/ exists c r', r = c :: r' /\ f c = false) ->
  take_while f (l ++ r) = l.
Proof.
  intros F R. induction l as [|x l IH].
  - destruct R as [->|(c & r' & -> & C)]; [reflexivity|].
    cbn. rewrite C. reflexivity.
  - cbn [forallb] in F. apply andb_true_iff in F. destruct F as [Fx F].
    cbn [app take_while]. rewrite Fx, (IH F). reflexivity.
Qed.

Lemma skipn_length_app {A} (l r : list A) : skipn (length l) (l ++ r) = r.
Proof. induction l; [reflexivity | assumption]. Qed.

Lemma value_group_plain (ws v post : str) :
  forallb isspace ws = true ->
  plain_value v ->
  (post = [] \/ startswith [semicolon] post = true) ->
  value_group (ws ++ v ++ post) = Some v.
Proof.
  intros W (Ns & c & v' & -> & C) P. unfold value_group.
  rewrite (take_while_app_stop isspace ws ((c :: v') ++ post) W)
    by (right; exists c, (v' ++ post); split; [reflexivity | exact C]).
  rewrite skipn_length_app.
  rewrite (take_while_app_stop (fun x => negb (x =? semicolon)) (c :: v') post).
  - reflexivity.
  - apply forallb_forall. intros x I.
    destruct (x =? semicolon) eqn:E; [|reflexivity].
    apply N.eqb_eq in E. subst x. contradiction.
  - destruct P as [->|P]; [left; reflexivity|].
    destruct post as [|x post']; [discriminate|]. right.
    exists x, post'. split; [reflexivity|].
    cbn [startswith] in P. rewrite andb_true_r in P.
    apply N.eqb_eq in P. subst x. reflexivity.
Qed.

Lemma search_property_eq (lit s : str) :
  search_property lit s
  = match (if startswith lit s then value_group (skipn (length lit) s)
           else None) with
    | Some v => Some v
    | None =>
        match s with
        | [] => None
        | _ :: s' => search_property lit s'
        end
    end.
Proof. destruct s; reflexivity. Qed.

Lemma search_property_skip (lit a s : str) :
  (forall a1 a2, a = a1 ++ a2 -> a2 <> [] ->
     startswith lit (a2 ++ s) = false) ->
  search_property lit (a ++ s) = search_property lit s.
Proof.
  induction a as [|c a IH]; intros H; [reflexivity|].
  rewrite search_property_eq.
  rewrite (H [] (c :: a) eq_refl) by discriminate.
  cbn [app]. apply IH. intros a1 a2 -> N. apply (H (c :: a1) a2); auto.
Qed.

Lemma search_property_here (lit rest v : str) :
  value_group rest = Some v -> search_property lit (lit ++ rest) = Some v.
Proof.
  intros H. rewrite search_property_eq, startswith_app, skipn_length_app, H.
  reflexivity.
Qed.

(** An occurrence of [property:] that starts before another one ends
    before it. *)
Lemma declaration_not_astride (property a2 rest : str) :
  ~ In 58 property -> a2 <> [] ->
  startswith (property ++ [58]) (a2 ++ (property ++ [58]) ++ rest) = true ->
  startswith (property ++ [58]) a2 = true.
Proof.
  intros Np Na H. apply startswith_iff in H. destruct H as [r H].
  rewrite <- !app_assoc in H. cbn [app] in H. rewrite app_assoc in H.
  apply (split_at_first 58 property) in H; [|exact Np].
  destruct H as [[H _]|(m & H & _)].
  - exfalso. apply (f_equal (@length N)) in H. rewrite length_app in H.
    destruct a2; [congruence | cbn in H; lia].
  - change (property ++ 58 :: m) with (property ++ [58] ++ m) in H.
    rewrite app_assoc in H. apply app_eq_app in H.
    destruct H as [l [[H _]|[H1 H2]]].
    + rewrite H. apply startswith_app.
    + destruct l as [|x l _] using rev_ind.
      * rewrite app_nil_r in H1. rewrite <- H1. apply startswith_iff.
        exists []. rewrite app_nil_r. reflexivity.
      * exfalso. rewrite app_assoc in H1. apply app_last_inv in H1.
        destruct H1 as [_ <-]. apply Np. rewrite H2.
        apply in_or_app. left. apply in_or_app. right. left. reflexivity.
Qed.

Lemma search_property_first (property pre rest v : str) :
  ~ In 58 property ->
  contains (property ++ [58]) pre = false ->
  value_group rest = Some v ->
  search_property (property ++ [58]) (pre ++ (property ++ [58]) ++ rest)
  = Some v.
Proof.
  intros Np Nc H. rewrite search_property_skip.
  - apply search_property_here. exact H.
  - intros a1 a2 -> Na.
    destruct (startswith (property ++ [58])
                (a2 ++ (property ++ [58]) ++ rest)) eqn:S; [|reflexivity].
    apply declaration_not_astride in S; [|exact Np|exact Na].
    apply startswith_iff in S. destruct S as [r ->].
    assert (C : contains (property ++ [58])
                  (a1 ++ (property ++ [58]) ++ r) = true)
      by (apply contains_iff; exists a1, r; reflexivity).
    congruence.
Qed.

Lemma new_style_keeps (property pre ws v post : str) :
  In property [u "text-align"; u "text-indent"] ->
  contains (property ++ [58]) pre = false ->
  forallb isspace ws = true ->
  plain_value v ->
  (post = [] \/ startswith [semicolon] post = true) ->
  In (property ++ u ": " ++ v)
    (new_style (pre ++ (property ++ [58]) ++ ws ++ v ++ post)).
Proof.
  intros Ip Nc W V P.
  pose proof (value_group_plain ws v post W V P) as G.
  set (style := pre ++ (property ++ [58]) ++ ws ++ v ++ post).
  assert (C : contains property style = true).
  { apply contains_iff. exists pre, ([58] ++ ws ++ v ++ post).
    unfold style. rewrite <- !app_assoc. reflexivity. }
  destruct Ip as [<-|[<-|[]]].
  - assert (S : search_property (u "text-align:") style = Some v).
    { apply (search_property_first (u "text-align") pre); auto.
      cbn. intuition discriminate. }
    unfold new_style. rewrite C, S. left. reflexivity.
  - assert (S : search_property (u "text-indent:") style = Some v).
    { apply (search_property_first (u "text-indent") pre); auto.
      cbn. intuition discriminate. }
    unfold new_style. rewrite C, S.
    apply in_or_app. right. apply in_or_app. right. left. reflexivity.
Qed.

(** X24: the style normaliser keeps the alignment and the indentation of
    a paragraph.  When the style of the paragraph holds [text-align:] or
    [text-indent:], for the first time, followed by white space or none
    and by a value that ends at a semicolon or at the end of the style, the
    new style holds the declaration of that property with that value. *)
Theorem paragraph_attrs_keeps (a : attributes)
    (property pre ws v post : str) :
  In property [u "text-align"; u "text-indent"] ->
  get style_key [] a = pre ++ (property ++ [58]) ++ ws ++ v ++ post ->
  contains (property ++ [58]) pre = false ->
  forallb isspace ws = true ->
  plain_value v ->
  (post = [] \/ startswith [semicolon] post = true) ->
  exists ds,
    attr_get style_key (paragraph_attrs a) = Some (join (u "; ") ds)
    /\ In (property ++ u ": " ++ v) ds.
Proof.
  intros Ip E Nc W V P.
  pose proof (new_style_keeps property pre ws v post Ip Nc W V P) as I.
  rewrite <- E in I. exists (new_style (get style_key [] a)).
  split; [|exact I]. rewrite paragraph_attrs_style.
  destruct (new_style (get style_key [] a)); [contradiction | reflexivity].
Qed.

Lemma paragraph_attrs_keeps_witness :
  exists ds,
    attr_get style_key
      (paragraph_attrs
         [(u "style", u "color: red; text-align: center; font-weight: bold")])
    = Some (join (u "; ") ds)
    /\ In (u "text-align: center") ds.
Proof.
  apply (paragraph_attrs_keeps
           [(u "style", u "color: red; text-align: center; font-weight: bold")]
           (u "text-align") (u "color: red; ") (u " ") (u "center")
           (u "; font-weight: bold")).
  - left. reflexivity.
  - reflexivity.
  - reflexivity.
  - reflexivity.
  - split; [cbn; intuition discriminate|].
    exists 99, (u "enter"). split; reflexivity.
  - right. reflexivity.
Defined.

(** ** The title of a chapter *)

Lemma lstrip_nil (s : str) : forallb isspace s = true -> lstrip s = [].
Proof.
  induction s as [|c s IH]; [reflexivity|].
  cbn [forallb lstrip]. intros H. apply andb_true_iff in H.
  destruct H as [-> H]. exact (IH H).
Qed.

Lemma lstrip_not_nil (s : str) :
  forallb isspace s = false -> lstrip s <> [].
Proof.
  induction s as [|c s IH]; [discriminate|].
  cbn [forallb lstrip]. destruct (isspace c); [exact IH | discriminate].
Qed.

Lemma strip_nil (s : str) : forallb isspace s = true -> strip s = [].
Proof. intros H. unfold strip. rewrite (lstrip_nil s H). reflexivity. Qed.

Lemma strip_not_nil (s : str) : forallb isspace s = false -> strip s <> [].
Proof.
  intros H. unfold strip.
  pose proof (lstrip_not_nil s H) as Hn.
  destruct (lstrip s) as [|c r] eqn:E; [congruence|].
  assert (C : isspace c = false)
    by (apply (lstrip_head s c); rewrite E; reflexivity).
  intros R. apply (f_equal (@rev N)) in R. rewrite rev_involutive in R.
  cbn [rev] in R.
  apply (lstrip_not_nil (rev r ++ [c])); [|exact R].
  rewrite forallb_app. cbn [forallb]. rewrite C.
  rewrite andb_false_r. reflexivity.
Qed.

Lemma extract_title_chapter_title (dir_name : str) (soup : node) :
  match extract_title soup with [] => dir_name | _ => extract_title soup end
  = chapter_title dir_name soup.
Proof.
  unfold extract_title, chapter_title.
  destruct (find (named [u "h1"]) soup) as [h|]; [|reflexivity].
  destruct (forallb isspace (get_text h)) eqn:E.
  - rewrite (strip_nil _ E). reflexivity.
  - pose proof (strip_not_nil _ E) as Hn.
    destruct (strip (get_text h)); [congruence | reflexivity].
Qed.

(** X25: the title of a chapter is the text of the first [h1] element of
    the document that the removal loops leave, without the white space
    around it; it is the name of the directory when the document has no
    such element or when that text is empty or white space only. *)
Theorem process_html_file_title (parse : str -> node) (os : os_env)
    (self : converter) (dir_info : str * str) (chapter_id : nat) :
  path_exists os (path_join (snd dir_info) index_html) = true ->
  let html := read_text os (path_join (snd dir_info) index_html) in
  let title := chapter_title (fst dir_info) (remove_unwanted (parse html)) in
  exists chapter,
    snd (process_html_file parse os self dir_info chapter_id)
    = Some (chapter, title)
    /\ html_title chapter = title.
Proof.
  intros E. cbv zeta.
  rewrite (process_html_file_unfold parse os self dir_info chapter_id E).
  cbn [snd].
  assert (T : fst (fst (clean_html_content parse []
                          (read_text os (path_join (snd dir_info) index_html))))
              = extract_title
                  (remove_unwanted
                     (parse (read_text os
                               (path_join (snd dir_info) index_html))))).
  { unfold clean_html_content. destruct (find_content_div _); reflexivity. }
  rewrite T, extract_title_chapter_title.
  eexists. split; reflexivity.
Qed.

Lemma process_html_file_title_witness :
  path_exists sample_os (path_join dir_b index_html) = true
  /\ exists chapter,
       snd (process_html_file sample_parse sample_os
              (init (u "/books") (u "/books/out.epub"))
              (u "no-date-dir", dir_b) 1)
       = Some (chapter, u "no-date-dir")
       /\ html_title chapter = u "no-date-dir".
Proof.
  assert (E : path_exists sample_os (path_join dir_b index_html) = true)
    by (vm_compute; reflexivity).
  split; [exact E|].
  exact (process_html_file_title sample_parse sample_os
           (init (u "/books") (u "/books/out.epub"))
           (u "no-date-dir", dir_b) 1 E).
Defined.

(** ** The order of the listing *)

Section SortedUnique.
Context {A K : Type} (leb : K -> K -> bool) (key : A -> K).

Let le (x y : A) : Prop := leb (key x) (key y) = true.

(** Two sorted lists with the same elements are equal when no two
    elements tie. *)
Lemma sorted_permutation_unique (l1 l2 : list A) :
  (forall x, le x x) ->
  (forall x y, In x l1 -> In y l1 -> le x y -> le y x -> x = y) ->
  StronglySorted le l1 -> StronglySorted le l2 -> Permutation l1 l2 ->
  l1 = l2.
Proof.
  intros R Anti S1. revert l2 Anti.
  induction S1 as [|x l1 S1 IH F1]; intros l2 Anti S2 P.
  - apply Permutation_nil in P. subst l2. reflexivity.
  - destruct S2 as [|y l2 S2 F2].
    + apply Permutation_sym, Permutation_nil in P. discriminate.
    + assert (E : x = y).
      { assert (Ix : In x (y :: l2))
          by (apply (Permutation_in _ P); left; reflexivity).
        assert (Iy : In y (x :: l1))
          by (apply (Permutation_in _ (Permutation_sym P)); left; reflexivity).
        destruct Ix as [<-|Ix]; [reflexivity|].
        destruct Iy as [->|Iy]; [reflexivity|].
        rewrite Forall_forall in F1, F2.
        apply Anti; [left; reflexivity | right; exact Iy | |];
          [apply F1; exact Iy | apply F2; exact Ix]. }
      subst y. f_equal. apply IH; [|exact S2|].
      * intros a b Ia Ib. apply Anti; right; assumption.
      * exact (Permutation_cons_inv P).
Qed.
End SortedUnique.

Lemma date_leb_antisym (a b : datetime) :
  date_leb a b = true -> date_leb b a = true -> a = b.
Proof.
  intros H1 H2. apply date_leb_iff in H1, H2.
  destruct a as [y m d], b as [y' m' d']. cbn [year month day] in *.
  assert (y = y' /\ m = m' /\ d = d') as (-> & -> & ->) by lia.
  reflexivity.
Qed.

Lemma NoDup_map_eq {A B} (g : A -> B) (l : list A) (x y : A) :
  NoDup (map g l) -> In x l -> In y l -> g x = g y -> x = y.
Proof.
  induction l as [|z l IH]; intros Nd Ix Iy E; [destruct Ix|].
  cbn [map] in Nd. apply NoDup_cons_iff in Nd. destruct Nd as [Nz Nd].
  destruct Ix as [->|Ix], Iy as [->|Iy].
  - reflexivity.
  - exfalso. apply Nz. rewrite E. apply in_map. exact Iy.
  - exfalso. apply Nz. rewrite <- E. apply in_map. exact Ix.
  - exact (IH Nd Ix Iy E).
Qed.

(** X26: the result of [process_directory] does not depend on the order
    in which the operating system lists the source root when the article
    directories have pairwise different dates: two listings that hold the
    same article directories give the same result. *)
Theorem process_directory_listing_order (os1 os2 : os_env)
    (root1 root2 : str) :
  Permutation (article_dirs os1 root1) (article_dirs os2 root2) ->
  NoDup (map dir_date (article_dirs os1 root1)) ->
  process_directory os1 root1 = process_directory os2 root2.
Proof.
  intros P Nd. unfold process_directory.
  set (l1 := article_dirs os1 root1) in *.
  set (l2 := article_dirs os2 root2) in *.
  apply (sorted_permutation_unique date_leb dir_date).
  - intros x. apply date_leb_refl.
  - intros x y Ix Iy L1 L2.
    apply (NoDup_map_eq dir_date l1); auto.
    + apply (Permutation_in _ (Permutation_sym (sort_by_perm date_leb dir_date l1))).
      exact Ix.
    + apply (Permutation_in _ (Permutation_sym (sort_by_perm date_leb dir_date l1))).
      exact Iy.
    + apply date_leb_antisym; assumption.
  - apply (sort_by_sorted date_leb dir_date date_leb_total date_leb_trans).
  - apply (sort_by_sorted date_leb dir_date date_leb_total date_leb_trans).
  - eapply Permutation_trans;
      [apply Permutation_sym, sort_by_perm|].
    eapply Permutation_trans; [exact P | apply sort_by_perm].
Qed.

Lemma process_directory_listing_order_witness :
  Permutation (article_dirs sample_os (u "/books"))
    (article_dirs reversed_os (u "/books"))
  /\ article_dirs sample_os (u "/books")
     <> article_dirs reversed_os (u "/books")
  /\ process_directory sample_os (u "/books")
     = process_directory reversed_os (u "/books").
Proof.
  assert (E1 : article_dirs sample_os (u "/books")
               = [(u "2024-03-01-a", dir_a); (u "no-date-dir", dir_b)])
    by (vm_compute; reflexivity).
  assert (E2 : article_dirs reversed_os (u "/books")
               = [(u "no-date-dir", dir_b); (u "2024-03-01-a", dir_a)])
    by (vm_compute; reflexivity).
  assert (P : Permutation (article_dirs sample_os (u "/books"))
                (article_dirs reversed_os (u "/books")))
    by (rewrite E1, E2; apply perm_swap).
  split; [exact P|]. split; [rewrite E1, E2; discriminate|].
  apply (process_directory_listing_order sample_os reversed_os
           (u "/books") (u "/books") P).
  rewrite E1. cbn [map]. unfold dir_date. cbn [fst].
  repeat constructor; cbn [In]; vm_compute; intuition discriminate.
Defined.

(** ** Chapters do not depend on each other *)

(** X27: what [process_html_file] returns for a directory, the pending
    images it records and the resources it adds to the book depend on the
    directory, the chapter number and the files only, not on what the
    converter holds from the chapters made before. *)
Theorem process_html_file_independent (parse : str -> node) (os : os_env)
    (self self' : converter) (dir_info : str * str) (chapter_id : nat) :
  let r := process_html_file parse os self dir_info chapter_id in
  let r' := process_html_file parse os self' dir_info chapter_id in
  snd r = snd r'
  /\ skipn (length (items (book self))) (items (book (fst r)))
     = skipn (length (items (book self'))) (items (book (fst r')))
  /\ (snd r <> None ->
      image_files_to_process (fst r) = image_files_to_process (fst r')).
Proof.
  cbv zeta.
  split; [apply process_html_file_result|].
  destruct (path_exists os (path_join (snd dir_info) index_html)) eqn:E.
  - rewrite !(process_html_file_items parse os _ dir_info chapter_id E).
    rewrite !skipn_length_app.
    split; [reflexivity|]. intros _.
    rewrite !(process_html_file_unfold parse os _ dir_info chapter_id E).
    reflexivity.
  - rewrite !(process_html_file_missing parse os _ dir_info chapter_id E).
    cbn [fst snd]. rewrite !skipn_all. split; [reflexivity | congruence].
Qed.

(** ** The sample, further *)

(** The items of the book of the sample, in the order in which they are
    added: the chapter of [2024-03-01-a] comes with the two images whose
    files exist. *)
Example sample_items :
  map item_label (items (book sample_book))
  = [u "style/default.css"; u "cover.xhtml"; u "chapter_1.xhtml";
     u "images/x.png"; u "images/y.png"; u "chapter_2.xhtml"; u "toc.xhtml";
     u "EpubNcx"; u "EpubNav"]
  /\ map made_index (made_chapters sample_parse sample_os
                       (process_directory sample_os (u "/books")))
     = [1; 2]%nat.
Proof. split; vm_compute; reflexivity. Qed.

(** ** Image references, in general *)

Lemma plain_name_no (c : N) (name : str) :
  plain_name name -> plain_char c = false -> existsb (N.eqb c) name = false.
Proof.
  intros W F. destruct (existsb (N.eqb c) name) eqn:E; [|reflexivity].
  apply existsb_exists in E. destruct E as (x & I & E).
  apply N.eqb_eq in E. subst x.
  unfold plain_name in W. rewrite forallb_forall in W. apply W in I.
  congruence.
Qed.

Lemma escape_plain (v : str) : plain_name v -> escape v = v.
Proof.
  unfold plain_name. induction v as [|c v IH]; [reflexivity|].
  cbn [forallb]. intros H. apply andb_prop in H. destruct H as [Hc Hv].
  unfold escape in *. cbn [flat_map]. rewrite (IH Hv).
  unfold plain_char in Hc. apply negb_true_iff in Hc.
  rewrite !orb_false_iff in Hc. destruct Hc as [[[_ E1] E2] E3].
  rewrite E1, E2, E3. reflexivity.
Qed.

(** How the serialiser writes an attribute with a plain value. *)
Lemma quoted_plain (v : str) :
  plain_name v -> quoted_attribute_value (escape v) = quote ++ v ++ quote.
Proof.
  intros H. rewrite (escape_plain v H). unfold quoted_attribute_value.
  rewrite (plain_name_no 34 v H eq_refl). reflexivity.
Qed.

Lemma decode_attrs_contains (a : attributes) (k v : str) :
  In (k, v) a ->
  contains ([32] ++ k ++ [61] ++ quoted_attribute_value (escape v))
    (decode_attrs a) = true.
Proof.
  intros H. unfold decode_attrs.
  apply (flat_map_contains
           (fun kv => [32] ++ fst kv ++ [61]
                      ++ quoted_attribute_value (escape (snd kv)))
           _ (k, v)).
  apply (Permutation_in _ (sort_by_perm str_leb fst a)). exact H.
Qed.

(** The markup of an image holds each of its attributes. *)
Lemma decode_img_contains (a : attributes) (v : str) :
  plain_name v -> In (src_key, v) a ->
  contains (src_attr v) (decode (Tag (u "img") a [])) = true.
Proof.
  intros P H. unfold decode. cbn [decode_in].
  change (str_eqb (u "img") document_name) with false.
  change (existsb (str_eqb (u "img")) void_elements) with true.
  cbv iota. do 2 apply contains_skip. apply contains_keep.
  pose proof (decode_attrs_contains a src_key v H) as C.
  rewrite (quoted_plain v P) in C.
  eapply contains_trans; [|exact C].
  apply (contains_skip _ [32]). apply contains_refl.
Qed.

(** The markup of an image whose only attribute is a plain address. *)
Lemma decode_img_plain (v : str) :
  plain_name v -> decode (Tag (u "img") [(src_key, v)] []) = img_markup v.
Proof.
  intros H. unfold decode. cbn [decode_in].
  change (str_eqb (u "img") document_name) with false.
  change (existsb (str_eqb (u "img")) void_elements) with true.
  cbv iota. unfold decode_attrs. cbn [sort_by insert_by flat_map fst snd].
  rewrite (quoted_plain v H).
  unfold img_markup, src_attr. cbn. rewrite <- !app_assoc. reflexivity.
Qed.

Lemma attr_set_in (k v : str) (a : attributes) : In (k, v) (attr_set k v a).
Proof.
  induction a as [|[k' v'] a IH]; cbn [attr_set]; [left; reflexivity|].
  destruct (str_eqb k k'); [left; reflexivity | right; exact IH].
Qed.

Lemma image_attrs_holds_src (a : attributes) :
  startswith assets_prefix (get src_key [] a) = true ->
  In (src_key, basename (get src_key [] a)) (image_attrs a).
Proof.
  intros H. unfold image_attrs. rewrite H. apply filter_In.
  split; [apply attr_set_in | reflexivity].
Qed.

Lemma str_eqb_neq (a b : str) : a <> b -> str_eqb a b = false.
Proof.
  intros H. destruct (str_eqb a b) eqn:E; [|reflexivity].
  apply str_eqb_eq in E. contradiction.
Qed.

Lemma attr_get_in (k : str) (a : attributes) (v : str) :
  In (k, v) a -> attr_get k a <> None.
Proof.
  induction a as [|[k' v'] a IH]; [intros []|].
  cbn [attr_get]. intros [E|I].
  - injection E as -> ->. rewrite str_eqb_refl. discriminate.
  - destruct (str_eqb k k'); [discriminate | exact (IH I)].
Qed.

Lemma filter_no_key (a : attributes) :
  attr_get src_key a = None -> attr_get alt_key a = None ->
  filter (fun kv => str_eqb (fst kv) src_key || str_eqb (fst kv) alt_key) a
  = [].
Proof.
  induction a as [|[k v] a IH]; [reflexivity|].
  cbn [attr_get filter fst]. intros S A.
  destruct (str_eqb src_key k) eqn:Es; [discriminate|].
  destruct (str_eqb alt_key k) eqn:Ea; [discriminate|].
  assert (E1 : str_eqb k src_key = false).
  { apply str_eqb_neq. intros ->. rewrite str_eqb_refl in Es. discriminate. }
  assert (E2 : str_eqb k alt_key = false).
  { apply str_eqb_neq. intros ->. rewrite str_eqb_refl in Ea. discriminate. }
  rewrite E1, E2. exact (IH S A).
Qed.

Lemma attr_get_key_in (k : str) (a : attributes) (v : str) :
  attr_get k a = Some v -> In k (map fst a).
Proof.
  induction a as [|[k' v'] a IH]; [discriminate|].
  cbn [attr_get map fst]. destruct (str_eqb k k') eqn:E.
  - apply str_eqb_eq in E. subst k'. left. reflexivity.
  - right. exact (IH H).
Qed.

(** Of a dictionary a filter that lets one of its keys pass leaves the
    entry of that key. *)
Lemma filter_one_key (keep : str * str -> bool) (k v : str)
    (a : attributes) :
  dictionary a -> attr_get k a = Some v ->
  (forall kv, In kv a -> keep kv = true -> fst kv = k) ->
  keep (k, v) = true ->
  filter keep a = [(k, v)].
Proof.
  unfold dictionary. intros D G K Kv.
  induction a as [|[k' v'] a IH]; [discriminate|].
  cbn [map fst] in D. apply NoDup_cons_iff in D. destruct D as [Nk D].
  cbn [attr_get] in G. cbn [filter]. destruct (str_eqb k k') eqn:E.
  - apply str_eqb_eq in E. subst k'. injection G as ->. rewrite Kv.
    f_equal.
    assert (F : forall kv, In kv a -> keep kv = false).
    { intros [k2 v2] I. destruct (keep (k2, v2)) eqn:E2; [|reflexivity].
      exfalso. apply Nk. apply (K (k2, v2)) in E2; [|right; exact I].
      cbn [fst] in E2. subst k2. apply (in_map fst) in I. exact I. }
    clear - F. induction a as [|x a IH]; [reflexivity|].
    cbn [filter]. rewrite (F x (or_introl eq_refl)).
    apply IH. intros kv I. apply F. right. exact I.
  - assert (Kf : keep (k', v') = false).
    { destruct (keep (k', v')) eqn:E2; [|reflexivity].
      apply (K (k', v')) in E2; [|left; reflexivity].
      cbn [fst] in E2. subst k'. rewrite str_eqb_refl in E. discriminate. }
    rewrite Kf. apply IH; [exact D | exact G|].
    intros kv I. apply K. right. exact I.
Qed.

Lemma keeps_key_cases (kv : str * str) :
  keeps_key kv = true -> fst kv = src_key \/ fst kv = alt_key.
Proof.
  unfold keeps_key. intros H. apply orb_prop in H.
  destruct H as [H|H]; apply str_eqb_eq in H; auto.
Qed.

Lemma attr_set_keys (k v : str) (a : attributes) :
  attr_get k a <> None -> map fst (attr_set k v a) = map fst a.
Proof.
  induction a as [|[k' v'] a IH]; [cbn; congruence|].
  cbn [attr_get attr_set]. destruct (str_eqb k k') eqn:E.
  - apply str_eqb_eq in E. subst k'. reflexivity.
  - intros H. cbn [map fst]. f_equal. exact (IH H).
Qed.

(** What the image loop leaves of a dictionary whose [src] begins with
    [./assets/]: the [src], with the base name, and the [alt] if there is
    one. *)
Lemma image_attrs_shape (a : attributes) :
  dictionary a ->
  startswith assets_prefix (get src_key [] a) = true ->
  let v := basename (get src_key [] a) in
  match attr_get alt_key a with
  | None => image_attrs a = [(src_key, v)]
  | Some x =>
      image_attrs a = [(alt_key, x); (src_key, v)]
      \/ image_attrs a = [(src_key, v); (alt_key, x)]
  end.
Proof.
  intros D P. cbv zeta. unfold image_attrs. rewrite P.
  generalize (basename (get src_key [] a)). intros v.
  assert (S : attr_get src_key a <> None).
  { unfold get in P. destruct (attr_get src_key a); [discriminate|].
    discriminate P. }
  clear P.
  fold keeps_key.
  change (fun kv : str * str =>
            str_eqb (fst kv) src_key || str_eqb (fst kv) alt_key)
    with keeps_key.
  assert (D' : dictionary (attr_set src_key v a))
    by (unfold dictionary; rewrite (attr_set_keys _ _ _ S); exact D).
  assert (Gs : attr_get src_key (attr_set src_key v a) = Some v)
    by apply attr_get_set.
  assert (Ga : attr_get alt_key (attr_set src_key v a) = attr_get alt_key a)
    by (apply attr_get_set_other; discriminate).
  rewrite <- Ga. clear Ga S D. revert D' Gs.
  generalize (attr_set src_key v a). clear a. intros a D Gs.
  destruct (attr_get alt_key a) as [x|] eqn:Ga.
  - (* both keys: the first of them in the list decides the order *)
    unfold dictionary in D.
    induction a as [|[k y] a IH]; [discriminate|].
    cbn [map fst] in D. apply NoDup_cons_iff in D. destruct D as [Nk D].
    cbn [attr_get] in Gs, Ga. cbn [filter].
    destruct (str_eqb src_key k) eqn:Es.
    + apply str_eqb_eq in Es. subst k. injection Gs as ->.
      change (str_eqb alt_key src_key) with false in Ga.
      change (keeps_key (src_key, v)) with true. right. f_equal.
      apply (filter_one_key keeps_key alt_key x a D Ga); [|reflexivity].
      intros kv I K. apply keeps_key_cases in K. destruct K as [K|K]; [|exact K].
      exfalso. apply Nk. rewrite <- K. apply in_map. exact I.
    + destruct (str_eqb alt_key k) eqn:Ea.
      * apply str_eqb_eq in Ea. subst k. injection Ga as ->.
        change (keeps_key (alt_key, x)) with true. left. f_equal.
        apply (filter_one_key keeps_key src_key v a D Gs); [|reflexivity].
        intros kv I K. apply keeps_key_cases in K.
        destruct K as [K|K]; [exact K|].
        exfalso. apply Nk. rewrite <- K. apply in_map. exact I.
      * assert (Kf : keeps_key (k, y) = false).
        { unfold keeps_key. cbn [fst]. apply orb_false_iff. split.
          - apply str_eqb_neq. intros ->. rewrite str_eqb_refl in Es.
            discriminate.
          - apply str_eqb_neq. intros ->. rewrite str_eqb_refl in Ea.
            discriminate. }
        rewrite Kf. exact (IH D Gs Ga).
  - apply (filter_one_key keeps_key src_key v a D Gs); [|reflexivity].
    intros kv I K. apply keeps_key_cases in K. destruct K as [K|K]; [exact K|].
    exfalso. destruct kv as [k y]. cbn [fst] in K. subst k.
    exact (attr_get_in alt_key a y I Ga).
Qed.

(** The markup of an image the loop has cleaned ends with its [src]. *)
Lemma decode_cleaned_image (a : attributes) :
  dictionary a ->
  startswith assets_prefix (get src_key [] a) = true ->
  plain_name (basename (get src_key [] a)) ->
  let v := basename (get src_key [] a) in
  contains (src_attr v ++ u "/>") (decode (Tag (u "img") (image_attrs a) []))
  = true
  /\ (attr_get alt_key a = None ->
      decode (Tag (u "img") (image_attrs a) []) = img_markup v).
Proof.
  intros D P W. cbv zeta.
  pose proof (image_attrs_shape a D P) as Sh. cbv zeta in Sh.
  set (v := basename (get src_key [] a)) in *.
  assert (One : decode (Tag (u "img") [(src_key, v)] []) = img_markup v)
    by (apply decode_img_plain; exact W).
  assert (Two : forall x,
            contains (src_attr v ++ u "/>")
              (decode (Tag (u "img") [(alt_key, x); (src_key, v)] []))
            = true
            /\ decode (Tag (u "img") [(src_key, v); (alt_key, x)] [])
               = decode (Tag (u "img") [(alt_key, x); (src_key, v)] [])).
  { intros x. split; [|reflexivity].
    unfold decode. cbn [decode_in].
    change (str_eqb (u "img") document_name) with false.
    change (existsb (str_eqb (u "img")) void_elements) with true.
    cbv iota. unfold decode_attrs.
    change (sort_by str_leb fst [(alt_key, x); (src_key, v)])
      with [(alt_key, x); (src_key, v)].
    cbn [flat_map fst snd]. rewrite (quoted_plain v W).
    apply contains_iff.
    exists (u "<" ++ u "img" ++ [32] ++ alt_key ++ [61]
            ++ quoted_attribute_value (escape x) ++ [32]), [].
    unfold src_attr. rewrite <- ?app_assoc. cbn [app].
    rewrite <- ?app_assoc. reflexivity. }
  destruct (attr_get alt_key a) as [x|].
  - split; [|discriminate].
    destruct Sh as [->| ->]; [apply Two | rewrite (proj2 (Two x)); apply Two].
  - rewrite Sh, One. split; [|reflexivity].
    unfold img_markup. apply (contains_skip _ (u "<img ")). apply contains_refl.
Qed.

(** An image below [./assets/] is in the cleaned tree with the base name
    of its address, and its address is in the list of pending images. *)
Lemma process_images_element (soup : node) (a : attributes) :
  In (Tag (u "img") a []) (descendants soup) ->
  startswith assets_prefix (get src_key [] a) = true ->
  In (Tag (u "img") (image_attrs a) []) (descendants (process_images soup))
  /\ In (get src_key [] a) (recorded_images soup).
Proof.
  intros H P. split.
  - apply (map_descendant_attrs_descendants clean_image soup _ H).
  - unfold recorded_images. apply filter_In. split; [|exact P].
    apply in_map_iff. exists (Tag (u "img") a []).
    split; [reflexivity|]. apply filter_In. split; [exact H | reflexivity].
Qed.

(** ** Rewriting one address *)

Lemma replace_first (old new c : str) :
  old <> [] -> contains old c = true ->
  contains new (replace old new c) = true.
Proof.
  intros Hold. induction c as [|ch c IH]; intros H.
  - destruct old; [congruence | discriminate H].
  - destruct (startswith old (ch :: c)) eqn:E.
    + apply startswith_iff in E. destruct E as [r ->].
      rewrite replace_match by exact Hold. apply contains_here.
    + rewrite replace_no_match by exact E.
      cbn [contains] in H. rewrite E in H. cbn [orb] in H.
      apply (contains_skip new [ch]). exact (IH H).
Qed.

(** The replacement made for [name] turns the bare reference into the one
    below [images/]. *)
Lemma replace_own_markup (name c : str) :
  existsb (N.eqb 60) name = false ->
  contains (img_markup name) c = true ->
  contains (img_markup (images_dir ++ name))
    (replace (src_attr name) (src_attr (images_dir ++ name)) c) = true.
Proof.
  intros W H. apply contains_iff in H. destruct H as (a & b & ->).
  set (old := src_attr name). set (new := src_attr (images_dir ++ name)).
  assert (Hold : old <> []) by apply src_attr_nonempty.
  assert (F : ~ In 60 old).
  { unfold old, src_attr. rewrite !in_app_iff.
    intros [I|[I|[I|I]]].
    - revert I. apply not_in_of_existsb. reflexivity.
    - revert I. apply not_in_of_existsb. reflexivity.
    - revert I. apply not_in_of_existsb. exact W.
    - revert I. apply not_in_of_existsb. reflexivity. }
  assert (S : forall ch s, ch <> 115 ->
                replace old new (ch :: s) = ch :: replace old new s).
  { intros ch s N. apply replace_no_match. unfold old, src_attr.
    change (u "src=" ++ quote ++ name ++ quote)
      with (115 :: [114; 99; 61] ++ quote ++ name ++ quote).
    apply startswith_head_diff. congruence. }
  unfold img_markup. fold old new.
  assert (E : a ++ (u "<img " ++ old ++ u "/>") ++ b
              = a ++ 60 :: (105 :: 109 :: 103 :: 32 :: (old ++ 47 :: 62 :: b))).
  { change (u "<img " ++ old ++ u "/>")
      with (60 :: 105 :: 109 :: 103 :: 32 :: old ++ [47; 62]).
    cbn [app]. rewrite <- app_assoc. reflexivity. }
  rewrite E. clear E.
  change (u "<img " ++ new ++ u "/>")
    with (60 :: 105 :: 109 :: 103 :: 32 :: new ++ 47 :: [62]).
  rewrite (replace_at_foreign old new a 60) by auto.
  rewrite !S by discriminate.
  rewrite replace_match by exact Hold.
  rewrite !S by discriminate.
  apply contains_iff. exists (replace old new a), (replace old new b).
  cbn [app]. rewrite <- !app_assoc. reflexivity.
Qed.

(** A replacement made for the name [n2] leaves a quoted address that
    closes a tag as it is, unless [n2] followed by a quote is how the text
    begins that follows the opening quote. *)
Lemma replace_keeps_quoted (pre body n2 c : str) :
  existsb (N.eqb 34) pre = false ->
  existsb (N.eqb 34) body = false ->
  existsb (N.eqb slash) n2 = false ->
  (forall b, startswith (n2 ++ quote) (body ++ 34 :: u "/>" ++ b) = false) ->
  contains (pre ++ 34 :: body ++ 34 :: u "/>") c = true ->
  contains (pre ++ 34 :: body ++ 34 :: u "/>")
    (replace (src_attr n2) (src_attr (images_dir ++ n2)) c) = true.
Proof.
  intros Qp Qb Sn HA H. apply contains_iff in H. destruct H as (a & b & ->).
  rewrite (src_attr_split n2), (src_attr_images n2).
  pose proof (replace_inserted src_open images_dir (n2 ++ quote)
                (a ++ (pre ++ 34 :: body ++ 34 :: u "/>") ++ b)
                ltac:(discriminate)) as I.
  apply contains_iff.
  eapply inserted_keeps; [exact I | reflexivity|].
  intros w1 w2 E N1 N2 E1 E2.
  destruct w1 as [|x w1' _] using rev_ind; [congruence|].
  apply endswith_last in E1. destruct E1 as [r E1].
  rewrite app_assoc in E1. apply app_inj_tail in E1. destruct E1 as [_ ->].
  rewrite <- app_assoc in E. cbn [app] in E.
  symmetry in E. apply split_at_first in E;
    [|apply not_in_of_existsb; exact Qp].
  destruct E as [[-> ->]|(m & -> & E)].
  - rewrite <- app_assoc in E2. cbn [app] in E2. rewrite HA in E2.
    discriminate.
  - symmetry in E.
    apply split_at_first in E; [|apply not_in_of_existsb; exact Qb].
    destruct E as [[-> ->]|(m' & -> & E)].
    + destruct n2 as [|h n2]; [discriminate E2|].
      cbn in E2. apply andb_prop in E2. destruct E2 as [E2 _].
      apply N.eqb_eq in E2. subst h. cbn in Sn. discriminate.
    + destruct m' as [|? [|? [|? ?]]]; discriminate E.
Qed.

Lemma src_attr_quoted (body : str) :
  src_attr body ++ u "/>" = u "src=" ++ 34 :: body ++ 34 :: u "/>".
Proof. unfold src_attr. rewrite <- !app_assoc. reflexivity. Qed.

Lemma img_markup_quoted (body : str) :
  img_markup body = u "<img src=" ++ 34 :: body ++ 34 :: u "/>".
Proof. apply img_markup_split. Qed.

(** An occurrence of the attribute of [name] that starts before another
    one ends before it, when [name] does not end with an equals sign. *)
Lemma attribute_not_astride (name x2 rest : str) :
  existsb (N.eqb 34) name = false ->
  endswith [61] name = false ->
  x2 <> [] ->
  startswith (src_attr name) (x2 ++ src_attr name ++ rest) = true ->
  startswith (src_attr name) x2 = true.
Proof.
  intros Qn En Nx H. apply startswith_iff in H. destruct H as [r H].
  assert (Eo : src_attr name = u "src=" ++ 34 :: (name ++ [34]))
    by (unfold src_attr; reflexivity).
  rewrite Eo in H at 1 2. rewrite <- !app_assoc in H. cbn [app] in H.
  rewrite (app_assoc x2) in H.
  apply (split_at_first 34 (u "src=")) in H;
    [|apply not_in_of_existsb; reflexivity].
  destruct H as [[H _]|(m & H & H2)].
  - exfalso. apply (f_equal (@length N)) in H. rewrite length_app in H.
    destruct x2; [congruence | cbn in H; lia].
  - rewrite <- app_assoc in H2. cbn [app] in H2. symmetry in H2.
    apply (split_at_first 34 name) in H2;
      [|apply not_in_of_existsb; exact Qn].
    destruct H2 as [[-> _]|(m' & -> & _)].
    + exfalso. apply (f_equal (@rev N)) in H.
      rewrite !rev_app_distr in H. cbn [rev app] in H.
      unfold endswith in En. destruct (rev name) as [|h t].
      * cbn in H. discriminate H.
      * cbn in H. injection H as <- _. cbn in En. discriminate En.
    + assert (E : x2 ++ u "src=" = src_attr name ++ m').
      { rewrite H, Eo. rewrite <- !app_assoc. cbn [app].
        rewrite <- app_assoc. reflexivity. }
      apply app_eq_app in E. destruct E as [l [[E _]|[E1 E2]]].
      * rewrite E. apply startswith_app.
      * destruct l as [|x l _] using rev_ind.
        -- rewrite app_nil_r in E1. rewrite <- E1. apply startswith_iff.
           exists []. rewrite app_nil_r. reflexivity.
        -- exfalso. rewrite Eo in E1.
           change (u "src=" ++ 34 :: name ++ [34])
             with ((u "src=" ++ 34 :: name) ++ [34]) in E1.
           rewrite app_assoc in E1. apply app_inj_tail in E1.
           destruct E1 as [_ <-].
           assert (I : In 34 (u "src=")).
           { rewrite E2. apply in_or_app. left. apply in_or_app. right.
             left. reflexivity. }
           cbn in I. intuition discriminate.
Qed.

(** The replacement made for [name] moves its attribute below
    [images/]. *)
Lemma replace_own_attribute (name c : str) :
  existsb (N.eqb 34) name = false ->
  endswith [61] name = false ->
  contains (src_attr name ++ u "/>") c = true ->
  contains (src_attr (images_dir ++ name) ++ u "/>")
    (replace (src_attr name) (src_attr (images_dir ++ name)) c) = true.
Proof.
  intros Qn En H. apply contains_iff in H. destruct H as (a & b & ->).
  set (old := src_attr name). set (new := src_attr (images_dir ++ name)).
  assert (Hold : old <> []) by apply src_attr_nonempty.
  assert (S : forall ch s, ch <> 115 ->
                replace old new (ch :: s) = ch :: replace old new s).
  { intros ch s N. apply replace_no_match. unfold old, src_attr.
    change (u "src=" ++ quote ++ name ++ quote)
      with (115 :: [114; 99; 61] ++ quote ++ name ++ quote).
    apply startswith_head_diff. congruence. }
  rewrite <- (app_assoc old). rewrite (replace_app old new Hold a).
  - rewrite replace_match by exact Hold.
    change (u "/>" ++ b) with (47 :: 62 :: b).
    rewrite !S by discriminate.
    apply contains_iff. exists (replace old new a), (replace old new b).
    rewrite <- !app_assoc. reflexivity.
  - intros x1 x2 -> N2 St.
    exact (attribute_not_astride name x2 _ Qn En N2 St).
Qed.

(** ** The loop that embeds the images, for any form of reference *)

Section References.
Variable os : os_env.
Variable dir_path : str.
Variable chapter_id : nat.
Variable name : str.

(** The text of a reference to [name] in the chapter, before and after it
    is moved below [images/]. *)
Variables bare embedded : str.

Let step := embed_image os dir_path chapter_id.
Let rewrite_for (n : str) : str -> str :=
  replace (src_attr n) (src_attr (images_dir ++ n)).

Hypothesis own :
  forall c, contains bare c = true -> contains embedded (rewrite_for name c) = true.
Hypothesis keep_embedded :
  forall n c, existsb (N.eqb slash) n = false ->
    contains embedded c = true -> contains embedded (rewrite_for n c) = true.
Hypothesis keep_bare :
  forall n c, existsb (N.eqb slash) n = false -> n <> name ->
    contains bare c = true -> contains bare (rewrite_for n c) = true.

Lemma reference_step_embedded (b : EpubBook) (c p : str) :
  contains embedded c = true -> contains embedded (snd (step (b, c) p)) = true.
Proof.
  intros H. unfold step.
  destruct (path_exists os (path_join dir_path p)) eqn:E.
  - rewrite step_exists by exact E. cbn [snd].
    apply keep_embedded; [apply basename_no_slash | exact H].
  - rewrite step_missing by exact E. exact H.
Qed.

Lemma reference_step_bare (b : EpubBook) (c p : str) :
  (path_exists os (path_join dir_path p) = true -> basename p <> name) ->
  contains bare c = true -> contains bare (snd (step (b, c) p)) = true.
Proof.
  intros N H. unfold step.
  destruct (path_exists os (path_join dir_path p)) eqn:E.
  - rewrite step_exists by exact E. cbn [snd].
    apply keep_bare; [apply basename_no_slash | auto | exact H].
  - rewrite step_missing by exact E. exact H.
Qed.

Lemma reference_step_either (b : EpubBook) (c p : str) :
  contains bare c = true \/ contains embedded c = true ->
  contains bare (snd (step (b, c) p)) = true
  \/ contains embedded (snd (step (b, c) p)) = true.
Proof.
  intros [H|H]; [|right; apply reference_step_embedded; exact H].
  destruct (path_exists os (path_join dir_path p)) eqn:E.
  - destruct (list_eq_dec N.eq_dec (basename p) name) as [Eq|Ne].
    + right. unfold step. rewrite step_exists by exact E. cbn [snd].
      rewrite Eq. apply own. exact H.
    + left. apply reference_step_bare; auto.
  - left. unfold step. rewrite step_missing by exact E. exact H.
Qed.

(** When the file of a pending path with the base name [name] exists, the
    chapter ends up with the reference below [images/]. *)
Lemma references_embedded (pending : list str) (target : str) (b : EpubBook)
    (c : str) :
  In target pending -> basename target = name ->
  path_exists os (path_join dir_path target) = true ->
  contains bare c = true \/ contains embedded c = true ->
  contains embedded (snd (fold_left step pending (b, c))) = true.
Proof.
  revert b c. induction pending as [|p pending IH]; intros b c I Bn E H;
    [destruct I|].
  cbn [fold_left]. destruct (step (b, c) p) as [b1 c1] eqn:Es.
  assert (Ec : c1 = snd (step (b, c) p)) by (rewrite Es; reflexivity).
  destruct (list_eq_dec N.eq_dec p target) as [->|Ne].
  - apply (fold_keeps os dir_path chapter_id
             (fun c => contains embedded c = true)).
    + intros. apply reference_step_embedded. assumption.
    + rewrite Ec. destruct H as [H|H].
      * unfold step. rewrite step_exists by exact E. cbn [snd]. rewrite Bn.
        apply own. exact H.
      * apply reference_step_embedded. exact H.
  - apply IH; auto.
    + destruct I as [I|I]; [congruence | exact I].
    + rewrite Ec. apply reference_step_either. exact H.
Qed.

(** When no pending path with the base name [name] has its file, the
    reference stays as it is. *)
Lemma references_bare (pending : list str) (b : EpubBook) (c : str) :
  (forall p, In p pending -> path_exists os (path_join dir_path p) = true ->
     basename p <> name) ->
  contains bare c = true ->
  contains bare (snd (fold_left step pending (b, c))) = true.
Proof.
  intros N H.
  apply (fold_keeps os dir_path chapter_id (fun c => contains bare c = true));
    [|exact H].
  intros b0 c0 p I H0. apply reference_step_bare; auto.
Qed.

End References.

Lemma images_name_plain (name : str) :
  existsb (N.eqb 34) name = false ->
  existsb (N.eqb 34) (images_dir ++ name) = false.
Proof. intros H. rewrite existsb_app, H. reflexivity. Qed.

(** ** The file of an image reference *)

Lemma after_last_with (c : N) (x s : str) :
  existsb (N.eqb c) s = true -> after_last c (x ++ s) = after_last c s.
Proof.
  intros H. induction x as [|h x IH]; [reflexivity|].
  cbn [app after_last].
  assert (E : existsb (N.eqb c) (x ++ s) = true)
    by (rewrite existsb_app, H; apply orb_true_r).
  cbn [existsb]. rewrite E, orb_true_r. exact IH.
Qed.

Lemma path_join_relative (dir_path p : str) :
  startswith assets_prefix p = true ->
  exists x, path_join dir_path p = x ++ p.
Proof.
  intros H. apply startswith_iff in H. destruct H as [r ->].
  unfold path_join.
  change (assets_prefix ++ r) with (46 :: u "/assets/" ++ r).
  rewrite startswith_head_diff by discriminate.
  destruct dir_path as [|c d]; [exists []; reflexivity|].
  destruct (endswith [slash] (c :: d)).
  - exists (c :: d). reflexivity.
  - exists ((c :: d) ++ [slash]). rewrite <- app_assoc. reflexivity.
Qed.

Lemma basename_path_join (dir_path p : str) :
  startswith assets_prefix p = true ->
  basename (path_join dir_path p) = basename p.
Proof.
  intros H. destruct (path_join_relative dir_path p H) as [x ->].
  unfold basename. apply after_last_with.
  apply startswith_iff in H. destruct H as [r ->].
  reflexivity.
Qed.

Lemma splitext_ext_png (p stem : str) :
  basename p = stem ++ u ".png" -> file_stem stem ->
  splitext_ext p = u ".png".
Proof.
  intros B S. unfold splitext_ext. rewrite B.
  assert (E : existsb (N.eqb dot) (stem ++ u ".png") = true)
    by (rewrite existsb_app; cbn; apply orb_true_r).
  rewrite E.
  change (stem ++ u ".png") with (stem ++ dot :: u "png").
  rewrite after_last_app by reflexivity.
  rewrite length_app. cbn [length u map list_ascii_of_string].
  replace (length stem + 4 - 4)%nat with (length stem) by lia.
  rewrite firstn_app, Nat.sub_diag, firstn_all. cbn [firstn].
  rewrite app_nil_r. unfold file_stem in S. rewrite S. reflexivity.
Qed.

Lemma media_type_of_png (dir_path p stem : str) :
  startswith assets_prefix p = true ->
  basename p = stem ++ u ".png" -> file_stem stem ->
  media_type_of (path_join dir_path p) = u "image/png".
Proof.
  intros P B S. unfold media_type_of.
  rewrite (splitext_ext_png (path_join dir_path p) stem); [reflexivity| |exact S].
  rewrite (basename_path_join dir_path p P). exact B.
Qed.

Lemma png_name_end (stem : str) : endswith [61] (stem ++ u ".png") = false.
Proof.
  unfold endswith. rewrite rev_app_distr. reflexivity.
Qed.

(** C6 (as amended): let an image element of the markup on which the image
    loop runs have an address below [./assets/] whose base name is
    [NAME.png], where [NAME.png] has no quotation mark, ampersand or angle
    bracket and [NAME] is not made of dots only; the element, which has no
    children, may carry any other attributes, each key once.  When the [assets] directory and the file exist, the
    chapter holds [src="images/NAME.png"/>], as [<img
    src="images/NAME.png"/>] when the element has no [alt], and the book
    holds a resource [images/NAME.png] of type image/png with the bytes of
    the file.  When there is no [assets] directory, or no pending image
    with that base name exists on disk, the chapter holds [src="NAME.png"/>],
    as [<img src="NAME.png"/>] when the element has no [alt], and no
    resource of that name is added. *)
Theorem image_reference_embedding (parse : str -> node) (os : os_env)
    (self : converter) (dir_info : str * str) (chapter_id : nat)
    (content_div : node) (a : attributes) (stem : str) :
  let name := stem ++ u ".png" in
  let dir_path := snd dir_info in
  let html_path := path_join dir_path index_html in
  let img_path := get src_key [] a in
  let full_img_path := path_join dir_path img_path in
  let soup_content := soup_content_of parse content_div in
  path_exists os html_path = true ->
  find_content_div (remove_unwanted (parse (read_text os html_path)))
  = Some content_div ->
  In (Tag (u "img") a []) (descendants soup_content) ->
  dictionary a ->
  startswith assets_prefix img_path = true ->
  basename img_path = name ->
  file_stem stem ->
  plain_name name ->
  exists self' chapter title,
    process_html_file parse os self dir_info chapter_id
    = (self', Some (chapter, title))
    /\ (path_exists os (path_join dir_path (u "assets")) = true ->
        path_exists os full_img_path = true ->
        contains (src_attr (images_dir ++ name) ++ u "/>")
          (html_content chapter) = true
        /\ (attr_get alt_key a = None ->
            contains (img_markup (images_dir ++ name)) (html_content chapter)
            = true)
        /\ In (Item
                 {| uid := u "image_" ++ str_of_nat chapter_id ++ u "_"
                           ++ name;
                    file_name := images_dir ++ name;
                    media_type := u "image/png";
                    content := Bytes (read_bytes os full_img_path) |})
              (items (book self')))
    /\ (path_exists os (path_join dir_path (u "assets")) = false
        \/ (forall p, In p (recorded_images soup_content) ->
              basename p = name ->
              path_exists os (path_join dir_path p) = false) ->
        contains (src_attr name ++ u "/>") (html_content chapter) = true
        /\ (attr_get alt_key a = None ->
            contains (img_markup name) (html_content chapter) = true)
        /\ forall it, In (Item it) (items (book self')) ->
             file_name it = images_dir ++ name ->
             In (Item it) (items (book self))).
Proof.
  cbv zeta. intros Eh Ef Hi D P Bn S W.
  destruct (process_images_element _ a Hi P) as [Hel Hp].
  assert (W' : plain_name (basename (get src_key [] a)))
    by (rewrite Bn; exact W).
  destruct (decode_cleaned_image a D P W') as [Hg Hpl]. rewrite Bn in Hg, Hpl.
  set (name := stem ++ u ".png") in *.
  set (img_path := get src_key [] a) in *.
  assert (Q34 : existsb (N.eqb 34) name = false)
    by (apply (plain_name_no 34 name W); reflexivity).
  assert (Q60 : existsb (N.eqb 60) name = false)
    by (apply (plain_name_no 60 name W); reflexivity).
  assert (Qi : existsb (N.eqb 34) (images_dir ++ name) = false)
    by (apply images_name_plain; exact Q34).
  assert (En : endswith [61] name = false) by apply png_name_end.
  (* the attribute, with the end of the tag *)
  assert (A1 : forall c, contains (src_attr name ++ u "/>") c = true ->
             contains (src_attr (images_dir ++ name) ++ u "/>")
               (replace (src_attr name) (src_attr (images_dir ++ name)) c)
             = true)
    by (intros c; apply replace_own_attribute; assumption).
  assert (A2 : forall n c, existsb (N.eqb slash) n = false ->
             contains (src_attr (images_dir ++ name) ++ u "/>") c = true ->
             contains (src_attr (images_dir ++ name) ++ u "/>")
               (replace (src_attr n) (src_attr (images_dir ++ n)) c) = true).
  { intros n c Sn. rewrite src_attr_quoted.
    apply replace_keeps_quoted; auto.
    intros b. apply images_name_no_match. exact Sn. }
  assert (A3 : forall n c, existsb (N.eqb slash) n = false -> n <> name ->
             contains (src_attr name ++ u "/>") c = true ->
             contains (src_attr name ++ u "/>")
               (replace (src_attr n) (src_attr (images_dir ++ n)) c) = true).
  { intros n c Sn Ne. rewrite src_attr_quoted.
    apply replace_keeps_quoted; auto.
    intros b. apply foreign_name_no_match; auto. }
  (* the whole element *)
  assert (B1 : forall c, contains (img_markup name) c = true ->
             contains (img_markup (images_dir ++ name))
               (replace (src_attr name) (src_attr (images_dir ++ name)) c)
             = true)
    by (intros c; apply replace_own_markup; assumption).
  assert (B2 : forall n c, existsb (N.eqb slash) n = false ->
             contains (img_markup (images_dir ++ name)) c = true ->
             contains (img_markup (images_dir ++ name))
               (replace (src_attr n) (src_attr (images_dir ++ n)) c) = true).
  { intros n c Sn. apply replace_keeps_reference; auto.
    intros b. apply images_name_no_match. exact Sn. }
  assert (B3 : forall n c, existsb (N.eqb slash) n = false -> n <> name ->
             contains (img_markup name) c = true ->
             contains (img_markup name)
               (replace (src_attr n) (src_attr (images_dir ++ n)) c) = true).
  { intros n c Sn Ne. apply replace_keeps_reference; auto.
    intros b. apply foreign_name_no_match; auto. }
  unfold process_html_file, clean_html_content. rewrite Eh, Ef. cbn [negb app].
  match goal with
  | |- context [chapter_markup ?t ?d ?c] =>
      set (content0 := chapter_markup t d c);
      assert (H0 : contains (src_attr name ++ u "/>") content0 = true)
        by (apply chapter_markup_contains;
            exact (contains_trans _ _ _ Hg (decode_contains _ _ _ _ Hel)));
      assert (H1 : attr_get alt_key a = None ->
                   contains (img_markup name) content0 = true)
        by (intros Na; apply chapter_markup_contains;
            rewrite <- (Hpl Na); exact (decode_contains _ _ _ _ Hel))
  end.
  set (pending := recorded_images (soup_content_of parse content_div)) in *.
  destruct (path_exists os (path_join (snd dir_info) (u "assets"))) eqn:Ea.
  - destruct (fold_left (embed_image os (snd dir_info) chapter_id) pending
                (book self, content0)) as [b1 c1] eqn:Efold.
    assert (Eb : b1 = fst (fold_left (embed_image os (snd dir_info) chapter_id)
                             pending (book self, content0)))
      by (rewrite Efold; reflexivity).
    assert (Ec : c1 = snd (fold_left (embed_image os (snd dir_info) chapter_id)
                             pending (book self, content0)))
      by (rewrite Efold; reflexivity).
    do 3 eexists. split; [reflexivity|]. cbn [html_content book with_book].
    split.
    + intros _ Ex. split; [|split].
      * rewrite Ec.
        apply (references_embedded os (snd dir_info) chapter_id name
                 _ _ A1 A2 A3 pending img_path); auto.
      * intros Na. rewrite Ec.
        apply (references_embedded os (snd dir_info) chapter_id name
                 _ _ B1 B2 B3 pending img_path); auto.
      * rewrite Eb. apply fold_items. right. exists img_path.
        split; [exact Hp|]. split; [exact Ex|].
        unfold image_item.
        rewrite Bn, (media_type_of_png (snd dir_info) img_path stem P Bn S).
        reflexivity.
    + intros [E|Hn]; [discriminate E|]. split; [|split].
      * rewrite Ec.
        apply (references_bare os (snd dir_info) chapter_id name _ A3);
          [|exact H0].
        intros p Ip Ex Eq. rewrite (Hn p Ip Eq) in Ex. discriminate Ex.
      * intros Na. rewrite Ec.
        apply (references_bare os (snd dir_info) chapter_id name _ B3);
          [|exact (H1 Na)].
        intros p Ip Ex Eq. rewrite (Hn p Ip Eq) in Ex. discriminate Ex.
      * intros it Hit Efn. rewrite Eb in Hit. apply fold_items in Hit.
        destruct Hit as [Hit|(p & Ip & Ex & Eit)]; [exact Hit|].
        exfalso. injection Eit as ->. cbn [file_name image_item] in Efn.
        apply app_inv_head in Efn. rewrite (Hn p Ip Efn) in Ex.
        discriminate Ex.
  - do 3 eexists. split; [reflexivity|]. cbn [html_content book with_book].
    split; [intros E; discriminate E|].
    intros _. split; [exact H0 | split; [exact H1 | auto]].
Qed.

(** The image [assets/y.png] of the gallery, which exists; its element has
    a [data-w] attribute beside the address. *)
Lemma image_reference_embedding_witness :
  path_exists gallery_os (path_join dir_c index_html) = true
  /\ find_content_div
       (remove_unwanted
          (gallery_parse (read_text gallery_os (path_join dir_c index_html))))
     = Some (container_c [])
  /\ In wide_image
       (descendants (soup_content_of gallery_parse (container_c [])))
  /\ dictionary [(u "data-w", u "640"); (src_key, u "./assets/y.png")]
  /\ file_stem (u "y")
  /\ plain_name (u "y.png")
  /\ path_exists gallery_os (path_join dir_c (u "assets")) = true
  /\ path_exists gallery_os (path_join dir_c (u "./assets/y.png")) = true
  /\ exists self' chapter title,
       process_html_file gallery_parse gallery_os
         (init (u "/books") (u "/books/out.epub"))
         (u "2024-05-01-c", dir_c) 1
       = (self', Some (chapter, title))
       /\ contains (u "src=" ++ quote ++ u "images/y.png" ++ quote ++ u "/>")
            (html_content chapter) = true
       /\ contains (img_markup (u "images/y.png")) (html_content chapter)
          = true
       /\ In (Item
                {| uid := u "image_1_y.png";
                   file_name := u "images/y.png";
                   media_type := u "image/png";
                   content :=
                     Bytes (read_bytes gallery_os
                              (path_join dir_c (u "./assets/y.png"))) |})
            (items (book self')).
Proof.
  assert (Eh : path_exists gallery_os (path_join dir_c index_html) = true)
    by (vm_compute; reflexivity).
  assert (Ef : find_content_div
                 (remove_unwanted
                    (gallery_parse
                       (read_text gallery_os (path_join dir_c index_html))))
               = Some (container_c [])) by (vm_compute; reflexivity).
  assert (Hi : In wide_image
                 (descendants (soup_content_of gallery_parse (container_c [])))).
  { vm_compute. repeat (try (left; reflexivity); right). }
  assert (D : dictionary [(u "data-w", u "640"); (src_key, u "./assets/y.png")]).
  { unfold dictionary. cbn [map fst]. repeat constructor.
    - intros [E|[]]. vm_compute in E. discriminate E.
    - intros []. }
  assert (S : file_stem (u "y")) by reflexivity.
  assert (W : plain_name (u "y.png")) by reflexivity.
  assert (Ea : path_exists gallery_os (path_join dir_c (u "assets")) = true)
    by (vm_compute; reflexivity).
  assert (Ex : path_exists gallery_os (path_join dir_c (u "./assets/y.png"))
               = true) by (vm_compute; reflexivity).
  repeat (split; [assumption|]).
  destruct (image_reference_embedding gallery_parse gallery_os
              (init (u "/books") (u "/books/out.epub"))
              (u "2024-05-01-c", dir_c) 1 (container_c [])
              [(u "data-w", u "640"); (src_key, u "./assets/y.png")] (u "y")
              Eh Ef Hi D eq_refl eq_refl S W)
    as (self' & chapter & title & E & Ha & _).
  exists self', chapter, title. split; [exact E|].
  destruct (Ha Ea Ex) as (H1 & H2 & H3).
  split; [exact H1|]. split; [exact (H2 eq_refl) | exact H3].
Defined.

(** C6 as stated fails, in four ways.  [assets/x.png] of the sample does
    not exist, and yet its reference is rewritten and a resource
    [images/x.png] is embedded, because [assets/sub/x.png] has the same
    base name and exists.  [assets/z.png] exists and is referenced in the
    source document, outside the content container: the chapter does not
    refer to it and no resource is embedded for it.  [assets/a&b.png] of
    the gallery exists and is embedded, but the serialiser writes its name
    with [&amp;], which the replacement of the text does not find: the
    chapter keeps the bare name.  [assets/.png] of the gallery exists; its
    name has no extension for [splitext], and the resource gets the type
    image/jpeg. *)
Lemma image_reference_counterexamples :
  (exists self' chapter title,
    process_html_file sample_parse sample_os
      (init (u "/books") (u "/books/out.epub")) (u "2024-03-01-a", dir_a) 2
    = (self', Some (chapter, title))
    /\ In (Tag (u "img") [(src_key, u "./assets/x.png")] [])
         (descendants (soup_content_of sample_parse (container_a [])))
    /\ path_exists sample_os (path_join dir_a (u "./assets/x.png")) = false
    /\ contains (img_markup (u "x.png")) (html_content chapter) = false
    /\ contains (img_markup (u "images/x.png")) (html_content chapter) = true
    /\ has_resource (book self') (u "images/x.png") = true
    /\ In (Tag (u "img") [(src_key, u "./assets/z.png")] [])
         (descendants (sample_parse source_a))
    /\ path_exists sample_os (path_join dir_a (u "./assets/z.png")) = true
    /\ contains (u "z.png") (html_content chapter) = false
    /\ has_resource (book self') (u "images/z.png") = false)
  /\ (exists self' chapter title,
    process_html_file gallery_parse gallery_os
      (init (u "/books") (u "/books/out.epub")) (u "2024-05-01-c", dir_c) 1
    = (self', Some (chapter, title))
    /\ In (Tag (u "img") [(src_key, u "./assets/a&b.png")] [])
         (descendants (soup_content_of gallery_parse (container_c [])))
    /\ path_exists gallery_os (path_join dir_c (u "./assets/a&b.png")) = true
    /\ has_resource (book self') (u "images/a&b.png") = true
    /\ contains (u "images/a&") (html_content chapter) = false
    /\ contains (u "<img src=" ++ quote ++ u "a&amp;b.png" ++ quote ++ u "/>")
         (html_content chapter) = true
    /\ In (Tag (u "img") [(src_key, u "./assets/.png")] [])
         (descendants (soup_content_of gallery_parse (container_c [])))
    /\ path_exists gallery_os (path_join dir_c (u "./assets/.png")) = true
    /\ contains (img_markup (u "images/.png")) (html_content chapter) = true
    /\ In (Item
             {| uid := u "image_1_.png";
                file_name := u "images/.png";
                media_type := u "image/jpeg";
                content :=
                  Bytes (read_bytes gallery_os
                           (path_join dir_c (u "./assets/.png"))) |})
         (items (book self'))
    /\ resource_types (book self') (u "images/.png") = [u "image/jpeg"]).
Proof.
  split.
  - do 3 eexists. split; [vm_compute; reflexivity|].
    split; [vm_compute; repeat (try (left; reflexivity); right)|].
    split; [vm_compute; reflexivity|]. split; [vm_compute; reflexivity|].
    split; [vm_compute; reflexivity|]. split; [vm_compute; reflexivity|].
    split; [vm_compute; repeat (try (left; reflexivity); right)|].
    split; [vm_compute; reflexivity|]. split; vm_compute; reflexivity.
  - do 3 eexists. split; [vm_compute; reflexivity|].
    split; [vm_compute; repeat (try (left; reflexivity); right)|].
    split; [vm_compute; reflexivity|]. split; [vm_compute; reflexivity|].
    split; [vm_compute; reflexivity|]. split; [vm_compute; reflexivity|].
    split; [vm_compute; repeat (try (left; reflexivity); right)|].
    split; [vm_compute; reflexivity|]. split; [vm_compute; reflexivity|].
    split; [vm_compute; repeat (try (left; reflexivity); right)|].
    vm_compute. reflexivity.
Qed.

(** The characters that are plain are those that the serialiser writes as
    they are between double quotes: with any of the four others in its
    name, the markup of an image is not the one the replacement looks
    for. *)
Lemma plain_char_serialised (c : N) :
  plain_char c = true <-> decode (img_of [c]) = img_markup [c].
Proof.
  split.
  - intros H. apply decode_img_plain. unfold plain_name. cbn [forallb].
    rewrite H. reflexivity.
  - intros H. destruct (plain_char c) eqn:E; [reflexivity|]. exfalso.
    unfold plain_char in E. apply negb_false_iff in E.
    repeat (apply orb_true_iff in E; destruct E as [E|E]);
      apply N.eqb_eq in E; subst c; vm_compute in H; discriminate H.
Qed.
